(** * Signal pipeline: parser, risk sizing, back-test and live execution

    A shallow embedding of [telegram_parser.py], [backtest_engine.py] and
    [bitunix_api.py] (the [BitunixTradeManager] class).

    Numbers.  Python floats are read as exact rationals ([Q]), compared
    with [Qeq], [Qlt] and [Qle]; a statement about them is written with
    the expressions of the code, in the order the code evaluates them.
    Rounding, infinities and NaN are not in [Q]: where rounding decides
    an outcome the computation is repeated on the binary64 floats of the
    machine (module [F64]), the functions of numpy stand as parameters,
    and a statement that needs every number of a text to be finite
    bounds the length of its numbers ([Str.short_numbers]).

    Text.  A Python [str] is read as a [string] of 8-bit characters.
    For a text of ASCII characters ([Str.ascii_only]) the reading is
    exact: the character classes, [upper] and [re.IGNORECASE] of the
    model are the ones of Python.  A character above 127 is read as a
    symbol that is neither a word character nor white space, which is
    right for the pictographs [_clean_text] removes and wrong for the
    letters and numerals beyond ASCII; a statement that depends on the
    class or the case of a character is made for ASCII texts. *)

From Stdlib Require Import List String Ascii Bool Arith ZArith QArith Qabs.
From Stdlib Require Import Lia Lqa Sorted SetoidList Qminmax Permutation.
From Stdlib Require PrimFloat Uint63.
Import ListNotations.

Local Open Scope Q_scope.

(** ** Python built-ins used by the three services *)

Module Py.

(** [a < b], [a <= b], [a == b] on floats, as booleans. *)
Definition ltb (a b : Q) : bool := negb (Qle_bool b a).
Definition leb (a b : Q) : bool := Qle_bool a b.
Definition eqb (a b : Q) : bool := Qeq_bool a b.

(** [min(a, b)] returns its first argument unless the second is smaller;
    [max(a, b)] returns its first argument unless the second is larger. *)
Definition min (a b : Q) : Q := if ltb b a then b else a.
Definition max (a b : Q) : Q := if ltb a b then b else a.

(** [not x] for an [Optional[float]]: [None] and [0.0] are falsy. *)
Definition falsy (x : option Q) : bool :=
  match x with
  | None => true
  | Some v => eqb v 0
  end.

(** [sum(l)] and [len(l)] as a float. *)
Definition sum (l : list Q) : Q := fold_left Qplus l 0.
Definition len {A : Type} (l : list A) : Q := inject_Z (Z.of_nat (length l)).

(** Exceptions carry the text [str(e)] gives. *)
Inductive result (A : Type) : Type :=
| Ok (a : A)
| Raise (msg : string).
Arguments Ok {A} a.
Arguments Raise {A} msg.

Definition bind {A B : Type} (m : result A) (f : A -> result B) : result B :=
  match m with
  | Ok a => f a
  | Raise e => Raise e
  end.

(** [a / b] on Python floats raises [ZeroDivisionError] on a zero
    divisor. *)
Definition div (a b : Q) : result Q :=
  if eqb b 0 then Raise "float division by zero" else Ok (a / b).

(** [max(l)] and [min(l)] of a non-empty list. *)
Definition max_list (x : Q) (l : list Q) : Q := fold_left max l x.
Definition min_list (x : Q) (l : list Q) : Q := fold_left min l x.

End Py.

Notation "x <- m ;; k" := (Py.bind m (fun x => k))
  (at level 61, m at next level, right associativity).

(** ** Characters and [str] methods *)

Module Str.

Definition code (c : ascii) : nat := nat_of_ascii c.

Definition between (lo hi : nat) (c : ascii) : bool :=
  (lo <=? code c)%nat && (code c <=? hi)%nat.

Definition is_digit (c : ascii) : bool := between 48 57 c.
Definition is_upper (c : ascii) : bool := between 65 90 c.
Definition is_lower (c : ascii) : bool := between 97 122 c.
Definition is_alpha (c : ascii) : bool := is_upper c || is_lower c.

(** [\w]: letters, digits and the underscore, among the characters of
    ASCII. *)
Definition is_word (c : ascii) : bool :=
  is_alpha c || is_digit c || (code c =? 95)%nat.

(** [\s] and [str.isspace]: tab to carriage return, the four
    separators 28 to 31, and the blank. *)
Definition is_space (c : ascii) : bool :=
  between 9 13 c || between 28 31 c || (code c =? 32)%nat.

Definition upper_char (c : ascii) : ascii :=
  if is_lower c then ascii_of_nat (code c - 32) else c.
Definition lower_char (c : ascii) : ascii :=
  if is_upper c then ascii_of_nat (code c + 32) else c.

Definition chars (s : string) : list ascii := list_ascii_of_string s.
Definition of_chars (l : list ascii) : string := string_of_list_ascii l.

(** [s.upper()] *)
Definition upper (s : string) : string := of_chars (map upper_char (chars s)).

(** [s.isalpha()]: non-empty and letters only. *)
Definition isalpha (s : string) : bool :=
  match chars s with
  | [] => false
  | l => forallb is_alpha l
  end.

(** [s.strip()] *)
Fixpoint lstrip (l : list ascii) : list ascii :=
  match l with
  | c :: tl => if is_space c then lstrip tl else l
  | [] => []
  end.
Definition strip_chars (l : list ascii) : list ascii :=
  rev (lstrip (rev (lstrip l))).
Definition strip (s : string) : string := of_chars (strip_chars (chars s)).

(** [s.replace(c, '')] for a one-character [c]. *)
Definition remove_char (c : ascii) (s : string) : string :=
  of_chars (filter (fun x => negb (Ascii.eqb x c)) (chars s)).

(** [c in s] for a one-character [c]. *)
Definition contains (c : ascii) (s : string) : bool :=
  existsb (Ascii.eqb c) (chars s).

(** [s.split(c)] for a one-character separator: always at least one
    part. *)
Fixpoint split_chars (c : ascii) (cur : list ascii) (l : list ascii)
  : list string :=
  match l with
  | [] => [of_chars (rev cur)]
  | x :: tl =>
      if Ascii.eqb x c then of_chars (rev cur) :: split_chars c [] tl
      else split_chars c (x :: cur) tl
  end.
Definition split (c : ascii) (s : string) : list string :=
  split_chars c [] (chars s).

(** Value of a run of decimal digits, most significant first. *)
Definition digit_val (c : ascii) : Z := Z.of_nat (code c - 48).
Definition digits_val (l : list ascii) : Z :=
  fold_left (fun acc c => (10 * acc + digit_val c)%Z) l 0%Z.

(** [int(s)] on the tokens the leverage rules capture: a non-empty run
    of digits; anything else raises [ValueError].  The limit some
    versions of Python put on the number of digits (4300) is not
    modelled. *)
Definition int (s : string) : option Z :=
  match chars s with
  | [] => None
  | l => if forallb is_digit l then Some (digits_val l) else None
  end.

(** [float(s)] on the tokens the price rules capture, which hold digits
    and dots only: digits with at most one dot and at least one digit;
    anything else raises [ValueError].  The value is the exact decimal:
    Python rounds it to the nearest float, and returns an infinity
    beyond 308 digits, which [short_numbers] below excludes. *)
Definition float (s : string) : option Q :=
  match split "." s with
  | [i] =>
      match chars i with
      | [] => None
      | l => if forallb is_digit l then Some (inject_Z (digits_val l))
             else None
      end
  | [i; f] =>
      let li := chars i in
      let lf := chars f in
      if forallb is_digit li && forallb is_digit lf
         && negb ((length li + length lf =? 0)%nat)
      then Some (Qred (Qmake (digits_val (li ++ lf))
                             (Z.to_pos (10 ^ Z.of_nat (length lf)))))
      else None
  | _ => None
  end.

(** A text of ASCII characters. *)
Definition ascii_only (s : string) : bool :=
  forallb (fun c => (code c <? 128)%nat) (chars s).

(** The characters of a price token, [[0-9,.]], and the length of the
    longest run of them: [cur] counts the run being read, [best] holds
    the longest one before it. *)
Definition is_price_char (c : ascii) : bool :=
  is_digit c || (code c =? 44)%nat || (code c =? 46)%nat.

Fixpoint longest_run (P : ascii -> bool) (l : list ascii) (cur best : nat)
  : nat :=
  match l with
  | [] => Nat.max cur best
  | c :: tl =>
      if P c then longest_run P tl (S cur) best
      else longest_run P tl 0 (Nat.max cur best)
  end.

(** No number of the text has more than 300 digits: every token
    [float] is given is a piece of a run of price characters, so each
    is below 10^300 and [float] returns a finite number for it. *)
Definition short_numbers (s : string) : bool :=
  (longest_run is_price_char (chars s) 0 0 <=? 300)%nat.

End Str.

(** ** The fragment of Python's [re] the parser relies on

    A backtracking matcher: alternatives are tried left to right,
    quantifiers are greedy, a search returns the leftmost match.  Every
    quantified item of the parser's rules is a single character class or
    an optional group, which is what the syntax below offers. *)

Module Re.

#[warnings="-register-all"]
Inductive charset : Type :=
| CChar (c : ascii)                 (* a literal character *)
| CRange (lo hi : ascii)            (* [lo-hi] *)
| CDigit                            (* \d *)
| CSpace                            (* \s *)
| CWord                             (* \w *)
| CSet (l : list charset)           (* [...] *)
| CNot (a : charset).               (* [^...] *)

Inductive regex : Type :=
| Eps
| One (cs : charset)                           (* one character of cs *)
| Rep (cs : charset) (lo : nat) (hi : option nat) (* cs{lo,hi}, greedy *)
| Seq (r1 r2 : regex)
| Alt (r1 r2 : regex)                          (* r1|r2 *)
| Opt (r : regex)                              (* (?:r)? *)
| Grp (r : regex)                              (* (r), group 1 *)
| WordB.                                       (* \b *)

(** Membership of a character in a class; [ic] is [re.IGNORECASE]. *)
Fixpoint in_charset (ic : bool) (cs : charset) (c : ascii) : bool :=
  match cs with
  | CChar x =>
      Ascii.eqb c x
      || (ic && Ascii.eqb (Str.lower_char c) (Str.lower_char x))
  | CRange lo hi =>
      let inr := Str.between (Str.code lo) (Str.code hi) in
      inr c || (ic && (inr (Str.lower_char c) || inr (Str.upper_char c)))
  | CDigit => Str.is_digit c
  | CSpace => Str.is_space c
  | CWord => Str.is_word c
  | CSet l => existsb (fun a => in_charset ic a c) l
  | CNot a => negb (in_charset ic a c)
  end.

(** Where the matcher stands: characters consumed so far, the character
    just before the position, the rest of the text, and what group 1
    holds. *)
Record mstate : Type := MState {
  pos : nat;
  prev : option ascii;
  rest : list ascii;
  grp : option string
}.

Definition word_at (c : option ascii) : bool :=
  match c with
  | Some x => Str.is_word x
  | None => false
  end.

Definition at_boundary (st : mstate) : bool :=
  xorb (word_at (prev st)) (word_at (hd_error (rest st))).

(** Greedy repetition of a character class: take one more character
    when allowed and possible, give it back when the continuation
    fails. *)
Fixpoint rep (ic : bool) (cs : charset) (lo : nat) (hi : option nat)
  (p : nat) (pv : option ascii) (g : option string) (l : list ascii)
  (k : mstate -> option mstate) : option mstate :=
  let stop := match lo with
              | O => k (MState p pv l g)
              | S _ => None
              end in
  let more := match hi with
              | Some O => false
              | _ => true
              end in
  match l with
  | c :: tl =>
      if in_charset ic cs c && more then
        match rep ic cs (Nat.pred lo) (option_map Nat.pred hi)
                  (S p) (Some c) g tl k with
        | Some st => Some st
        | None => stop
        end
      else stop
  | [] => stop
  end.

Fixpoint run (ic : bool) (r : regex) (st : mstate)
  (k : mstate -> option mstate) : option mstate :=
  match r with
  | Eps => k st
  | One cs =>
      match rest st with
      | c :: tl =>
          if in_charset ic cs c
          then k (MState (S (pos st)) (Some c) tl (grp st))
          else None
      | [] => None
      end
  | Rep cs lo hi => rep ic cs lo hi (pos st) (prev st) (grp st) (rest st) k
  | Seq r1 r2 => run ic r1 st (fun st' => run ic r2 st' k)
  | Alt r1 r2 =>
      match run ic r1 st k with
      | Some st' => Some st'
      | None => run ic r2 st k
      end
  | Opt r1 =>
      match run ic r1 st k with
      | Some st' => Some st'
      | None => k st
      end
  | Grp r1 =>
      run ic r1 st
        (fun st' =>
           k (MState (pos st') (prev st') (rest st')
                (Some (Str.of_chars (firstn (pos st' - pos st) (rest st))))))
  | WordB => if at_boundary st then k st else None
  end.

(** A match: its span, the whole match and group 1. *)
Record rmatch : Type := RMatch {
  m_start : nat;
  m_end : nat;
  group0 : string;
  group1 : option string
}.

Definition match_at (ic : bool) (r : regex) (p : nat) (pv : option ascii)
  (l : list ascii) : option rmatch :=
  match run ic r (MState p pv l None) Some with
  | Some st =>
      Some (RMatch p (pos st) (Str.of_chars (firstn (pos st - p) l)) (grp st))
  | None => None
  end.

(** [re.search]: the first position, from the left, where the pattern
    matches. *)
Fixpoint search_from (ic : bool) (r : regex) (p : nat) (pv : option ascii)
  (l : list ascii) : option rmatch :=
  match match_at ic r p pv l with
  | Some m => Some m
  | None =>
      match l with
      | c :: tl => search_from ic r (S p) (Some c) tl
      | [] => None
      end
  end.

Definition search (ic : bool) (r : regex) (text : string) : option rmatch :=
  search_from ic r 0 None (Str.chars text).

(** [match.group(1)] *)
Definition group (m : rmatch) : string :=
  match group1 m with
  | Some s => s
  | None => EmptyString
  end.

Fixpoint has_group (r : regex) : bool :=
  match r with
  | Grp _ => true
  | Seq a b | Alt a b => has_group a || has_group b
  | Opt a => has_group a
  | _ => false
  end.

(** [re.findall]: the matches from left to right, none overlapping the
    one before; each gives group 1 when the pattern has a group and the
    whole match otherwise.  [skip] counts the characters still covered
    by the last match. *)
Fixpoint findall_from (ic : bool) (r : regex) (p : nat) (pv : option ascii)
  (l : list ascii) (skip : nat) : list string :=
  let item m := if has_group r then group m else group0 m in
  match skip with
  | S n =>
      match l with
      | c :: tl => findall_from ic r (S p) (Some c) tl n
      | [] => []
      end
  | O =>
      match match_at ic r p pv l with
      | Some m =>
          item m ::
          match l with
          | c :: tl => findall_from ic r (S p) (Some c) tl (m_end m - p - 1)
          | [] => []
          end
      | None =>
          match l with
          | c :: tl => findall_from ic r (S p) (Some c) tl 0
          | [] => []
          end
      end
  end.

Definition findall (ic : bool) (r : regex) (text : string) : list string :=
  findall_from ic r 0 None (Str.chars text) 0.

(** Writing patterns. *)
Definition lit (s : string) : regex :=
  fold_right (fun c r => Seq (One (CChar c)) r) Eps (Str.chars s).
Definition cat (l : list regex) : regex := fold_right Seq Eps l.
Definition star (cs : charset) : regex := Rep cs 0 None.
Definition plus (cs : charset) : regex := Rep cs 1 None.
Definition opt_char (c : ascii) : regex := Rep (CChar c) 0 (Some 1%nat).

(** [re.sub(r, repl, text)]: every match, from left to right and none
    overlapping the one before, is replaced by [repl]. *)
Fixpoint sub_from (ic : bool) (r : regex) (repl : list ascii) (p : nat)
  (pv : option ascii) (l : list ascii) (skip : nat) : list ascii :=
  match skip with
  | S n =>
      match l with
      | c :: tl => sub_from ic r repl (S p) (Some c) tl n
      | [] => []
      end
  | O =>
      match match_at ic r p pv l with
      | Some m =>
          repl ++
          match l with
          | c :: tl =>
              (if (m_end m - p =? 0)%nat then [c] else [])
              ++ sub_from ic r repl (S p) (Some c) tl (m_end m - p - 1)
          | [] => []
          end
      | None =>
          match l with
          | c :: tl => c :: sub_from ic r repl (S p) (Some c) tl 0
          | [] => []
          end
      end
  end.

Definition sub (ic : bool) (r : regex) (repl : string) (text : string)
  : string :=
  Str.of_chars (sub_from ic r (Str.chars repl) 0 None (Str.chars text) 0).

(** *** Vocabulary of the statements *)

(** The state after the characters [w] have been read from [st]. *)
Fixpoint read (st : mstate) (w : list ascii) : mstate :=
  match w with
  | [] => st
  | c :: w' => read (MState (S (pos st)) (Some c) (tl (rest st)) (grp st)) w'
  end.

(** What it means for a pattern to match between two states, said
    without continuations. *)
Inductive accepts (ic : bool) : regex -> mstate -> mstate -> Prop :=
| acc_eps st : accepts ic Eps st st
| acc_one cs st c tl :
    rest st = c :: tl -> in_charset ic cs c = true ->
    accepts ic (One cs) st (read st [c])
| acc_rep cs lo hi st w tl :
    rest st = w ++ tl ->
    Forall (fun c => in_charset ic cs c = true) w ->
    (lo <= length w)%nat ->
    match hi with Some h => (length w <= h)%nat | None => True end ->
    accepts ic (Rep cs lo hi) st (read st w)
| acc_seq r1 r2 st mid st' :
    accepts ic r1 st mid -> accepts ic r2 mid st' ->
    accepts ic (Seq r1 r2) st st'
| acc_alt_l r1 r2 st st' : accepts ic r1 st st' -> accepts ic (Alt r1 r2) st st'
| acc_alt_r r1 r2 st st' : accepts ic r2 st st' -> accepts ic (Alt r1 r2) st st'
| acc_opt_some r st st' : accepts ic r st st' -> accepts ic (Opt r) st st'
| acc_opt_none r st : accepts ic (Opt r) st st
| acc_grp r st st' :
    accepts ic r st st' ->
    accepts ic (Grp r) st
      (MState (pos st') (prev st') (rest st')
         (Some (Str.of_chars (firstn (pos st' - pos st) (rest st)))))
| acc_wordb st : at_boundary st = true -> accepts ic WordB st st.

(** The 256 characters. *)
Definition all_ascii : list ascii := map ascii_of_nat (seq 0 256).

(** Whenever [r] matches, group 1 holds a piece of text with the
    property [P]. *)
Definition captures (ic : bool) (r : regex) (P : list ascii -> Prop) : Prop :=
  forall st st',
    accepts ic r st st' ->
    exists w, grp st' = Some (Str.of_chars w) /\ P w.

(** Two characters that are the same but for the case of a letter; a
    list that starts with a word, and one that holds it somewhere, both
    read without regard to case. *)
Definition same_letter (c x : ascii) : bool :=
  Ascii.eqb (Str.lower_char c) (Str.lower_char x).

Fixpoint starts_with (w l : list ascii) : bool :=
  match w, l with
  | [], _ => true
  | c :: w', x :: l' => same_letter c x && starts_with w' l'
  | _ :: _, [] => false
  end.

Fixpoint occurs (w l : list ascii) : bool :=
  starts_with w l
  || match l with
     | _ :: l' => occurs w l'
     | [] => false
     end.

End Re.

(** ** telegram_parser.py *)

Module TelegramSignalParser.

Import Re.

(** What a caller may hand over as signal text: the routes pass on the
    elements of a JSON array unchecked. *)
Inductive pyobj : Type :=
| PyStr (s : string)
| PyNone
| PyNumber (q : Q)
| PyBool (b : bool).

(** Character classes of the rules. *)
Definition AZ : charset := CRange "A" "Z".
Definition colon_space : charset := CSet [CChar ":"; CSpace].    (* [:\s] *)
Definition price_chars : charset :=                              (* [0-9,.] *)
  CSet [CRange "0" "9"; CChar ","; CChar "."].
Definition target_chars : charset :=                             (* [0-9,.\s-] *)
  CSet [CRange "0" "9"; CChar ","; CChar "."; CSpace; CChar "-"].

Definition coin_group : regex := Grp (Rep AZ 3 (Some 6%nat)).
Definition side_group : regex := Grp (Alt (lit "LONG") (lit "SHORT")).
Definition digits_group : regex := Grp (plus CDigit).

(** The two pictographs of the position rules, as UTF-8 bytes. *)
Definition chart_up : string :=
  Str.of_chars (map ascii_of_nat [240; 159; 147; 136]%nat).
Definition chart_down : string :=
  Str.of_chars (map ascii_of_nat [240; 159; 147; 137]%nat).

Definition coin_patterns : list regex :=
  [ cat [lit "#"; coin_group; lit "/USDT"];
    cat [lit "#"; coin_group; lit "USDT"];
    cat [lit "#"; coin_group];
    cat [lit "$"; coin_group];
    cat [coin_group; lit "/USDT"];
    cat [coin_group; lit "USDT"];
    cat [lit "Coin"; star colon_space; coin_group];
    cat [lit "Symbol"; star colon_space; coin_group] ].

Definition position_patterns : list regex :=
  [ cat [Alt (lit "Position") (Alt (lit "Direction") (lit "Type"));
         star colon_space; side_group];
    cat [side_group; Opt (cat [plus CSpace; lit "Position"])];
    cat [lit "#"; side_group];
    cat [lit chart_up; star CSpace; Grp (lit "LONG")];
    cat [lit chart_down; star CSpace; Grp (lit "SHORT")] ].

Definition leverage_patterns : list regex :=
  [ cat [lit "Leverage"; star colon_space; digits_group; opt_char "x"];
    cat [lit "Cross"; star colon_space; digits_group; opt_char "x"];
    cat [digits_group; lit "x"; star CSpace; lit "Cross"];
    cat [digits_group; lit "x"; star CSpace; lit "Leverage"];
    cat [lit "Lev"; star colon_space; digits_group] ].

(** ([0-9,.]+(?:\s*-\s*[0-9,.]+)?) *)
Definition zone_group : regex :=
  Grp (cat [plus price_chars;
            Opt (cat [star CSpace; lit "-"; star CSpace; plus price_chars])]).

Definition entry_patterns : list regex :=
  [ cat [lit "Entry"; star colon_space; zone_group];
    cat [lit "Entry Zone"; star colon_space; zone_group];
    cat [lit "Buy"; star colon_space; zone_group];
    cat [lit "Enter"; star colon_space; zone_group];
    cat [lit "Price"; star colon_space; zone_group] ].

Definition target_patterns : list regex :=
  [ cat [lit "Target"; opt_char "s"; star colon_space; Grp (plus target_chars)];
    cat [lit "TP"; opt_char "s"; star colon_space; Grp (plus target_chars)];
    cat [lit "Take Profit"; opt_char "s"; star colon_space;
         Grp (plus target_chars)];
    cat [lit "Sell"; star colon_space; Grp (plus target_chars)] ].

Definition stoploss_patterns : list regex :=
  [ cat [lit "Stop Loss"; star colon_space; Grp (plus price_chars)];
    cat [lit "SL"; star colon_space; Grp (plus price_chars)];
    cat [lit "Stop"; star colon_space; Grp (plus price_chars)];
    cat [lit "Loss"; star colon_space; Grp (plus price_chars)] ].

(** \d+\.?\d*  and  \b\d+\.?\d*\b *)
Definition number : regex :=
  cat [plus CDigit; opt_char "."; star CDigit].
Definition bounded_number : regex :=
  cat [WordB; plus CDigit; opt_char "."; star CDigit; WordB].

(** [^\w\s#$/.:-]  and  \s+ *)
Definition junk : regex :=
  One (CNot (CSet [CWord; CSpace; CChar "#"; CChar "$"; CChar "/";
                   CChar "."; CChar ":"; CChar "-"])).
Definition blanks : regex := plus CSpace.

(** [re.sub] raises [TypeError] on anything but a string. *)
Definition _clean_text (text : pyobj) : Py.result string :=
  match text with
  | PyStr s =>
      let s1 := sub false junk " " s in
      let s2 := sub false blanks " " s1 in
      Py.Ok (Str.upper (Str.strip s2))
  | _ => Py.Raise "expected string or bytes-like object"
  end.

Fixpoint coin_loop (ps : list regex) (text : string) : option string :=
  match ps with
  | [] => None
  | p :: ps' =>
      match search true p text with
      | Some m =>
          let coin := Str.upper (group m) in
          if (3 <=? String.length coin)%nat && (String.length coin <=? 6)%nat
             && Str.isalpha coin
          then Some coin
          else coin_loop ps' text
      | None => coin_loop ps' text
      end
  end.
Definition _extract_coin (text : string) : option string :=
  coin_loop coin_patterns text.

Fixpoint position_loop (ps : list regex) (text : string) : option string :=
  match ps with
  | [] => None
  | p :: ps' =>
      match search true p text with
      | Some m => Some (Str.upper (group m))
      | None => position_loop ps' text
      end
  end.
Definition _extract_position_type (text : string) : option string :=
  position_loop position_patterns text.

(** [min(max(leverage, 1), 100)] on integers. *)
Definition clamp_leverage (leverage : Z) : Z :=
  Z.min (Z.max leverage 1) 100.

Fixpoint leverage_loop (ps : list regex) (text : string) : Z :=
  match ps with
  | [] => 1%Z
  | p :: ps' =>
      match search true p text with
      | Some m =>
          match Str.int (group m) with
          | Some leverage => clamp_leverage leverage
          | None => leverage_loop ps' text
          end
      | None => leverage_loop ps' text
      end
  end.
Definition _extract_leverage (text : string) : Z :=
  leverage_loop leverage_patterns text.

(** [sorted(list(set(l)))]: the distinct values, ascending. *)
Fixpoint mem (x : Q) (l : list Q) : bool :=
  match l with
  | [] => false
  | y :: tl => Py.eqb x y || mem x tl
  end.
Fixpoint py_set (l : list Q) : list Q :=
  match l with
  | [] => []
  | x :: tl => if mem x tl then py_set tl else x :: py_set tl
  end.
Fixpoint insert (x : Q) (l : list Q) : list Q :=
  match l with
  | [] => [x]
  | y :: tl => if Py.ltb x y then x :: l else y :: insert x tl
  end.
Definition py_sorted (l : list Q) : list Q := fold_right insert [] l.

(** [float(s.strip().replace(',', ''))] *)
Definition price_of (s : string) : option Q :=
  Str.float (Str.remove_char "," (Str.strip s)).

(** What one match of an entry rule adds to [entries]: three points for
    a range, one for a single price, nothing when [float] raises. *)
Definition entry_points (m : string) : list Q :=
  if Str.contains "-" m then
    match Str.split "-" m with
    | [a; b] =>
        match price_of a, price_of b with
        | Some start, Some end_ =>
            let step := (end_ - start) / 2 in
            [start; start + step; end_]
        | _, _ => []
        end
    | _ => []
    end
  else
    match price_of m with
    | Some entry => [entry]
    | None => []
    end.

(** The pool of the rule list, before [set] and [sorted]. *)
Definition entry_pool (text : string) : list Q :=
  flat_map (fun p => flat_map entry_points (findall true p text))
    entry_patterns.

(** The fallback scan over the numbers of the text. *)
Definition plausible (val : Q) : bool :=
  Py.ltb (1 # 1000000) val && Py.ltb val 1000000.
Definition fallback_entries (text : string) : list Q :=
  flat_map (fun num =>
              match Str.float num with
              | Some val => if plausible val then [val] else []
              | None => []
              end)
    (findall false bounded_number text).

Definition _extract_entry_zones (text : string) : list Q :=
  let entries := py_sorted (py_set (entry_pool text)) in
  let entries :=
    match entries with
    | [] => entries ++ fallback_entries text
    | _ => entries
    end in
  firstn 5 entries.

Definition target_numbers (target_text : string) : list Q :=
  flat_map (fun num =>
              match Str.float num with
              | Some target => if Py.ltb 0 target then [target] else []
              | None => []
              end)
    (findall false number target_text).

Definition target_pool (text : string) : list Q :=
  flat_map (fun p =>
              match search true p text with
              | Some m => target_numbers (group m)
              | None => []
              end)
    target_patterns.

Definition _extract_targets (text : string) : list Q :=
  firstn 5 (py_sorted (py_set (target_pool text))).

Fixpoint stop_loop (ps : list regex) (text : string) : option Q :=
  match ps with
  | [] => None
  | p :: ps' =>
      match search true p text with
      | Some m =>
          match Str.float (Str.remove_char "," (group m)) with
          | Some sl => Some sl
          | None => stop_loop ps' text
          end
      | None => stop_loop ps' text
      end
  end.
Definition _extract_stop_loss (text : string) : option Q :=
  stop_loop stoploss_patterns text.

Definition cross_patterns : list regex :=
  [lit "CROSS"; lit "Cross Leverage"; lit "Cross Margin"].
Definition _detect_cross_leverage (text : string) : bool :=
  existsb (fun p => match search true p text with
                    | Some _ => true
                    | None => false
                    end)
    cross_patterns.

(** [not coin] for an [Optional[str]] *)
Definition no_str (s : option string) : bool :=
  match s with
  | None | Some EmptyString => true
  | Some _ => false
  end.

Definition _validate_signal (coin position_type : option string)
  (entry_zones : list Q) : list string :=
  (if no_str coin then ["No coin symbol found"%string] else [])
  ++ (if no_str position_type
      then ["No position type (LONG/SHORT) found"%string] else [])
  ++ (match entry_zones with
      | [] => ["No entry zones found"%string]
      | _ => []
      end).

(** The dictionary of a parse that went through. *)
Record fields : Type := Fields {
  coin : option string;
  pair : string;
  position_type : option string;
  entry_zones : list Q;
  leverage : Z;
  cross_leverage : bool;
  targets : list Q;
  stop_loss : option Q
}.

(** The two dictionaries [parse_signal] returns: the full one, and the
    three-key one of the [except] branch. *)
Inductive signal : Type :=
| Parsed (raw_text : pyobj) (f : fields) (parse_errors : list string)
         (parsed_successfully : bool)
| Failed (raw_text : pyobj) (parse_errors : list string)
         (parsed_successfully : bool).

Definition raw_text (r : signal) : pyobj :=
  match r with
  | Parsed t _ _ _ | Failed t _ _ => t
  end.
Definition parse_errors (r : signal) : list string :=
  match r with
  | Parsed _ _ e _ | Failed _ e _ => e
  end.
Definition parsed_successfully (r : signal) : bool :=
  match r with
  | Parsed _ _ _ b | Failed _ _ b => b
  end.

(** The body of the [try] block. *)
Definition parse_body (text : pyobj) : Py.result signal :=
  cleaned_text <- _clean_text text ;;
  let coin := _extract_coin cleaned_text in
  let position_type := _extract_position_type cleaned_text in
  let leverage := _extract_leverage cleaned_text in
  let entry_zones := _extract_entry_zones cleaned_text in
  let targets := _extract_targets cleaned_text in
  let stop_loss := _extract_stop_loss cleaned_text in
  let cross_leverage := _detect_cross_leverage cleaned_text in
  let errors := _validate_signal coin position_type entry_zones in
  Py.Ok (Parsed text
           (Fields coin "USDT" position_type entry_zones leverage
                   cross_leverage targets stop_loss)
           errors
           (match errors with [] => true | _ => false end)).

Definition parse_signal (text : pyobj) : signal :=
  match parse_body text with
  | Py.Ok result => result
  | Py.Raise e => Failed text [("Parsing failed: " ++ e)%string] false
  end.

Fixpoint batch_loop (signals : list pyobj) (results : list signal)
  : list signal :=
  match signals with
  | [] => results
  | signal_text :: tl => batch_loop tl (results ++ [parse_signal signal_text])
  end.
Definition batch_parse_signals (signals : list pyobj) : list signal :=
  batch_loop signals [].

(** *** Vocabulary of the statements *)

(** A list as the data model wants it: ascending, no value twice, at
    most five values. *)
Definition well_formed (l : list Q) : Prop :=
  StronglySorted Qlt l /\ NoDupA Qeq l /\ (length l <= 5)%nat.

(** No rule gives a token [int] accepts. *)
Definition no_leverage (ps : list regex) (text : string) : Prop :=
  forall p, In p ps ->
    match search true p text with
    | Some m => Str.int (group m) = None
    | None => True
    end.

(** *** [get_parsing_stats] *)

(** A dictionary from error text to count, in insertion order:
    [d.get(key, default)] and [d[key] = value]. *)
Fixpoint dict_get (d : list (string * Z)) (key : string) (default : Z) : Z :=
  match d with
  | [] => default
  | (k, v) :: tl => if String.eqb k key then v else dict_get tl key default
  end.

Fixpoint dict_set (d : list (string * Z)) (key : string) (value : Z)
  : list (string * Z) :=
  match d with
  | [] => [(key, value)]
  | (k, v) :: tl =>
      if String.eqb k key then (k, value) :: tl
      else (k, v) :: dict_set tl key value
  end.

Record parsing_stats : Type := ParsingStats {
  total_signals : Z;
  successful_parses : Z;
  failed_parses : Z;
  success_rate : Q;
  common_errors : list (string * Z)
}.

(** The inner loop: [error_types[error] = error_types.get(error, 0) + 1]
    for each error of one result. *)
Definition count_errors (error_types : list (string * Z))
  (errors : list string) : list (string * Z) :=
  fold_left
    (fun d error => dict_set d error (dict_get d error 0 + 1)) errors
    error_types.

Definition get_parsing_stats (results : list signal) : parsing_stats :=
  let total := Z.of_nat (length results) in
  let successful :=
    Z.of_nat (length (filter parsed_successfully results)) in
  let failed := (total - successful)%Z in
  let error_types :=
    fold_left
      (fun d result =>
         if parsed_successfully result then d
         else count_errors d (parse_errors result))
      results [] in
  ParsingStats total successful failed
    (if (0 <? total)%Z
     then inject_Z successful / inject_Z total * 100
     else 0)
    error_types.

(** *** More vocabulary *)

(** The characters a cleaned text can hold: upper-case letters, digits,
    the underscore, the six kept symbols and the blank. *)
Definition kept (c : ascii) : bool :=
  Str.is_upper c || Str.is_digit c
  || existsb (Ascii.eqb c) ["_"; "#"; "$"; "/"; "."; ":"; "-"; " "]%char.

(** No two white-space characters side by side. *)
Fixpoint sparse (l : list ascii) : bool :=
  match l with
  | [] => true
  | a :: tl =>
      match tl with
      | b :: _ => negb (Str.is_space a && Str.is_space b)
      | [] => true
      end && sparse tl
  end.

Definition blank_at (c : option ascii) : bool :=
  match c with
  | Some x => Str.is_space x
  | None => false
  end.

(** LONG or SHORT, in any case of the letters. *)
Definition side_word (w : list ascii) : Prop :=
  map Str.upper_char w = Str.chars "LONG"
  \/ map Str.upper_char w = Str.chars "SHORT".

(** A text as [_clean_text] leaves it. *)
Definition normal (l : list ascii) : bool :=
  forallb kept l && sparse l
  && negb (blank_at (hd_error l)) && negb (blank_at (hd_error (rev l))).

(** Runs of white space squeezed to one blank each; [in_run] says that
    the character before was white space. *)
Fixpoint squeeze (in_run : bool) (l : list ascii) : list ascii :=
  match l with
  | [] => []
  | c :: tl =>
      if Str.is_space c
      then (if in_run then [] else [" "%char]) ++ squeeze true tl
      else c :: squeeze false tl
  end.

(** What [_clean_text] does to the characters of a text: junk becomes a
    blank, runs of white space are squeezed, the ends are stripped, the
    letters are raised. *)
Definition scrub (c : ascii) : ascii :=
  if Re.in_charset false
       (CNot (CSet [CWord; CSpace; CChar "#"; CChar "$"; CChar "/";
                    CChar "."; CChar ":"; CChar "-"])) c
  then " "%char else c.

Definition clean_list (l : list ascii) : list ascii :=
  map Str.upper_char (Str.strip_chars (squeeze false (map scrub l))).

(** The length of the run of white space a list starts with. *)
Fixpoint run_length (l : list ascii) : nat :=
  match l with
  | c :: tl => if Str.is_space c then S (run_length tl) else O
  | [] => O
  end.

End TelegramSignalParser.

(** ** The settings dictionary *)

Record settings : Type := Settings {
  default_position_size : option Q;
  risk_percentage : option Q;
  entry_distribution : option (list Q);
  target_distribution : option (list Q);
  default_leverage : option Z
}.

(** [d.get(key, default)] *)
Definition get {A : Type} (field : option A) (default : A) : A :=
  match field with
  | Some v => v
  | None => default
  end.

(** [position_type == 'LONG'] and the like; [None] equals no string. *)
Definition is_side (name : string) (position_type : option string) : bool :=
  match position_type with
  | Some s => String.eqb s name
  | None => false
  end.

(** ** backtest_engine.py *)

Module BacktestEngine.

Import TelegramSignalParser.

(** A row of the price history; the index of the frame is the
    timestamp. *)
Record candle : Type := Candle {
  timestamp : Z;
  open : Q;
  high : Q;
  low : Q;
  close : Q;
  volume : Q
}.

Inductive exit_reason : Type :=
| stop_loss_hit      (* 'stop_loss' *)
| target_hit         (* 'target' *)
| timeout.           (* 'timeout' *)

Fixpoint zone_loop (row : candle) (entry_zones : list Q) : option Q :=
  match entry_zones with
  | [] => None
  | entry_price :: tl =>
      if Py.leb (low row) entry_price && Py.leb entry_price (high row)
      then Some entry_price
      else zone_loop row tl
  end.

Fixpoint _find_entry_point (data : list candle) (entry_zones : list Q)
  (position_type : option string) : option (Q * Z) :=
  match data with
  | [] => None
  | row :: tl =>
      match zone_loop row entry_zones with
      | Some entry_price => Some (entry_price, timestamp row)
      | None => _find_entry_point tl entry_zones position_type
      end
  end.

(** The stop test on one row; [if stop_loss:] lets neither [None] nor
    [0.0] through. *)
Definition stop_check (row : candle) (stop_loss : option Q)
  (position_type : option string) : option Q :=
  match stop_loss with
  | Some stop =>
      if Py.falsy stop_loss then None
      else if is_side "LONG" position_type && Py.leb (low row) stop
      then Some stop
      else if is_side "SHORT" position_type && Py.leb stop (high row)
      then Some stop
      else None
  | None => None
  end.

Fixpoint target_loop (row : candle) (targets : list Q)
  (position_type : option string) : option Q :=
  match targets with
  | [] => None
  | target :: tl =>
      if is_side "LONG" position_type && Py.leb target (high row)
      then Some target
      else if is_side "SHORT" position_type && Py.leb (low row) target
      then Some target
      else target_loop row tl position_type
  end.

Fixpoint exit_loop (exit_data : list candle) (targets : list Q)
  (stop_loss : option Q) (position_type : option string)
  : option (Q * Z * exit_reason) :=
  match exit_data with
  | [] => None
  | row :: tl =>
      match stop_check row stop_loss position_type with
      | Some stop => Some (stop, timestamp row, stop_loss_hit)
      | None =>
          match target_loop row targets position_type with
          | Some target => Some (target, timestamp row, target_hit)
          | None => exit_loop tl targets stop_loss position_type
          end
      end
  end.

(** [data[data.index > entry_time]] *)
Definition after (entry_time : Z) (data : list candle) : list candle :=
  filter (fun row => (entry_time <? timestamp row)%Z) data.

Definition _find_exit_point (data : list candle) (entry_time : Z)
  (targets : list Q) (stop_loss : option Q) (position_type : option string)
  : option (Q * Z * exit_reason) :=
  match after entry_time data with
  | [] => None
  | first_row :: more =>
      let exit_data := first_row :: more in
      match exit_loop exit_data targets stop_loss position_type with
      | Some found => Some found
      | None =>
          let last_row := last exit_data first_row in
          Some (close last_row, timestamp last_row, timeout)
      end
  end.

(** The guard of both sizing functions:
    [not stop_loss or not entry_price or stop_loss <= 0 or entry_price <= 0]
    gives [None]; otherwise the two prices. *)
Definition usable_prices (entry_price stop_loss : option Q) : option (Q * Q) :=
  match stop_loss, entry_price with
  | Some stop, Some entry =>
      if Py.falsy stop_loss || Py.falsy entry_price
         || Py.leb stop 0 || Py.leb entry 0
      then None
      else Some (entry, stop)
  | _, _ => None
  end.

Definition _calculate_position_size (balance default_size risk_percentage : Q)
  (entry_price stop_loss : option Q) : Q :=
  match usable_prices entry_price stop_loss with
  | None => Py.min default_size (balance * (1 # 10))
  | Some (entry, stop) =>
      let risk_per_unit := Qabs (entry - stop) / entry in
      if Py.ltb 0 risk_per_unit then
        let risk_amount := balance * (risk_percentage / 100) in
        let max_size := risk_amount / risk_per_unit in
        Py.min max_size (balance * (2 # 10))
      else Py.min default_size (balance * (1 # 10))
  end.

(** The dictionary of a simulated trade. *)
Record trade : Type := Trade {
  t_coin : string;
  t_symbol : string;
  t_position_type : option string;
  entry_price : Q;
  exit_price : Q;
  entry_time : Z;
  exit_time : Z;
  position_size : Q;
  t_leverage : Z;
  pnl : Q;
  pnl_percentage : Q;
  t_exit_reason : exit_reason;
  duration_hours : Q
}.

Record equity_point : Type := EquityPoint {
  e_timestamp : Z;
  e_balance : Q;
  trade_pnl : Q
}.

(** The metrics dictionary; the last four keys are missing from the
    two short forms (no trade, or the [except] branch). *)
Record metrics : Type := Metrics {
  m_max_drawdown : Q;
  m_sharpe_ratio : Q;
  average_trade : Q;
  profit_factor : Q;
  gross : option (Q * Q);          (* gross_profit, gross_loss *)
  largest : option (Q * Q)         (* largest_win, largest_loss *)
}.

Definition no_metrics : metrics := Metrics 0 0 0 0 None None.

Fixpoint drawdown_loop (values : list Q) (peak max_drawdown : Q)
  : Py.result Q :=
  match values with
  | [] => Py.Ok max_drawdown
  | value :: tl =>
      let peak := if Py.ltb peak value then value else peak in
      q <- Py.div (peak - value) peak ;;
      let drawdown := q * 100 in
      drawdown_loop tl peak (Py.max max_drawdown drawdown)
  end.

(** [returns]: called on [equity_values[0]] and the values after it. *)
Fixpoint returns_loop (previous : Q) (values : list Q) : Py.result (list Q) :=
  match values with
  | [] => Py.Ok []
  | value :: tl =>
      ret <- Py.div (value - previous) previous ;;
      more <- returns_loop value tl ;;
      Py.Ok (ret :: more)
  end.

(** The three functions of numpy the engine calls.  The array library
    computes them in binary floating point, with its own order of
    summation and its own rounding: a mean or a deviation is what the
    library returns, not the quotient or the root of the exact numbers,
    so the metrics are defined for any functions in their place. *)
Record numpy : Type := Numpy {
  np_mean : list Q -> Q;
  np_std : list Q -> Q;
  np_sqrt : Q -> Q
}.

(** [x for x in l if x > 0] and [x for x in l if x <= 0] *)
Definition positive (l : list Q) : list Q := filter (fun x => Py.ltb 0 x) l.
Definition non_positive (l : list Q) : list Q := filter (fun x => Py.leb x 0) l.

Section Metrics.

Variable np : numpy.

(** [if returns and np.std(returns) > 0] *)
Definition sharpe (returns : list Q) : Q :=
  match returns with
  | [] => 0
  | _ =>
      if Py.ltb 0 (np_std np returns) then
        let avg_return := np_mean np returns in
        avg_return / np_std np returns * np_sqrt np 252
      else 0
  end.

(** The body of the [try] block, after the test for no trade. *)
Definition metrics_body (trade_history : list trade) (initial_balance : Q)
  (equity_curve : list equity_point) : Py.result metrics :=
  let balances := map e_balance equity_curve in
  let equity_values := initial_balance :: balances in
  max_drawdown <- drawdown_loop equity_values initial_balance 0 ;;
  returns <- returns_loop initial_balance balances ;;
  let sharpe_ratio := sharpe returns in
  let trade_pnls := map pnl trade_history in
  let winning_trades := positive trade_pnls in
  let losing_trades := non_positive trade_pnls in
  let average_trade := np_mean np trade_pnls in
  let gross_profit :=
    match winning_trades with [] => 0 | _ => Py.sum winning_trades end in
  let gross_loss :=
    match losing_trades with
    | [] => 0
    | _ => Qabs (Py.sum losing_trades)
    end in
  let profit_factor :=
    if Py.ltb 0 gross_loss then gross_profit / gross_loss else 0 in
  Py.Ok (Metrics max_drawdown sharpe_ratio average_trade profit_factor
           (Some (gross_profit, gross_loss))
           (Some (match winning_trades with
                  | [] => 0
                  | x :: l => Py.max_list x l
                  end,
                  match losing_trades with
                  | [] => 0
                  | x :: l => Py.min_list x l
                  end))).

Definition _calculate_metrics (trade_history : list trade)
  (initial_balance final_balance : Q) (equity_curve : list equity_point)
  : metrics :=
  match trade_history with
  | [] => no_metrics
  | _ =>
      match metrics_body trade_history initial_balance equity_curve with
      | Py.Ok m => m
      | Py.Raise _ => no_metrics
      end
  end.

End Metrics.

(** The report dictionary of [run_backtest]. *)
Record report : Type := Report {
  initial_balance : Q;
  final_balance : Q;
  total_pnl : Q;
  total_pnl_percentage : Q;
  total_trades : nat;
  winning_trades : nat;
  losing_trades : nat;
  win_rate : Q;
  max_drawdown : Q;
  sharpe_ratio : Q;
  trade_history : list trade;
  equity_curve : list equity_point;
  r_metrics : metrics
}.

(** [sum(1 for t in trade_history if ...)] *)
Definition count (f : trade -> bool) (l : list trade) : nat :=
  length (filter f l).

(** [signal.get('coin')] and [signal.get('entry_zones')] are both
    truthy. *)
Definition has_coin_and_entries (s : signal) : bool :=
  match s with
  | Parsed _ f _ _ =>
      negb (no_str (coin f))
      && match entry_zones f with [] => false | _ => true end
  | Failed _ _ _ => false
  end.

Section Run.

Variable np : numpy.

(** [_simulate_trade] reads the price history over the network and
    catches every exception of its own; the loop is defined for any
    behaviour of it.  [world] is whatever the outside world is in. *)
Variable world : Type.
Variable _simulate_trade :
  world -> signal -> settings -> Q -> world * option trade.

Fixpoint signal_loop (w : world) (signals : list signal) (st : settings)
  (balance : Q) (trade_history : list trade)
  (equity_curve : list equity_point)
  : Q * list trade * list equity_point :=
  match signals with
  | [] => (balance, trade_history, equity_curve)
  | s :: tl =>
      if has_coin_and_entries s then
        let (w', trade_result) := _simulate_trade w s st balance in
        match trade_result with
        | Some t =>
            let balance := balance + pnl t in
            signal_loop w' tl st balance (trade_history ++ [t])
              (equity_curve ++ [EquityPoint (exit_time t) balance (pnl t)])
        | None => signal_loop w' tl st balance trade_history equity_curve
        end
      else signal_loop w tl st balance trade_history equity_curve
  end.

(** The trades a run completes: the outcomes of the simulations of
    the signals with a coin and entry zones, in the order of the
    signals, each simulated on the balance the trades before it left. *)
Fixpoint completed (w : world) (signals : list signal) (st : settings)
  (balance : Q) : list trade :=
  match signals with
  | [] => []
  | s :: tl =>
      if has_coin_and_entries s then
        match _simulate_trade w s st balance with
        | (w', Some t) => t :: completed w' tl st (balance + pnl t)
        | (w', None) => completed w' tl st balance
        end
      else completed w tl st balance
  end.

(** The report built after the loop. *)
Definition make_report (initial_balance balance : Q)
  (trade_history : list trade) (equity_curve : list equity_point)
  : Py.result report :=
  let metrics :=
    _calculate_metrics np trade_history initial_balance balance
      equity_curve in
  q <- Py.div (balance - initial_balance) initial_balance ;;
  let wins := count (fun t => Py.ltb 0 (pnl t)) trade_history in
  let losses := count (fun t => Py.leb (pnl t) 0) trade_history in
  Py.Ok (Report initial_balance balance (balance - initial_balance)
           (q * 100)
           (length trade_history) wins losses
           (match trade_history with
            | [] => 0
            | _ => inject_Z (Z.of_nat wins) / Py.len trade_history * 100
            end)
           (m_max_drawdown metrics) (m_sharpe_ratio metrics)
           trade_history equity_curve metrics).

Definition run_backtest (w : world) (signals : list signal)
  (st : settings) (initial_balance : Q) : Py.result report :=
  let '(balance, trade_history, equity_curve) :=
    signal_loop w signals st initial_balance [] [] in
  make_report initial_balance balance trade_history equity_curve.

End Run.

(** *** Vocabulary of the statements *)

(** A price that is missing or not positive. *)
Definition missing_or_non_positive (x : option Q) : Prop :=
  match x with
  | None => True
  | Some v => v <= 0
  end.

Definition long (position_type : option string) : Prop :=
  position_type = Some "LONG"%string.
Definition short (position_type : option string) : Prop :=
  position_type = Some "SHORT"%string.

(** The stop condition on a row, for a stop that is set: present and
    not 0. *)
Definition stop_reached (position_type : option string) (stop_loss : option Q)
  (row : candle) : Prop :=
  exists stop,
    stop_loss = Some stop /\ ~ stop == 0
    /\ ((long position_type /\ low row <= stop)
        \/ (short position_type /\ stop <= high row)).

(** The target condition on a row. *)
Definition target_reached (position_type : option string) (row : candle)
  (target : Q) : Prop :=
  (long position_type /\ target <= high row)
  \/ (short position_type /\ low row <= target).

(** The drawdown of a value under a peak, and the drawdowns of the
    points of an equity series under the running peak, which only
    moves up. *)
Definition drawdown_at (peak value : Q) : Q := (peak - value) / peak * 100.

Fixpoint drawdowns (peak : Q) (values : list Q) : list Q :=
  match values with
  | [] => []
  | value :: tl =>
      let peak := Py.max peak value in
      drawdown_at peak value :: drawdowns peak tl
  end.

(** A row on which no condition holds. *)
Definition quiet (position_type : option string) (targets : list Q)
  (stop_loss : option Q) (row : candle) : Prop :=
  ~ stop_reached position_type stop_loss row
  /\ Forall (fun target => ~ target_reached position_type row target) targets.

(** *** [_simulate_trade] *)

(** [f"{coin}{pair}"]; a missing coin prints as None. *)
Definition coin_text (f : fields) : string :=
  match coin f with
  | Some c => c
  | None => "None"
  end.
Definition pair_symbol (f : fields) : string :=
  (coin_text f ++ pair f)%string.

Section Simulate.

(** [_get_historical_data] asks the price service: nothing, or a frame
    of candles.  [not historical_data] then asks the frame for its
    truth value, which is the frame library's to give: [frame_is_falsy]
    stands for it. *)
Variable world : Type.
Variable _get_historical_data : world -> string -> world * option (list candle).
Variable frame_is_falsy : list candle -> Py.result bool.

(** The body of the [try] block.  The price change is divided by the
    entry price and the profit by the position size as Python floats
    are, raising on 0; a profit computed from a closing price of the
    frame is a scalar of the array library, whose division by 0 gives
    no number: that case is outside the model. *)
Definition simulate_body (w : world) (s : signal) (st : settings)
  (balance : Q) : world * Py.result (option trade) :=
  match s with
  | Failed _ _ _ => (w, Py.Raise "'coin'")
  | Parsed _ f _ _ =>
      let symbol := pair_symbol f in
      match entry_zones f with
      | [] => (w, Py.Ok None)
      | first_zone :: _ =>
          let (w', historical_data) := _get_historical_data w symbol in
          match historical_data with
          | None => (w', Py.Ok None)
          | Some data =>
              (w',
               falsy <- frame_is_falsy data ;;
               if falsy then Py.Ok None
               else
                 let position_size :=
                   _calculate_position_size balance
                     (get (default_position_size st) 10)
                     (get (risk_percentage st) 2)
                     (Some first_zone) (stop_loss f) in
                 match _find_entry_point data (entry_zones f)
                         (position_type f) with
                 | None => Py.Ok None
                 | Some (entry_price, entry_time) =>
                     if Py.eqb entry_price 0 then Py.Ok None
                     else
                       match _find_exit_point data entry_time (targets f)
                               (stop_loss f) (position_type f) with
                       | None => Py.Ok None
                       | Some (exit_price, exit_time, exit_reason) =>
                           if Py.eqb exit_price 0 then Py.Ok None
                           else
                             change <-
                               Py.div
                                 (if is_side "LONG" (position_type f)
                                  then exit_price - entry_price
                                  else entry_price - exit_price)
                                 entry_price ;;
                             let pnl := change * position_size in
                             let pnl := pnl * inject_Z (leverage f) in
                             percentage <- Py.div pnl position_size ;;
                             Py.Ok
                               (Some
                                  (Trade (coin_text f) symbol (position_type f)
                                     entry_price exit_price entry_time
                                     exit_time position_size (leverage f) pnl
                                     (percentage * 100) exit_reason
                                     (inject_Z (exit_time - entry_time)
                                      / 3600)))
                       end
                 end)
          end
      end
  end.

Definition _simulate_trade (w : world) (s : signal) (st : settings)
  (balance : Q) : world * option trade :=
  match simulate_body w s st balance with
  | (w', Py.Ok result) => (w', result)
  | (w', Py.Raise _) => (w', None)
  end.

End Simulate.

(** *** More vocabulary *)

(** The equity points of a list of trades, starting from [balance]:
    each holds the balance after its trade. *)
Fixpoint equity_after (balance : Q) (trades : list trade)
  : list equity_point :=
  match trades with
  | [] => []
  | t :: tl =>
      EquityPoint (exit_time t) (balance + pnl t) (pnl t)
      :: equity_after (balance + pnl t) tl
  end.

(** The balance after a list of trades. *)
Definition balance_after (balance : Q) (trades : list trade) : Q :=
  fold_left (fun b t => b + pnl t) trades balance.

(** A candle whose range holds one of the prices. *)
Definition touches (row : candle) (zones : list Q) : Prop :=
  exists zone, In zone zones /\ low row <= zone /\ zone <= high row.

(** Where an exit of the loop comes from. *)
Definition exit_source (data : list candle) (targets : list Q)
  (stop_loss : option Q) (exit_price : Q) (reason : exit_reason) : Prop :=
  match reason with
  | stop_loss_hit => stop_loss = Some exit_price
  | target_hit => In exit_price targets
  | timeout => exists row, In row data /\ close row = exit_price
  end.

(** The price move of a trade in the direction of its position. *)
Definition move (position_type : option string) (entry exit_ : Q) : Q :=
  if is_side "LONG" position_type then exit_ - entry else entry - exit_.

End BacktestEngine.

(** ** The arithmetic of the code on binary64 floats

    The computations of the parser and of the metrics whose outcome
    rounding decides, on the floats Python computes with. *)

Module F64.

Import PrimFloat.
Local Open Scope float_scope.

Definition of_nat (n : nat) : float :=
  of_uint63 (Uint63.of_Z (Z.of_nat n)).

(** [_extract_entry_zones]: the three points a range adds,
    [[start, start + step, end]] with [step = (end - start) / 2]. *)
Definition range_points (start end_ : float) : list float :=
  let step := (end_ - start) / 2 in
  [start; start + step; end_].

(** [_calculate_metrics]: the returns of the equity values; a
    division by 0 raises. *)
Fixpoint returns_loop (previous : float) (values : list float)
  : option (list float) :=
  match values with
  | [] => Some []
  | value :: tl =>
      if eqb previous 0 then None
      else
        match returns_loop value tl with
        | Some more => Some ((value - previous) / previous :: more)
        | None => None
        end
  end.

(** [np.mean] and [np.std] of a list of fewer than eight floats, which
    numpy adds up one after the other: the deviation is the square root
    of the mean of the squared differences from the mean. *)
Definition np_sum (l : list float) : float := fold_left add l 0.
Definition np_mean (l : list float) : float := np_sum l / of_nat (length l).
Definition np_std (l : list float) : float :=
  let arrmean := np_mean l in
  sqrt (np_mean (map (fun x => (x - arrmean) * (x - arrmean)) l)).

(** The Sharpe ratio of [_calculate_metrics]. *)
Definition sharpe (returns : list float) : float :=
  match returns with
  | [] => 0
  | _ =>
      if ltb 0 (np_std returns) then
        let avg_return := np_mean returns in
        avg_return / np_std returns * sqrt 252
      else 0
  end.

End F64.

(** ** bitunix_api.py: BitunixTradeManager *)

Module BitunixTradeManager.

Import TelegramSignalParser.

(** The arguments of one [place_order] call. *)
Record order_request : Type := OrderRequest {
  o_symbol : string;
  side : string;
  order_type : string;
  size : Q;
  price : Q;
  reduce_only : bool
}.

Definition _calculate_position_size (base_size risk_percentage : Q)
  (entry_price stop_loss : option Q) : Q :=
  match BacktestEngine.usable_prices entry_price stop_loss with
  | None => base_size
  | Some (entry, stop) =>
      let risk_per_unit := Qabs (entry - stop) / entry in
      if Py.ltb 0 risk_per_unit then
        let max_size := (risk_percentage / 100) / risk_per_unit * base_size in
        Py.min max_size (base_size * 5)
      else base_size
  end.

(** The requests of a ladder: step [i] pairs [prices[i]] with
    [distribution[i]], for [i] below the shorter length. *)
Definition ladder (symbol side_ : string) (prices distribution : list Q)
  (total_size : Q) (reduce : bool) : list order_request :=
  map (fun '(step_price, share) =>
         let size_percentage := share / 100 in
         let order_size := total_size * size_percentage in
         OrderRequest symbol side_ "limit" order_size step_price reduce)
    (combine prices distribution).

Definition entry_side (position_type : option string) : string :=
  if is_side "LONG" position_type then "buy" else "sell".
Definition exit_side (position_type : option string) : string :=
  if is_side "LONG" position_type then "sell" else "buy".

Section Gateway.

(** The exchange: [api] is its state, [response] the dictionary an
    accepted call returns; a call may raise instead. *)
Variable api : Type.
Variable response : Type.
Variable set_leverage :
  api -> string -> Z -> string -> api * Py.result response.
Variable place_order : api -> order_request -> api * Py.result response.

(** The loop of [_place_entry_orders] and [_place_target_orders]:
    each call sits in its own [try]; a response is appended, an
    exception is logged and dropped. *)
Fixpoint place_loop (a : api) (requests : list order_request)
  (orders : list response) : api * list response :=
  match requests with
  | [] => (a, orders)
  | rq :: tl =>
      match place_order a rq with
      | (a', Py.Ok order) => place_loop a' tl (orders ++ [order])
      | (a', Py.Raise _) => place_loop a' tl orders
      end
  end.

Definition _place_entry_orders (a : api) (symbol : string)
  (position_type : option string) (entry_zones : list Q) (total_size : Q)
  (st : settings) : api * list response :=
  match entry_zones with
  | [] => (a, [])
  | _ =>
      let side_ := entry_side position_type in
      let entry_distribution := get (entry_distribution st) [40; 35; 25] in
      place_loop a
        (ladder symbol side_ entry_zones entry_distribution total_size false)
        []
  end.

Definition _place_target_orders (a : api) (symbol : string)
  (position_type : option string) (targets : list Q) (total_size : Q)
  (st : settings) : api * list response :=
  match targets with
  | [] => (a, [])
  | _ =>
      let side_ := exit_side position_type in
      let target_distribution := get (target_distribution st) [50; 30; 20] in
      place_loop a
        (ladder symbol side_ targets target_distribution total_size true)
        []
  end.

Definition stop_request (symbol : string) (position_type : option string)
  (stop : Q) (total_size : Q) : order_request :=
  OrderRequest symbol (exit_side position_type) "stop_market" total_size
    stop true.

Definition _place_stop_loss_order (a : api) (symbol : string)
  (position_type : option string) (stop_loss : option Q) (total_size : Q)
  : api * option response :=
  match stop_loss with
  | Some stop =>
      if Py.falsy stop_loss then (a, None)
      else
        match place_order a (stop_request symbol position_type stop total_size) with
        | (a', Py.Ok order) => (a', Some order)
        | (a', Py.Raise _) => (a', None)
        end
  | None => (a, None)
  end.

(** The two dictionaries [execute_signal] returns. *)
Inductive execution_result : Type :=
| Executed (symbol : string) (position_type : option string)
           (position_size : Q) (leverage : Z)
           (entry_orders target_orders : list response)
           (stop_order : option response)
| NotExecuted (error : string).

Definition success (r : execution_result) : bool :=
  match r with
  | Executed _ _ _ _ _ _ _ => true
  | NotExecuted _ => false
  end.

(** [f"{coin}{pair}"] *)
Definition symbol_of (f : fields) : string :=
  (match coin f with Some c => c | None => "None" end ++ pair f)%string.

Definition first_entry (entry_zones : list Q) : option Q :=
  match entry_zones with
  | e :: _ => Some e
  | [] => Some 0
  end.

Definition sized (f : fields) (st : settings) : Q :=
  _calculate_position_size
    (get (default_position_size st) 10)
    (get (risk_percentage st) 2)
    (first_entry (entry_zones f))
    (stop_loss f).

Definition margin_mode (f : fields) : string :=
  if cross_leverage f then "cross" else "isolated".

(** The body of the [try] block: the gateway after the calls, and the
    result or the exception. *)
Definition execute_body (a : api) (signal_data : signal) (st : settings)
  : api * Py.result execution_result :=
  match signal_data with
  | Failed _ _ _ => (a, Py.Raise "'coin'")
  | Parsed _ f _ _ =>
      let symbol := symbol_of f in
      match set_leverage a symbol (leverage f) (margin_mode f) with
      | (a1, Py.Raise e) => (a1, Py.Raise e)
      | (a1, Py.Ok _) =>
          let position_size := sized f st in
          let (a2, entry_orders) :=
            _place_entry_orders a1 symbol (position_type f) (entry_zones f)
              position_size st in
          let (a3, target_orders) :=
            _place_target_orders a2 symbol (position_type f) (targets f)
              position_size st in
          let (a4, stop_order) :=
            _place_stop_loss_order a3 symbol (position_type f) (stop_loss f)
              position_size in
          (a4, Py.Ok (Executed symbol (position_type f) position_size
                        (leverage f) entry_orders target_orders stop_order))
      end
  end.

Definition execute_signal (a : api) (signal_data : signal) (st : settings)
  : api * execution_result :=
  match execute_body a signal_data st with
  | (a', Py.Ok r) => (a', r)
  | (a', Py.Raise e) => (a', NotExecuted e)
  end.

(** *** Vocabulary of the statements *)

(** Sending requests one after the other, whatever each call returns:
    the exchange afterwards, and the responses of the accepted calls. *)
Definition send_all (a : api) (requests : list order_request) : api :=
  fold_left (fun a' rq => fst (place_order a' rq)) requests a.

Fixpoint accepted (a : api) (requests : list order_request) : list response :=
  match requests with
  | [] => []
  | rq :: tl =>
      match place_order a rq with
      | (a', Py.Ok order) => order :: accepted a' tl
      | (a', Py.Raise _) => accepted a' tl
      end
  end.

(** The three ladders of a signal. *)
Definition entry_requests (f : fields) (st : settings) : list order_request :=
  ladder (symbol_of f) (entry_side (position_type f)) (entry_zones f)
    (get (entry_distribution st) [40; 35; 25]) (sized f st) false.

Definition target_requests (f : fields) (st : settings) : list order_request :=
  ladder (symbol_of f) (exit_side (position_type f)) (targets f)
    (get (target_distribution st) [50; 30; 20]) (sized f st) true.

Definition stop_requests (f : fields) (st : settings) : list order_request :=
  match stop_loss f with
  | Some stop =>
      if Py.falsy (stop_loss f) then []
      else [stop_request (symbol_of f) (position_type f) stop (sized f st)]
  | None => []
  end.

End Gateway.

(** *** [BitunixAPI.place_order]: the body sent to the exchange *)

(** A value of the request body; [JText q] is [str(q)] of a number. *)
Inductive body_value : Type :=
| JString (s : string)
| JText (q : Q)
| JBool (b : bool).

Fixpoint lookup (key : string) (body : list (string * body_value))
  : option body_value :=
  match body with
  | [] => None
  | (k, v) :: tl => if String.eqb k key then Some v else lookup key tl
  end.

(** The dictionary [data] of [place_order], keys in the order they are
    written. *)
Definition place_order_data (symbol side_ order_type_ : string) (size_ : Q)
  (price_ : option Q) (leverage : option Z) (reduce_only_ : bool)
  (time_in_force : string) : list (string * body_value) :=
  [("symbol"%string, JString symbol); ("side"%string, JString side_);
   ("type"%string, JString order_type_); ("size"%string, JText size_);
   ("timeInForce"%string, JString time_in_force);
   ("reduceOnly"%string, JBool reduce_only_)]
  ++ (match price_ with
      | Some p =>
          if negb (Py.falsy price_) && String.eqb order_type_ "limit"
          then [("price"%string, JText p)] else []
      | None => []
      end)
  ++ (match leverage with
      | Some l =>
          if (l =? 0)%Z then [] else [("leverage"%string, JText (inject_Z l))]
      | None => []
      end).

(** The body for a request of the trade manager, which passes symbol,
    side, type, size, price and, for targets and stop, [reduce_only]. *)
Definition request_data (rq : order_request) : list (string * body_value) :=
  place_order_data (o_symbol rq) (side rq) (order_type rq) (size rq)
    (Some (price rq)) None (reduce_only rq) "GTC".

(** *** The route that executes a signal (trade_routes.py) *)

(** What the route answers: the trade row it stores with status 200,
    a refusal with status 400, or status 500 after an exception, when
    nothing is stored. *)
Record trade_row : Type := TradeRow {
  row_size : Q;
  row_leverage : Z;
  row_entry_orders : list (option string);
  row_target_orders : list (option string);
  row_stop_loss_order_id : option string
}.

Inductive answer : Type :=
| Stored (row : trade_row)
| Refused (error : string)
| Crashed (error : string).

Section Route.

Variable api : Type.
Variable response : Type.
Variable set_leverage : api -> string -> Z -> string -> api * Py.result response.
Variable place_order : api -> order_request -> api * Py.result response.

(** [order.get('orderId')] *)
Variable order_id : response -> option string.

(** The arguments of the [BitunixTrade] row, evaluated before anything
    is stored; [execution_result.get('stop_order', {})] is [None] when
    the key holds [None], and [None.get] raises. *)
Definition trade_row_of (position_size : Q) (leverage : Z)
  (entry_orders target_orders : list response) (stop_order : option response)
  : Py.result trade_row :=
  match stop_order with
  | Some order =>
      Py.Ok (TradeRow position_size leverage
               (map order_id entry_orders) (map order_id target_orders)
               (order_id order))
  | None => Py.Raise "'NoneType' object has no attribute 'get'"
  end.

Definition execute_route (a : api) (signal_data : signal)
  (st : option settings) (existing_trade : bool) : api * answer :=
  match st with
  | None => (a, Refused "Trading settings not configured")
  | Some settings_ =>
      if existing_trade then (a, Refused "Signal already executed")
      else
        let (a', r) :=
          execute_signal api response set_leverage place_order a signal_data
            settings_ in
        match r with
        | Executed _ _ _ position_size leverage entry_orders target_orders
            stop_order =>
            match trade_row_of position_size leverage entry_orders
                    target_orders stop_order with
            | Py.Ok row => (a', Stored row)
            | Py.Raise e => (a', Crashed e)
            end
        | NotExecuted _ error => (a', Refused error)
        end
  end.

End Route.

End BitunixTradeManager.

(** ** Stand-ins for the outside world, for concrete runs *)

Module Scenario.

Import TelegramSignalParser BacktestEngine BitunixTradeManager.

(** A square root to six decimals, in the place of [np.sqrt]. *)
Definition sqrt6 (x : Q) : Q :=
  inject_Z (Z.sqrt (Qnum x * Zpos (Qden x) * 10 ^ 12))
  / inject_Z (Zpos (Qden x) * 10 ^ 6).

(** An array library for the concrete runs: the exact mean, and the
    root, to six decimals, of the exact mean squared deviation. *)
Definition mean (l : list Q) : Q := Py.sum l / Py.len l.
Definition std6 (l : list Q) : Q :=
  let m := mean l in
  sqrt6 (mean (map (fun x => Qabs (x - m) * Qabs (x - m)) l)).
Definition numpy6 : numpy := Numpy mean std6 sqrt6.

(** A scripted history: each call of [_simulate_trade] takes the next
    outcome of the script. *)
Definition scripted (w : list (option trade)) (s : signal) (st : settings)
  (balance : Q) : list (option trade) * option trade :=
  match w with
  | outcome :: tl => (tl, outcome)
  | [] => ([], None)
  end.

(** A trade of the back-test with the given profit or loss. *)
Definition trade_with (profit : Q) (at_time : Z) : trade :=
  Trade "BTC" "BTCUSDT" (Some "LONG"%string) 100 (100 + profit) 0 at_time
    100 1 profit profit target_hit (inject_Z at_time / 3600).

Definition scenario_a : pyobj :=
  PyStr "#BTC/USDT LONG Entry: 45000-46000 Leverage: 5x Targets: 47000, 48000, 49000 Stop Loss: 44000".

Definition no_settings : settings := Settings None None None None None.

(** An exchange that records every request and refuses every order;
    [set_leverage] is accepted. *)
Definition refusing_place (log : list order_request) (rq : order_request)
  : list order_request * Py.result nat :=
  (log ++ [rq], Py.Raise "API request failed: 400 - rejected").
Definition accepting_leverage (log : list order_request) (symbol : string)
  (leverage : Z) (mode : string) : list order_request * Py.result nat :=
  (log, Py.Ok 0%nat).

(** An exchange that accepts every second order. *)
Definition flaky_place (log : list order_request) (rq : order_request)
  : list order_request * Py.result nat :=
  (log ++ [rq],
   if Nat.even (length log) then Py.Raise "API request failed: 500 - busy"
   else Py.Ok (length log)).

(** A price service that answers every request with the same candles,
    and the frame library of the engine, whose frames have no truth
    value. *)
Definition fixed_history (data : list candle) (w : nat) (symbol : string)
  : nat * option (list candle) :=
  (S w, Some data).
Definition ambiguous (data : list candle) : Py.result bool :=
  Py.Raise "The truth value of a DataFrame is ambiguous. Use a.empty, a.bool(), a.item(), a.any() or a.all().".

(** Two candles around the entry range of Scenario A: the first holds
    45000, the second reaches the first target. *)
Definition rising : list candle :=
  [Candle 0 45050 45100 44900 45000 10;
   Candle 7200 44100 47100 44050 47000 10].

(** The fields of Scenario A. *)
Definition fields_a : fields :=
  match parse_signal scenario_a with
  | Parsed _ f _ _ => f
  | Failed _ _ _ => Fields None "USDT" None [] 1 false [] None
  end.

End Scenario.

(** * Properties *)

(** ** Comparisons and built-ins *)

Lemma ltb_lt (a b : Q) : Py.ltb a b = true <-> a < b.
Proof.
  unfold Py.ltb. rewrite negb_true_iff, <- not_true_iff_false, Qle_bool_iff.
  split; [apply Qnot_le_lt | apply Qlt_not_le].
Qed.

Lemma ltb_ge (a b : Q) : Py.ltb a b = false <-> b <= a.
Proof.
  unfold Py.ltb. rewrite negb_false_iff. apply Qle_bool_iff.
Qed.

Lemma leb_le (a b : Q) : Py.leb a b = true <-> a <= b.
Proof. apply Qle_bool_iff. Qed.

Lemma leb_gt (a b : Q) : Py.leb a b = false <-> b < a.
Proof.
  unfold Py.leb. rewrite <- not_true_iff_false, Qle_bool_iff.
  split; [apply Qnot_le_lt | apply Qlt_not_le].
Qed.

Lemma eqb_eq (a b : Q) : Py.eqb a b = true <-> a == b.
Proof. apply Qeq_bool_iff. Qed.

Lemma eqb_neq (a b : Q) : Py.eqb a b = false <-> ~ a == b.
Proof.
  unfold Py.eqb. rewrite <- not_true_iff_false, Qeq_bool_iff. reflexivity.
Qed.

Lemma py_min_Qmin (a b : Q) : Py.min a b == Qmin a b.
Proof.
  unfold Py.min. destruct (Py.ltb b a) eqn:E.
  - apply ltb_lt in E. symmetry. apply Q.min_r. now apply Qlt_le_weak.
  - apply ltb_ge in E. symmetry. now apply Q.min_l.
Qed.

Lemma py_max_lower (a b : Q) : a <= Py.max a b.
Proof.
  unfold Py.max. destruct (Py.ltb a b) eqn:E.
  - apply ltb_lt in E. now apply Qlt_le_weak.
  - apply Qle_refl.
Qed.

Lemma py_max_upper (a b : Q) : b <= Py.max a b.
Proof.
  unfold Py.max. destruct (Py.ltb a b) eqn:E.
  - apply Qle_refl.
  - now apply ltb_ge in E.
Qed.

(** ** The parser *)

Module ParserFacts.

Import Re TelegramSignalParser.

(** *** [sorted(list(set(l)))] is strictly ascending *)

Lemma mem_InA (x : Q) (l : list Q) : mem x l = true <-> InA Qeq x l.
Proof.
  induction l as [|y tl IH]; simpl.
  - split; [discriminate | intro H; inversion H].
  - rewrite orb_true_iff, IH, eqb_eq. split.
    + intros [H | H]; [now left | now right].
    + intro H. inversion H; subst; [now left | now right].
Qed.

Lemma py_set_InA (x : Q) (l : list Q) : InA Qeq x (py_set l) -> InA Qeq x l.
Proof.
  induction l as [|y tl IH]; simpl; [easy|].
  destruct (mem y tl); intro H.
  - right. now apply IH.
  - inversion H; subst; [now left | right; now apply IH].
Qed.

Lemma InA_py_set (x : Q) (l : list Q) : InA Qeq x l -> InA Qeq x (py_set l).
Proof.
  induction l as [|y tl IH]; simpl; [easy|].
  intro H. destruct (mem y tl) eqn:E.
  - inversion H as [? ? Hxy | ? ? Hin]; subst; [|now apply IH].
    apply IH. apply mem_InA in E. now rewrite Hxy.
  - inversion H; subst; [now left | right; now apply IH].
Qed.

Lemma py_set_NoDupA (l : list Q) : NoDupA Qeq (py_set l).
Proof.
  induction l as [|y tl IH]; simpl; [constructor|].
  destruct (mem y tl) eqn:E; [exact IH|].
  constructor; [|exact IH].
  intro H. apply py_set_InA, mem_InA in H. congruence.
Qed.

Lemma insert_InA (x y : Q) (l : list Q) :
  InA Qeq y (insert x l) <-> y == x \/ InA Qeq y l.
Proof.
  induction l as [|z tl IH]; simpl.
  - split; intro H.
    + inversion H; subst; [now left | now right].
    + destruct H as [H | H]; [now left | inversion H].
  - destruct (Py.ltb x z).
    + split; intro H.
      * inversion H; subst; [now left | now right].
      * destruct H as [H | H]; [now left | now right].
    + split; intro H.
      * inversion H; subst; [right; now left|].
        apply IH in H1. destruct H1; [now left | right; now right].
      * destruct H as [H | H].
        -- right. apply IH. now left.
        -- inversion H; subst; [now left | right; apply IH; now right].
Qed.

Lemma insert_sorted (x : Q) (l : list Q) :
  StronglySorted Qlt l -> ~ InA Qeq x l -> StronglySorted Qlt (insert x l).
Proof.
  induction l as [|z tl IH]; simpl; intros Hs Hn.
  - repeat constructor.
  - inversion Hs as [|? ? Hs' Hall]; subst.
    destruct (Py.ltb x z) eqn:E.
    + apply ltb_lt in E. constructor; [exact Hs|].
      constructor; [exact E|].
      eapply Forall_impl; [|exact Hall].
      intros a Ha. now apply Qlt_trans with z.
    + apply ltb_ge in E.
      assert (Hzx : z < x).
      { apply Qle_lt_or_eq in E. destruct E as [E | E]; [exact E|].
        exfalso. apply Hn. left. now symmetry. }
      constructor.
      * apply IH; [exact Hs'|]. intro H. apply Hn. now right.
      * apply Forall_forall. intros a Ha.
        assert (Hin : InA Qeq a (insert x tl)).
        { apply InA_alt. exists a. split; [reflexivity | exact Ha]. }
        apply insert_InA in Hin. destruct Hin as [Hin | Hin].
        -- now rewrite Hin.
        -- apply InA_alt in Hin. destruct Hin as [b [Hab Hb]].
           rewrite Forall_forall in Hall. rewrite Hab. now apply Hall.
Qed.

Lemma py_sorted_InA (x : Q) (l : list Q) :
  InA Qeq x (py_sorted l) <-> InA Qeq x l.
Proof.
  induction l as [|y tl IH]; simpl; [reflexivity|].
  rewrite insert_InA, IH. split.
  - intros [H | H]; [now left | now right].
  - intro H. inversion H; subst; [now left | now right].
Qed.

Lemma py_sorted_sorted (l : list Q) :
  NoDupA Qeq l -> StronglySorted Qlt (py_sorted l).
Proof.
  induction 1 as [|x l Hx Hnd IH]; simpl; [constructor|].
  apply insert_sorted; [exact IH|].
  now rewrite py_sorted_InA.
Qed.

Lemma firstn_In (n : nat) (l : list Q) (a : Q) :
  In a (firstn n l) -> In a l.
Proof.
  revert l. induction n as [|n IH]; intros [|x tl]; simpl; try easy.
  intros [H | H]; [now left | right; now apply IH].
Qed.

Lemma firstn_sorted (n : nat) (l : list Q) :
  StronglySorted Qlt l -> StronglySorted Qlt (firstn n l).
Proof.
  revert l. induction n as [|n IH]; intros l Hs; simpl; [constructor|].
  destruct l as [|x tl]; [constructor|].
  inversion Hs as [|? ? Hs' Hall]; subst.
  constructor; [now apply IH|].
  apply Forall_forall. intros a Ha. rewrite Forall_forall in Hall.
  apply Hall. now apply firstn_In with n.
Qed.

Lemma sorted_NoDupA (l : list Q) : StronglySorted Qlt l -> NoDupA Qeq l.
Proof.
  induction 1 as [|x l Hs IH Hall]; constructor; [|exact IH].
  intro H. apply InA_alt in H. destruct H as [y [Hxy Hy]].
  rewrite Forall_forall in Hall. specialize (Hall y Hy).
  rewrite Hxy in Hall. now apply Qlt_irrefl in Hall.
Qed.

Lemma capped_well_formed (l : list Q) :
  well_formed (firstn 5 (py_sorted (py_set l))).
Proof.
  assert (Hs : StronglySorted Qlt (firstn 5 (py_sorted (py_set l)))).
  { apply firstn_sorted, py_sorted_sorted, py_set_NoDupA. }
  repeat split; [exact Hs | now apply sorted_NoDupA | apply firstn_le_length].
Qed.

(** The targets are well formed for every text. *)
Lemma targets_well_formed (text : string) :
  well_formed (_extract_targets text).
Proof. apply capped_well_formed. Qed.

(** The entry zones never exceed five values, and are well formed
    whenever the rule list found a value. *)
Lemma entry_zones_capped (text : string) :
  (length (_extract_entry_zones text) <= 5)%nat.
Proof. apply firstn_le_length. Qed.

Lemma entry_zones_well_formed (text : string) :
  entry_pool text <> [] -> well_formed (_extract_entry_zones text).
Proof.
  intro Hne. unfold _extract_entry_zones.
  destruct (py_sorted (py_set (entry_pool text))) as [|x tl] eqn:E.
  - exfalso. destruct (entry_pool text) as [|y l]; [now apply Hne|].
    assert (H : InA Qeq y (py_sorted (py_set (y :: l)))).
    { apply py_sorted_InA, InA_py_set. now left. }
    rewrite E in H. inversion H.
  - rewrite <- E. apply capped_well_formed.
Qed.

(** *** Strings *)

Lemma chars_of_chars (l : list ascii) : Str.chars (Str.of_chars l) = l.
Proof. apply list_ascii_of_string_of_list_ascii. Qed.

Lemma of_chars_chars (s : string) : Str.of_chars (Str.chars s) = s.
Proof. apply string_of_list_ascii_of_string. Qed.

Lemma chars_app (s1 s2 : string) :
  Str.chars (s1 ++ s2) = Str.chars s1 ++ Str.chars s2.
Proof.
  induction s1 as [|c s1 IH]; simpl; [reflexivity|].
  unfold Str.chars in *. simpl. now rewrite IH.
Qed.

Lemma split_chars_none (c : ascii) (cur l : list ascii) :
  ~ In c l -> Str.split_chars c cur l = [Str.of_chars (rev cur ++ l)].
Proof.
  revert cur. induction l as [|x tl IH]; intros cur Hn; simpl.
  - now rewrite app_nil_r.
  - destruct (Ascii.eqb x c) eqn:E.
    + apply Ascii.eqb_eq in E. exfalso. apply Hn. now left.
    + rewrite IH by (intro H; apply Hn; now right).
      simpl. now rewrite <- app_assoc.
Qed.

Lemma split_chars_one (c : ascii) (cur l1 l2 : list ascii) :
  ~ In c l1 -> ~ In c l2 ->
  Str.split_chars c cur (l1 ++ c :: l2)
  = [Str.of_chars (rev cur ++ l1); Str.of_chars l2].
Proof.
  revert cur. induction l1 as [|x tl IH]; intros cur H1 H2; simpl.
  - rewrite Ascii.eqb_refl, app_nil_r.
    now rewrite split_chars_none by exact H2.
  - destruct (Ascii.eqb x c) eqn:E.
    + apply Ascii.eqb_eq in E. exfalso. apply H1. now left.
    + rewrite IH; [|intro H; apply H1; now right | exact H2].
      simpl. now rewrite <- app_assoc.
Qed.

(** Every character of a string is the separator or sits in a part. *)
Lemma split_chars_cover (c x : ascii) (cur l : list ascii) :
  In x (rev cur ++ l) ->
  x = c \/ exists part, In part (Str.split_chars c cur l)
                        /\ In x (Str.chars part).
Proof.
  revert cur. induction l as [|y tl IH]; intros cur Hin; simpl.
  - right. eexists. split; [now left|].
    rewrite chars_of_chars. now rewrite app_nil_r in Hin.
  - destruct (Ascii.eqb y c) eqn:E.
    + apply Ascii.eqb_eq in E. subst y.
      apply in_app_or in Hin. destruct Hin as [Hin | [Hin | Hin]].
      * right. eexists. split; [now left|].
        now rewrite chars_of_chars.
      * now left.
      * destruct (IH [] Hin) as [H | [part [Hp Hx]]]; [now left|].
        right. exists part. split; [now right | exact Hx].
    + apply IH. simpl. rewrite <- app_assoc. exact Hin.
Qed.

Lemma lstrip_cover (x : ascii) (l : list ascii) :
  In x l -> Str.is_space x = true \/ In x (Str.lstrip l).
Proof.
  induction l as [|y tl IH]; simpl; [easy|].
  destruct (Str.is_space y) eqn:E.
  - intros [-> | H]; [now left | now apply IH].
  - intro H. now right.
Qed.

Lemma strip_cover (x : ascii) (l : list ascii) :
  In x l -> Str.is_space x = true \/ In x (Str.strip_chars l).
Proof.
  intro H. unfold Str.strip_chars.
  destruct (lstrip_cover x l H) as [Hs | Hl]; [now left|].
  apply in_rev in Hl.
  destruct (lstrip_cover x _ Hl) as [Hs | Hr]; [now left|].
  right. now apply in_rev in Hr.
Qed.

(** A token [float] accepts holds digits and dots only. *)
Lemma float_chars (s : string) (v : Q) (x : ascii) :
  Str.float s = Some v -> In x (Str.chars s) ->
  x = "."%char \/ Str.is_digit x = true.
Proof.
  unfold Str.float, Str.split. intros Hf Hin.
  destruct (split_chars_cover "." x [] (Str.chars s) Hin)
    as [H | [part [Hp Hx]]]; [now left|].
  right.
  destruct (Str.split_chars "." [] (Str.chars s)) as [|i [|f [|? ?]]];
    try discriminate.
  - destruct Hp as [<- | []].
    destruct (Str.chars i) as [|c l] eqn:E; [discriminate|].
    destruct (forallb Str.is_digit (c :: l)) eqn:D; [|discriminate].
    rewrite forallb_forall in D. now apply D.
  - destruct (forallb Str.is_digit (Str.chars i)) eqn:Di; [|discriminate].
    destruct (forallb Str.is_digit (Str.chars f)) eqn:Df; [|discriminate].
    rewrite forallb_forall in Di, Df.
    destruct Hp as [<- | [<- | []]]; [now apply Di | now apply Df].
Qed.

(** A token [price_of] accepts holds no dash. *)
Lemma price_of_no_dash (s : string) (v : Q) :
  price_of s = Some v -> ~ In "-"%char (Str.chars s).
Proof.
  unfold price_of. intros Hf Hin.
  apply strip_cover in Hin. destruct Hin as [Hs | Hin]; [discriminate|].
  assert (H : In "-"%char
                (Str.chars (Str.remove_char "," (Str.strip s)))).
  { unfold Str.remove_char, Str.strip. rewrite !chars_of_chars.
    apply filter_In. split; [exact Hin | reflexivity]. }
  destruct (float_chars _ _ _ Hf H) as [E | E]; discriminate.
Qed.

Lemma contains_In (c : ascii) (s : string) :
  Str.contains c s = true <-> In c (Str.chars s).
Proof.
  unfold Str.contains. rewrite existsb_exists. split.
  - intros [x [Hx E]]. apply Ascii.eqb_eq in E. now subst.
  - intro H. exists c. split; [exact H | apply Ascii.eqb_refl].
Qed.

(** *** What one range adds to the pool *)

Lemma entry_points_range (a b : string) (A B : Q) :
  price_of a = Some A -> price_of b = Some B ->
  entry_points (a ++ "-" ++ b) = [A; A + (B - A) / 2; B].
Proof.
  intros Ha Hb. unfold entry_points.
  assert (Hc : Str.chars (a ++ "-" ++ b)
               = Str.chars a ++ "-"%char :: Str.chars b).
  { now rewrite chars_app. }
  assert (Hin : Str.contains "-" (a ++ "-" ++ b) = true).
  { apply contains_In. rewrite Hc. apply in_or_app. right. now left. }
  rewrite Hin. unfold Str.split. rewrite Hc.
  rewrite split_chars_one
    by (eapply price_of_no_dash; eassumption).
  simpl rev. simpl app. rewrite !of_chars_chars, Ha, Hb. reflexivity.
Qed.

Lemma pool_block (text : string) (p : regex) (m : string) :
  In p entry_patterns -> In m (findall true p text) ->
  exists before after,
    entry_pool text = before ++ entry_points m ++ after.
Proof.
  intros Hp Hm. unfold entry_pool.
  apply in_split in Hp. destruct Hp as [ps1 [ps2 ->]].
  apply in_split in Hm. destruct Hm as [ms1 [ms2 Hm]].
  set (F := fun q => flat_map entry_points (findall true q text)).
  exists (flat_map F ps1 ++ flat_map entry_points ms1).
  exists (flat_map entry_points ms2 ++ flat_map F ps2).
  rewrite flat_map_app. cbn [flat_map]. unfold F at 2.
  rewrite Hm, flat_map_app. cbn [flat_map].
  rewrite <- !app_assoc. reflexivity.
Qed.

(** *** The leverage loop *)

Lemma clamp_range (n : Z) : (1 <= clamp_leverage n <= 100)%Z.
Proof. unfold clamp_leverage. lia. Qed.

Lemma leverage_loop_range (ps : list regex) (text : string) :
  (1 <= leverage_loop ps text <= 100)%Z.
Proof.
  induction ps as [|p ps IH]; simpl; [lia|].
  destruct (search true p text) as [m|]; [|exact IH].
  destruct (Str.int (group m)); [apply clamp_range | exact IH].
Qed.

Lemma leverage_loop_default (ps : list regex) (text : string) :
  no_leverage ps text -> leverage_loop ps text = 1%Z.
Proof.
  induction ps as [|p ps IH]; intro H; simpl; [reflexivity|].
  assert (Hp := H p (or_introl eq_refl)).
  assert (Hps : no_leverage ps text).
  { intros q Hq. apply H. now right. }
  destruct (search true p text) as [m|]; [|now apply IH].
  rewrite Hp. now apply IH.
Qed.

(** *** The batch loop *)

Lemma batch_loop_map (signals : list pyobj) (results : list signal) :
  batch_loop signals results = results ++ map parse_signal signals.
Proof.
  revert results. induction signals as [|t tl IH]; intro results; simpl.
  - now rewrite app_nil_r.
  - rewrite IH, <- app_assoc. reflexivity.
Qed.

(** A string always goes through the [try] block. *)
Lemma parse_str (s : string) :
  exists cleaned errors,
    _clean_text (PyStr s) = Py.Ok cleaned
    /\ parse_signal (PyStr s)
       = Parsed (PyStr s)
           (Fields (_extract_coin cleaned) "USDT"
                   (_extract_position_type cleaned)
                   (_extract_entry_zones cleaned)
                   (_extract_leverage cleaned)
                   (_detect_cross_leverage cleaned)
                   (_extract_targets cleaned)
                   (_extract_stop_loss cleaned))
           errors
           (match errors with [] => true | _ => false end).
Proof.
  eexists. eexists. split; [reflexivity|].
  unfold parse_signal, parse_body. cbn [_clean_text Py.bind]. reflexivity.
Qed.

(** *** Entry zones and targets of a parse (C1) *)

(** What holds of the two lists for every text: the targets of the
    parse are ascending, free of duplicates and at most five, and so
    are the entry zones whenever the rule list found a value; the entry
    zones are at most five in every case. *)
Lemma parse_lists_well_formed (s : string) :
  exists cleaned f errors ok,
    _clean_text (PyStr s) = Py.Ok cleaned
    /\ parse_signal (PyStr s) = Parsed (PyStr s) f errors ok
    /\ well_formed (targets f)
    /\ (length (entry_zones f) <= 5)%nat
    /\ (entry_pool cleaned <> [] -> well_formed (entry_zones f)).
Proof.
  destruct (parse_str s) as [cleaned [errors [Hc Hp]]].
  eexists. eexists. eexists. eexists.
  split; [exact Hc|]. split; [exact Hp|]. cbn [targets entry_zones].
  split; [apply targets_well_formed|].
  split; [apply entry_zones_capped | apply entry_zones_well_formed].
Qed.

(** C1: the entry zones of a parse are ascending and free of
    duplicates also when the fallback scan supplies them.  The code
    breaks this: for the text "5 3 3" no entry rule matches, the
    fallback scan supplies 5, 3, 3 in text order after the sort, and
    the parse returns them as they are, neither ascending nor free of
    duplicates. *)
Theorem C1_fallback_entry_zones_unsorted :
  entry_pool "5 3 3" = []
  /\ (exists errors,
        parse_signal (PyStr "5 3 3")
        = Parsed (PyStr "5 3 3")
            (Fields None "USDT" None [5; 3; 3] 1 false [] None)
            errors false)
  /\ ~ StronglySorted Qlt [5; 3; 3]
  /\ ~ NoDupA Qeq [5; 3; 3].
Proof.
  split; [vm_compute; reflexivity|].
  split; [eexists; vm_compute; reflexivity|].
  split.
  - intro H. inversion H as [|? ? _ Hall]; subst.
    inversion Hall as [|? ? H53 _]; subst. vm_compute in H53. discriminate.
  - intro H. inversion H as [|? ? _ Hnd]; subst.
    inversion Hnd as [|? ? Hn _]; subst. apply Hn. now left.
Qed.

(** *** The batch (C6) *)

(** C6: [batch_parse_signals] returns one result per text, in the
    order of the texts; [parse_signal] returns a result for every
    input, and when the body of its [try] block raises, that result
    holds the single error "Parsing failed: ..." and
    [parsed_successfully = False], the other texts being parsed as
    usual. *)
Theorem C6_batch_keeps_order_and_never_raises (signals : list pyobj) :
  batch_parse_signals signals = map parse_signal signals
  /\ length (batch_parse_signals signals) = length signals
  /\ (forall i, nth_error (batch_parse_signals signals) i
                = option_map parse_signal (nth_error signals i))
  /\ (forall text,
        match parse_body text with
        | Py.Ok result => parse_signal text = result
        | Py.Raise e =>
            parse_signal text
            = Failed text [("Parsing failed: " ++ e)%string] false
            /\ parsed_successfully (parse_signal text) = false
        end).
Proof.
  assert (E : batch_parse_signals signals = map parse_signal signals).
  { unfold batch_parse_signals. now rewrite batch_loop_map. }
  split; [exact E|]. rewrite E. split; [apply length_map|].
  split; [intro i; apply nth_error_map|].
  intro text. unfold parse_signal.
  destruct (parse_body text); [reflexivity | split; reflexivity].
Qed.

(** A text that is not a string makes the body raise; the batch goes
    on and records the failure in its place. *)
Example batch_with_a_failure :
  parse_body PyNone = Py.Raise "expected string or bytes-like object"
  /\ map parsed_successfully
       (batch_parse_signals
          [PyStr "#BTC/USDT LONG Entry: 45000"; PyNone; PyNumber 7;
           PyStr "#ETH/USDT SHORT Entry: 3000"])
     = [true; false; false; true].
Proof. split; vm_compute; reflexivity. Qed.

(** *** Ranges (C7) *)

(** C7, amended: a match "A-B" of an entry rule, where [float] reads A
    from the text before the dash and B from the text after it, adds to
    the pool, before [set] and [sorted], exactly the three points A,
    A + (B - A)/2 and B, the second computed in this order. *)
Theorem C7_range_adds_three_points
  (text : string) (p : regex) (a b : string) (A B : Q) :
  In p entry_patterns ->
  In (a ++ "-" ++ b)%string (findall true p text) ->
  price_of a = Some A -> price_of b = Some B ->
  entry_points (a ++ "-" ++ b) = [A; A + (B - A) / 2; B]
  /\ exists before after,
       entry_pool text = before ++ [A; A + (B - A) / 2; B] ++ after.
Proof.
  intros Hp Hm Ha Hb.
  assert (E := entry_points_range a b A B Ha Hb).
  split; [exact E|].
  rewrite <- E. now apply pool_block with p.
Qed.

Lemma C7_range_adds_three_points_witness :
  entry_points "45000-46000" = [45000; 45000 + (46000 - 45000) / 2; 46000]
  /\ exists before after,
       entry_pool "ENTRY: 45000-46000 TP 47000"
       = before ++ [45000; 45000 + (46000 - 45000) / 2; 46000] ++ after.
Proof.
  apply (C7_range_adds_three_points "ENTRY: 45000-46000 TP 47000"
           (cat [lit "Entry"; star colon_space; zone_group])
           "45000" "46000" 45000 46000).
  - left. reflexivity.
  - vm_compute. left. reflexivity.
  - vm_compute. reflexivity.
  - vm_compute. reflexivity.
Defined.

(** *** Leverage (C9) *)

(** C9: for every text the leverage of the parse lies between 1 and
    100; and it is 1 when no leverage rule matches the cleaned text or
    gives a token that [int] accepts. *)
Theorem C9_leverage_in_range_default_one (s : string) :
  (exists cleaned f errors ok,
     _clean_text (PyStr s) = Py.Ok cleaned
     /\ parse_signal (PyStr s) = Parsed (PyStr s) f errors ok
     /\ (1 <= leverage f <= 100)%Z
     /\ (no_leverage leverage_patterns cleaned -> leverage f = 1%Z))
  /\ (forall cleaned, (1 <= _extract_leverage cleaned <= 100)%Z)
  /\ (forall cleaned,
        no_leverage leverage_patterns cleaned ->
        _extract_leverage cleaned = 1%Z).
Proof.
  split; [|split].
  - destruct (parse_str s) as [cleaned [errors [Hc Hp]]].
    eexists. eexists. eexists. eexists.
    split; [exact Hc|]. split; [exact Hp|]. cbn [leverage].
    split; [apply leverage_loop_range | apply leverage_loop_default].
  - intro cleaned. apply leverage_loop_range.
  - intro cleaned. apply leverage_loop_default.
Qed.

Lemma C9_leverage_in_range_default_one_witness :
  no_leverage leverage_patterns "#BTC/USDT LONG ENTRY: 45000"
  /\ _extract_leverage "#BTC/USDT LONG ENTRY: 45000" = 1%Z.
Proof.
  assert (H : no_leverage leverage_patterns "#BTC/USDT LONG ENTRY: 45000").
  { intros p Hp. repeat (destruct Hp as [<- | Hp]; [vm_compute; exact I|]).
    destruct Hp. }
  split; [exact H|].
  exact (proj2 (proj2 (C9_leverage_in_range_default_one EmptyString))
           "#BTC/USDT LONG ENTRY: 45000"%string H).
Defined.

(** The clamp at work: 250x is cut to 100, 0x is raised to 1. *)
Example leverage_clamped :
  _extract_leverage "LEVERAGE: 250X" = 100%Z
  /\ _extract_leverage "LEVERAGE: 0X" = 1%Z
  /\ _extract_leverage "CROSS 20X" = 20%Z.
Proof. vm_compute. repeat split. Qed.

End ParserFacts.

(** ** The back-test *)

Module BacktestFacts.

Import TelegramSignalParser BacktestEngine.

(** *** Sizing *)

Lemma Qabs_pos_iff (x : Q) : 0 < Qabs x <-> ~ x == 0.
Proof.
  split.
  - intros H E. rewrite E in H. now apply Qlt_irrefl in H.
  - intro H. apply Qabs_case; intro Hx.
    + apply Qle_lt_or_eq in Hx. destruct Hx as [Hx | Hx]; [exact Hx|].
      exfalso. apply H. now symmetry.
    + apply Qle_lt_or_eq in Hx. destruct Hx as [Hx | Hx]; [lra|].
      exfalso. now apply H.
Qed.

(** The risk per unit is positive exactly when entry and stop differ. *)
Lemma risk_per_unit_pos (entry stop : Q) :
  0 < entry -> (0 < Qabs (entry - stop) / entry <-> ~ entry == stop).
Proof.
  intro He. split.
  - intros H E. assert (Z0 : entry - stop == 0) by lra.
    rewrite Z0 in H. unfold Qdiv in H. simpl Qabs in H.
    rewrite Qmult_0_l in H. now apply Qlt_irrefl in H.
  - intro H. apply Qlt_shift_div_l; [exact He|].
    rewrite Qmult_0_l. apply Qabs_pos_iff. lra.
Qed.

Lemma usable_prices_none (entry_price stop_loss : option Q) :
  missing_or_non_positive entry_price \/ missing_or_non_positive stop_loss ->
  usable_prices entry_price stop_loss = None.
Proof.
  unfold usable_prices.
  destruct stop_loss as [stop|], entry_price as [entry|]; simpl; try easy.
  intros [H | H]; apply leb_le in H; rewrite H;
    now rewrite ?orb_true_r.
Qed.

Lemma usable_prices_some (entry stop : Q) :
  0 < entry -> 0 < stop ->
  usable_prices (Some entry) (Some stop) = Some (entry, stop).
Proof.
  intros He Hs. unfold usable_prices, Py.falsy.
  assert (E1 : Py.eqb stop 0 = false) by (apply eqb_neq; lra).
  assert (E2 : Py.eqb entry 0 = false) by (apply eqb_neq; lra).
  assert (E3 : Py.leb stop 0 = false) by (now apply leb_gt).
  assert (E4 : Py.leb entry 0 = false) by (now apply leb_gt).
  now rewrite E1, E2, E3, E4.
Qed.

(** C4, as stated, fails where entry and stop coincide: the risk per
    unit is 0, the quotient of the claim has no value (0 under the total
    division of [Q], the cap 200 if read as unbounded), and the code
    returns min(defaultSize, balance*0.1) = 10. *)
Lemma C4_equal_entry_and_stop_counterexample :
  _calculate_position_size 1000 10 2 (Some 100) (Some 100) == 10
  /\ ~ _calculate_position_size 1000 10 2 (Some 100) (Some 100)
       == Qmin ((1000 * 2 / 100) / (Qabs (100 - 100) / 100)) (1000 * (2 # 10))
  /\ ~ _calculate_position_size 1000 10 2 (Some 100) (Some 100)
       == 1000 * (2 # 10).
Proof.
  split; [vm_compute; reflexivity|].
  split; intro H; vm_compute in H; discriminate.
Qed.

(** C4, amended: the balance-at-risk size is min(defaultSize,
    balance*0.1) whenever the stop or the entry price is missing or not
    positive, and also when both are positive and equal (risk per unit
    0); when both are positive and differ it is
    (balance*riskPct/100)/riskPerUnit with riskPerUnit =
    |entry-stop|/entry, capped at balance*0.2. *)
Theorem C4_balance_at_risk_size
  (balance default_size risk : Q) (entry_price stop_loss : option Q) :
  (missing_or_non_positive entry_price \/ missing_or_non_positive stop_loss ->
   _calculate_position_size balance default_size risk entry_price stop_loss
   == Qmin default_size (balance * (1 # 10)))
  /\ (forall entry stop,
        entry_price = Some entry -> stop_loss = Some stop ->
        0 < entry -> 0 < stop ->
        let risk_per_unit := Qabs (entry - stop) / entry in
        (~ entry == stop ->
         _calculate_position_size balance default_size risk entry_price
           stop_loss
         == Qmin ((balance * risk / 100) / risk_per_unit) (balance * (2 # 10)))
        /\ (entry == stop ->
            _calculate_position_size balance default_size risk entry_price
              stop_loss
            == Qmin default_size (balance * (1 # 10)))).
Proof.
  split.
  - intro H. unfold _calculate_position_size.
    rewrite usable_prices_none by exact H. apply py_min_Qmin.
  - intros entry stop -> -> He Hs rpu.
    unfold _calculate_position_size. rewrite usable_prices_some by assumption.
    fold rpu. split; intro H.
    + assert (Hr : 0 < rpu) by (now apply risk_per_unit_pos).
      apply ltb_lt in Hr. rewrite Hr. rewrite py_min_Qmin.
      apply Q.min_compat; [|reflexivity].
      unfold Qdiv. now rewrite !Qmult_assoc.
    + assert (Hr : Py.ltb 0 rpu = false).
      { apply ltb_ge. apply Qnot_lt_le. intro Hr.
        now apply risk_per_unit_pos in Hr. }
      rewrite Hr. apply py_min_Qmin.
Qed.

Lemma C4_balance_at_risk_size_witness :
  (_calculate_position_size 1000 10 2 (Some 100) None
   == Qmin 10 (1000 * (1 # 10)))
  /\ (_calculate_position_size 1000 10 2 (Some 100) (Some 95)
      == Qmin ((1000 * 2 / 100) / (Qabs (100 - 95) / 100)) (1000 * (2 # 10))).
Proof.
  split.
  - apply (proj1 (C4_balance_at_risk_size 1000 10 2 (Some 100) None)).
    right. exact I.
  - apply (proj2 (C4_balance_at_risk_size 1000 10 2 (Some 100) (Some 95))
             100 95 eq_refl eq_refl).
    + reflexivity.
    + reflexivity.
    + intro H. vm_compute in H. discriminate.
Defined.

(** *** The exit search *)

Lemma is_side_long (position_type : option string) :
  is_side "LONG" position_type = true <-> long position_type.
Proof.
  unfold is_side, long. destruct position_type as [s|]; [|easy].
  rewrite String.eqb_eq. split; congruence.
Qed.

Lemma is_side_short (position_type : option string) :
  is_side "SHORT" position_type = true <-> short position_type.
Proof.
  unfold is_side, short. destruct position_type as [s|]; [|easy].
  rewrite String.eqb_eq. split; congruence.
Qed.

Lemma stop_check_sound (row : candle) (stop_loss : option Q)
  (position_type : option string) (stop : Q) :
  stop_check row stop_loss position_type = Some stop ->
  stop_loss = Some stop /\ stop_reached position_type stop_loss row.
Proof.
  unfold stop_check, Py.falsy. destruct stop_loss as [v|]; [|discriminate].
  destruct (Py.eqb v 0) eqn:E0; [discriminate|]. apply eqb_neq in E0.
  destruct (is_side "LONG" position_type && Py.leb (low row) v) eqn:EL.
  - intro H. injection H as <-. split; [reflexivity|].
    apply andb_true_iff in EL. destruct EL as [L1 L2].
    exists v. repeat split; [exact E0|]. left.
    split; [now apply is_side_long | now apply leb_le].
  - destruct (is_side "SHORT" position_type && Py.leb v (high row)) eqn:ES;
      [|discriminate].
    intro H. injection H as <-. split; [reflexivity|].
    apply andb_true_iff in ES. destruct ES as [S1 S2].
    exists v. repeat split; [exact E0|]. right.
    split; [now apply is_side_short | now apply leb_le].
Qed.

Lemma stop_check_complete (row : candle) (stop_loss : option Q)
  (position_type : option string) :
  stop_reached position_type stop_loss row ->
  exists stop, stop_loss = Some stop
               /\ stop_check row stop_loss position_type = Some stop.
Proof.
  intros [stop [-> [H0 H]]]. exists stop. split; [reflexivity|].
  unfold stop_check, Py.falsy. apply eqb_neq in H0. rewrite H0.
  destruct H as [[HL Hle] | [HS Hle]].
  - apply is_side_long in HL. apply leb_le in Hle. now rewrite HL, Hle.
  - apply is_side_short in HS. apply leb_le in Hle. rewrite HS, Hle.
    simpl. now destruct (is_side "LONG" position_type && Py.leb (low row) stop).
Qed.

Lemma stop_check_quiet (row : candle) (stop_loss : option Q)
  (position_type : option string) :
  ~ stop_reached position_type stop_loss row ->
  stop_check row stop_loss position_type = None.
Proof.
  intro H. destruct (stop_check row stop_loss position_type) as [stop|] eqn:E;
    [|reflexivity].
  exfalso. apply H. now apply stop_check_sound in E.
Qed.

Lemma target_test (row : candle) (position_type : option string) (target : Q) :
  target_reached position_type row target
  <-> is_side "LONG" position_type && Py.leb target (high row) = true
      \/ is_side "SHORT" position_type && Py.leb (low row) target = true.
Proof.
  unfold target_reached.
  rewrite !andb_true_iff, is_side_long, is_side_short, !leb_le. reflexivity.
Qed.

Lemma target_loop_quiet (row : candle) (targets : list Q)
  (position_type : option string) :
  Forall (fun target => ~ target_reached position_type row target) targets ->
  target_loop row targets position_type = None.
Proof.
  induction 1 as [|target tl Hn _ IH]; simpl; [reflexivity|].
  rewrite target_test in Hn.
  destruct (is_side "LONG" position_type && Py.leb target (high row));
    [exfalso; apply Hn; now left|].
  destruct (is_side "SHORT" position_type && Py.leb (low row) target);
    [exfalso; apply Hn; now right|].
  exact IH.
Qed.

Lemma target_loop_first (row : candle) (skipped rest : list Q) (target : Q)
  (position_type : option string) :
  Forall (fun t => ~ target_reached position_type row t) skipped ->
  target_reached position_type row target ->
  target_loop row (skipped ++ target :: rest) position_type = Some target.
Proof.
  intros Hs Ht. induction Hs as [|t tl Hn _ IH]; simpl.
  - rewrite target_test in Ht.
    destruct (is_side "LONG" position_type && Py.leb target (high row));
      [reflexivity|].
    destruct (is_side "SHORT" position_type && Py.leb (low row) target);
      [reflexivity|].
    now destruct Ht.
  - rewrite target_test in Hn.
    destruct (is_side "LONG" position_type && Py.leb t (high row));
      [exfalso; apply Hn; now left|].
    destruct (is_side "SHORT" position_type && Py.leb (low row) t);
      [exfalso; apply Hn; now right|].
    exact IH.
Qed.

Lemma exit_loop_skip (earlier later : list candle) (targets : list Q)
  (stop_loss : option Q) (position_type : option string) :
  Forall (quiet position_type targets stop_loss) earlier ->
  exit_loop (earlier ++ later) targets stop_loss position_type
  = exit_loop later targets stop_loss position_type.
Proof.
  induction 1 as [|row tl [Hs Ht] _ IH]; simpl; [reflexivity|].
  now rewrite stop_check_quiet, target_loop_quiet.
Qed.

Lemma exit_loop_quiet (rows : list candle) (targets : list Q)
  (stop_loss : option Q) (position_type : option string) :
  Forall (quiet position_type targets stop_loss) rows ->
  exit_loop rows targets stop_loss position_type = None.
Proof.
  intro H. rewrite <- (app_nil_r rows). now rewrite exit_loop_skip.
Qed.

Lemma after_In (entry_time : Z) (data : list candle) (row : candle) :
  In row (after entry_time data)
  <-> In row data /\ (entry_time < timestamp row)%Z.
Proof. unfold after. now rewrite filter_In, Z.ltb_lt. Qed.

(** C3, as stated, fails in two places.  With the entry on the last
    candle no candle lies after the entry, so none satisfies a
    condition, yet the search returns nothing instead of a timeout at
    the last close.  And a stop of 0 is never tested: for a Short whose
    candle high is at or above it the search goes on to the targets. *)
Lemma C3_exit_search_counterexample :
  let only := Candle 1 100 101 99 100 0 in
  let next := Candle 2 100 101 99 100 0 in
  (Forall (quiet (Some "LONG"%string) [110] (Some 90)) (after 1 [only])
   /\ _find_exit_point [only] 1 [110] (Some 90) (Some "LONG"%string)
      <> Some (close (last [only] only), timestamp (last [only] only), timeout)
   /\ _find_exit_point [only] 1 [110] (Some 90) (Some "LONG"%string) = None)
  /\ (0 <= high next
      /\ _find_exit_point [only; next] 1 [99] (Some 0) (Some "SHORT"%string)
         <> Some (0, 2%Z, stop_loss_hit)
      /\ _find_exit_point [only; next] 1 [99] (Some 0) (Some "SHORT"%string)
         = Some (99, 2%Z, target_hit)).
Proof.
  cbv zeta. split; split.
  - constructor.
  - split; [discriminate | reflexivity].
  - vm_compute. discriminate.
  - split; [discriminate | reflexivity].
Qed.

(** C3, amended: the exit search looks only at the candles strictly
    after the entry time, in the order of the data.  On each candle a
    stop that is set (present and not 0) is tested first (Long: low <=
    stop; Short: high >= stop), then the targets in list order (Long:
    high >= target; Short: low <= target); the first condition that
    holds fixes exit price, time and reason.  If there is a candle
    after the entry and none satisfies a condition, the exit is the
    close of the last of them with reason timeout; if no candle lies
    after the entry, no exit is found. *)
Theorem C3_exit_search
  (data : list candle) (entry_time : Z) (targets : list Q)
  (stop_loss : option Q) (position_type : option string) :
  let exit_data := after entry_time data in
  let found := _find_exit_point data entry_time targets stop_loss position_type in
  (forall row, In row exit_data
               <-> In row data /\ (entry_time < timestamp row)%Z)
  /\ (exit_data = [] -> found = None)
  /\ (forall earlier row later,
        exit_data = earlier ++ row :: later ->
        Forall (quiet position_type targets stop_loss) earlier ->
        (stop_reached position_type stop_loss row ->
         exists stop, stop_loss = Some stop
                      /\ found = Some (stop, timestamp row, stop_loss_hit))
        /\ (~ stop_reached position_type stop_loss row ->
            forall skipped target rest,
              targets = skipped ++ target :: rest ->
              Forall (fun t => ~ target_reached position_type row t) skipped ->
              target_reached position_type row target ->
              found = Some (target, timestamp row, target_hit)))
  /\ (forall first_row more,
        exit_data = first_row :: more ->
        Forall (quiet position_type targets stop_loss) exit_data ->
        found = Some (close (last exit_data first_row),
                      timestamp (last exit_data first_row), timeout)).
Proof.
  intros exit_data found. split; [intro row; apply after_In|].
  unfold found, _find_exit_point. fold exit_data. split; [|split].
  - now intros ->.
  - intros earlier row later E Hq.
    assert (Hloop : exit_loop exit_data targets stop_loss position_type
                    = exit_loop (row :: later) targets stop_loss position_type).
    { rewrite E. now apply exit_loop_skip. }
    destruct exit_data as [|first_row more];
      [now destruct earlier|].
    rewrite Hloop. simpl. split.
    + intro Hs. destruct (stop_check_complete _ _ _ Hs) as [stop [Es Ec]].
      exists stop. split; [exact Es|]. now rewrite Ec.
    + intros Hs skipped target rest -> Hsk Ht.
      rewrite stop_check_quiet by exact Hs.
      now rewrite target_loop_first.
  - intros first_row more E Hq. rewrite E in *.
    now rewrite exit_loop_quiet.
Qed.

(** Scenario B on three flat candles: entry on the first, nothing
    reached afterwards, timeout at the last close. *)
Lemma C3_exit_search_witness :
  let flat t := Candle t 100 101 99 100 0 in
  _find_exit_point [flat 1%Z; flat 2%Z; flat 3%Z] 1 [110; 120] (Some 90)
    (Some "LONG"%string)
  = Some (100, 3%Z, timeout).
Proof.
  intro flat.
  assert (Hq : forall t, quiet (Some "LONG"%string) [110; 120] (Some 90) (flat t)).
  { intro t. split.
    - intros [stop [E [_ [[_ H] | [H _]]]]].
      + injection E as <-. vm_compute in H. now apply H.
      + discriminate.
    - repeat constructor; intros [[_ H] | [H _]];
        solve [vm_compute in H; now apply H | discriminate]. }
  exact (proj2 (proj2 (proj2
           (C3_exit_search [flat 1%Z; flat 2%Z; flat 3%Z] 1 [110; 120]
              (Some 90) (Some "LONG"%string))))
           (flat 2%Z) [flat 3%Z] eq_refl
           (Forall_cons _ (Hq 2%Z) (Forall_cons _ (Hq 3%Z) (Forall_nil _)))).
Defined.

(** *** Metrics *)


(** When no peak is 0 the loop reports the largest of the starting
    value and the drawdowns of the points. *)
Lemma drawdown_loop_max (values : list Q) (peak max_drawdown result : Q) :
  drawdown_loop values peak max_drawdown = Py.Ok result ->
  result = Py.max_list max_drawdown (drawdowns peak values).
Proof.
  revert peak max_drawdown.
  induction values as [|value tl IH]; intros peak md; simpl.
  - intro H. now injection H.
  - unfold Py.div, Py.max at 1.
    destruct (Py.eqb _ 0); simpl; [discriminate|].
    intro H. apply IH in H. exact H.
Qed.

Lemma max_list_lower (x : Q) (l : list Q) : x <= Py.max_list x l.
Proof.
  revert x. induction l as [|y tl IH]; intro x; simpl; [apply Qle_refl|].
  eapply Qle_trans; [apply py_max_lower | apply IH].
Qed.

Lemma max_list_upper (x : Q) (l : list Q) :
  Forall (fun y => y <= Py.max_list x l) l.
Proof.
  revert x. induction l as [|y tl IH]; intro x; simpl; constructor.
  - eapply Qle_trans; [apply py_max_upper | apply max_list_lower].
  - apply IH.
Qed.

Section MetricsFacts.

Variable np : numpy.

Lemma sharpe_zero (returns : list Q) :
  ~ 0 < np_std np returns -> sharpe np returns = 0.
Proof.
  intro H. unfold sharpe. destruct returns as [|r tl]; [reflexivity|].
  destruct (Py.ltb 0 (np_std np (r :: tl))) eqn:E; [|reflexivity].
  now apply ltb_lt in E.
Qed.

(** The two ways [_calculate_metrics] ends: the short dictionary of
    zeros, or the drawdown and the Sharpe ratio of the two loops. *)
Lemma metrics_cases (trade_history : list trade) (initial final : Q)
  (equity_curve : list equity_point) :
  let m := _calculate_metrics np trade_history initial final equity_curve in
  let balances := map e_balance equity_curve in
  (m = no_metrics
   /\ (trade_history = []
       \/ (exists e, drawdown_loop (initial :: balances) initial 0 = Py.Raise e)
       \/ (exists e, returns_loop initial balances = Py.Raise e)))
  \/ (trade_history <> []
      /\ exists drawdown returns,
           drawdown_loop (initial :: balances) initial 0 = Py.Ok drawdown
           /\ returns_loop initial balances = Py.Ok returns
           /\ m_max_drawdown m = drawdown
           /\ m_sharpe_ratio m = sharpe np returns).
Proof.
  intros m balances. unfold m, _calculate_metrics.
  destruct trade_history as [|t tl]; [left; split; [reflexivity | now left]|].
  unfold metrics_body. fold balances.
  destruct (drawdown_loop (initial :: balances) initial 0) as [d|e] eqn:Ed.
  - cbn [Py.bind].
    destruct (returns_loop initial balances) as [rs|e] eqn:Er.
    + right. split; [discriminate|]. exists d, rs. cbn. repeat split.
    + left. cbn. split; [reflexivity|]. right. right. now exists e.
  - left. cbn. split; [reflexivity|]. right. left. now exists e.
Qed.


Lemma metrics_drawdown_max (trade_history : list trade) (initial final : Q)
  (equity_curve : list equity_point) :
  let m := _calculate_metrics np trade_history initial final equity_curve in
  m_max_drawdown m = 0
  \/ m_max_drawdown m
     = Py.max_list 0
         (drawdowns initial (initial :: map e_balance equity_curve)).
Proof.
  destruct (metrics_cases trade_history initial final equity_curve)
    as [[E _] | [_ [d [rs [Hd [_ [E _]]]]]]]; cbv zeta; rewrite E.
  - now left.
  - right. now apply drawdown_loop_max.
Qed.

Lemma metrics_sharpe_zero (trade_history : list trade) (initial final : Q)
  (equity_curve : list equity_point) (returns : list Q) :
  returns_loop initial (map e_balance equity_curve) = Py.Ok returns ->
  ~ 0 < np_std np returns ->
  m_sharpe_ratio
    (_calculate_metrics np trade_history initial final equity_curve) = 0.
Proof.
  intros Hr Hs.
  destruct (metrics_cases trade_history initial final equity_curve)
    as [[-> _] | [_ [d [rs [_ [Hr' [_ ->]]]]]]]; [reflexivity|].
  rewrite Hr in Hr'. injection Hr' as <-. now apply sharpe_zero.
Qed.

Variable world : Type.
Variable _simulate_trade :
  world -> signal -> settings -> Q -> world * option trade.

(** A run returns a report unless the initial balance is 0, and the
    report carries what the loop and [_calculate_metrics] produced. *)
Lemma run_backtest_report (w : world) (signals : list signal) (st : settings)
  (initial : Q) :
  ~ initial == 0 ->
  exists r,
    run_backtest np world _simulate_trade w signals st initial = Py.Ok r
    /\ signal_loop world _simulate_trade w signals st initial [] []
       = (final_balance r, trade_history r, equity_curve r)
    /\ r_metrics r
       = _calculate_metrics np (trade_history r) initial (final_balance r)
           (equity_curve r)
    /\ max_drawdown r = m_max_drawdown (r_metrics r)
    /\ sharpe_ratio r = m_sharpe_ratio (r_metrics r)
    /\ total_trades r = length (trade_history r)
    /\ winning_trades r = count (fun t => Py.ltb 0 (pnl t)) (trade_history r)
    /\ losing_trades r = count (fun t => Py.leb (pnl t) 0) (trade_history r).
Proof.
  intro H0. unfold run_backtest.
  destruct (signal_loop world _simulate_trade w signals st initial [] [])
    as [[balance history] curve].
  unfold make_report, Py.div. apply eqb_neq in H0. rewrite H0. cbn [Py.bind].
  eexists. split; [reflexivity|]. cbn. repeat split.
Qed.

(** What the loop records: the completed trades, their running balance
    and their equity points. *)
Lemma signal_loop_completed (signals : list signal) (st : settings) :
  forall w balance history curve,
    let done := completed world _simulate_trade w signals st balance in
    signal_loop world _simulate_trade w signals st balance history curve
    = (balance_after balance done, history ++ done,
       curve ++ equity_after balance done).
Proof.
  induction signals as [|s tl IH]; intros w balance history curve; cbv zeta.
  - cbn. now rewrite !app_nil_r.
  - cbn [signal_loop completed].
    destruct (has_coin_and_entries s); [|apply IH].
    destruct (_simulate_trade w s st balance) as [w' [t|]]; [|apply IH].
    rewrite IH. cbn [balance_after fold_left equity_after].
    now rewrite <- !app_assoc.
Qed.

End MetricsFacts.





(** The same run, evaluated: the equity goes 1000, 1050, 1020 and the
    drawdown from the peak 1050 is 30/1050*100. *)
Example scripted_run_drawdown :
  exists r,
    run_backtest Scenario.numpy6 (list (option trade)) Scenario.scripted
      [Some (Scenario.trade_with 50 10); None; Some (Scenario.trade_with (-30) 20)]
      (map parse_signal [Scenario.scenario_a; Scenario.scenario_a; Scenario.scenario_a])
      Scenario.no_settings 1000
    = Py.Ok r
    /\ map e_balance (equity_curve r) = [1000 + 50; 1000 + 50 + -30]
    /\ max_drawdown r == 30 / 1050 * 100
    /\ total_trades r = 2%nat.
Proof.
  eexists. split; [vm_compute; reflexivity|]. cbn.
  split; [reflexivity|]. split; [vm_compute|]; reflexivity.
Qed.

(** Three trades that leave the balance where it was: every return is
    0, so is their standard deviation, and the Sharpe ratio is 0. *)
Example flat_equity_sharpe_zero :
  exists r,
    run_backtest Scenario.numpy6 (list (option trade)) Scenario.scripted
      [Some (Scenario.trade_with 0 10); Some (Scenario.trade_with 0 15);
       Some (Scenario.trade_with 0 20)]
      (map parse_signal [Scenario.scenario_a; Scenario.scenario_a; Scenario.scenario_a])
      Scenario.no_settings 1000
    = Py.Ok r
    /\ (exists returns,
          returns_loop 1000 (map e_balance (equity_curve r)) = Py.Ok returns
          /\ Forall (fun x => x == 0) returns
          /\ np_std Scenario.numpy6 returns == 0)
    /\ sharpe_ratio r = 0 /\ max_drawdown r == 0.
Proof.
  eexists. split; [vm_compute; reflexivity|]. cbn. split.
  - eexists. split; [vm_compute; reflexivity|].
    split; [repeat constructor|]; vm_compute; reflexivity.
  - split; vm_compute; reflexivity.
Qed.

(** *** Counting wins and losses *)

Lemma filter_split {A : Type} (f : A -> bool) (l : list A) :
  Permutation (filter f l ++ filter (fun x => negb (f x)) l) l.
Proof.
  induction l as [|x tl IH]; simpl; [constructor|].
  destruct (f x); simpl.
  - now constructor.
  - symmetry. apply Permutation_cons_app. now symmetry.
Qed.

Lemma leb_is_not_ltb (x : Q) : Py.leb x 0 = negb (Py.ltb 0 x).
Proof. unfold Py.ltb, Py.leb. now rewrite negb_involutive. Qed.

Lemma filter_map_pnl (f : Q -> bool) (l : list trade) :
  filter f (map pnl l) = map pnl (filter (fun t => f (pnl t)) l).
Proof.
  induction l as [|t tl IH]; simpl; [reflexivity|].
  destruct (f (pnl t)); simpl; now rewrite IH.
Qed.

(** C10: the report of a run lists the trades the run completed, in
    order; these split into the winning ones, with pnl > 0, and the
    losing ones, with pnl <= 0; [winning_trades] and [losing_trades]
    are the sizes of the two classes and add up to [total_trades]; a
    completed trade with pnl 0 is among the losing ones; the lists
    [_calculate_metrics] builds are the pnl values of the same two
    classes. *)
Theorem C10_wins_and_losses_partition_trades
  (np : numpy) (world : Type)
  (_simulate_trade : world -> signal -> settings -> Q -> world * option trade)
  (w : world) (signals : list signal) (st : settings) (initial : Q) :
  ~ initial == 0 ->
  exists r wins losses,
    run_backtest np world _simulate_trade w signals st initial = Py.Ok r
    /\ trade_history r = completed world _simulate_trade w signals st initial
    /\ wins = filter (fun t => Py.ltb 0 (pnl t)) (trade_history r)
    /\ losses = filter (fun t => Py.leb (pnl t) 0) (trade_history r)
    /\ Permutation (wins ++ losses) (trade_history r)
    /\ Forall (fun t => 0 < pnl t) wins
    /\ Forall (fun t => pnl t <= 0) losses
    /\ (forall t, In t (trade_history r) -> pnl t == 0 -> In t losses)
    /\ (forall t, In t (trade_history r) -> 0 < pnl t -> In t wins)
    /\ winning_trades r = length wins
    /\ losing_trades r = length losses
    /\ total_trades r = length (trade_history r)
    /\ (winning_trades r + losing_trades r = total_trades r)%nat
    /\ positive (map pnl (trade_history r)) = map pnl wins
    /\ non_positive (map pnl (trade_history r)) = map pnl losses.
Proof.
  intro H0.
  destruct (run_backtest_report np world _simulate_trade w signals st
              initial H0)
    as [r [Hr [Hloop [_ [_ [_ [Ht [Hw Hl]]]]]]]].
  set (won := fun t => Py.ltb 0 (pnl t)).
  set (lost := fun t => Py.leb (pnl t) 0).
  assert (Hlost : filter lost (trade_history r)
                  = filter (fun t => negb (won t)) (trade_history r)).
  { apply filter_ext. intro t. apply leb_is_not_ltb. }
  assert (Hp : Permutation (filter won (trade_history r)
                            ++ filter lost (trade_history r))
                 (trade_history r)).
  { rewrite Hlost. apply filter_split. }
  exists r, (filter won (trade_history r)), (filter lost (trade_history r)).
  split; [exact Hr|].
  split.
  { rewrite (signal_loop_completed world _simulate_trade signals st w initial
               [] []) in Hloop.
    cbv zeta in Hloop. cbn [app] in Hloop. now injection Hloop as _ <- _. }
  split; [reflexivity|]. split; [reflexivity|].
  split; [exact Hp|].
  split; [apply Forall_forall; intros t Hin; apply filter_In in Hin;
          now apply ltb_lt|].
  split; [apply Forall_forall; intros t Hin; apply filter_In in Hin;
          now apply leb_le|].
  split.
  { intros t Hin E. apply filter_In. split; [exact Hin|].
    apply leb_le. rewrite E. apply Qle_refl. }
  split.
  { intros t Hin E. apply filter_In. split; [exact Hin|]. now apply ltb_lt. }
  split; [exact Hw|]. split; [exact Hl|]. split; [exact Ht|].
  split.
  { rewrite Hw, Hl, Ht. unfold count. fold won. fold lost.
    rewrite <- length_app. now apply Permutation_length. }
  split; apply filter_map_pnl.
Qed.

(** Three completed trades, with pnl 50, 0 and -30: one is counted as
    winning, two as losing. *)
Lemma C10_wins_and_losses_partition_trades_witness :
  exists r,
    run_backtest Scenario.numpy6 (list (option trade)) Scenario.scripted
      [Some (Scenario.trade_with 50 10); Some (Scenario.trade_with 0 15);
       Some (Scenario.trade_with (-30) 20)]
      (map parse_signal [Scenario.scenario_a; Scenario.scenario_a; Scenario.scenario_a])
      Scenario.no_settings 1000
    = Py.Ok r
    /\ trade_history r
       = [Scenario.trade_with 50 10; Scenario.trade_with 0 15;
          Scenario.trade_with (-30) 20]
    /\ winning_trades r = 1%nat
    /\ losing_trades r = 2%nat
    /\ total_trades r = 3%nat.
Proof.
  destruct (C10_wins_and_losses_partition_trades Scenario.numpy6
              (list (option trade)) Scenario.scripted
              [Some (Scenario.trade_with 50 10);
               Some (Scenario.trade_with 0 15);
               Some (Scenario.trade_with (-30) 20)]
              (map parse_signal [Scenario.scenario_a; Scenario.scenario_a;
                                 Scenario.scenario_a])
              Scenario.no_settings 1000)
    as [r [wins [losses [Hr [Hc [Ew [El [_ [_ [_ [_ [_ [Hw [Hl [Ht _]]]]]]]]]]]]]]].
  - intro H. vm_compute in H. discriminate.
  - exists r. split; [exact Hr|].
    assert (Hh : trade_history r
                 = [Scenario.trade_with 50 10; Scenario.trade_with 0 15;
                    Scenario.trade_with (-30) 20]).
    { rewrite Hc. reflexivity. }
    split; [exact Hh|].
    rewrite Hw, Hl, Ht, Ew, El, Hh. repeat split.
Defined.

(** A trade with pnl exactly 0 is counted as losing: one win, two
    losses, three trades. *)
Example zero_pnl_counts_as_loss :
  exists r,
    run_backtest Scenario.numpy6 (list (option trade)) Scenario.scripted
      [Some (Scenario.trade_with 50 10); Some (Scenario.trade_with 0 15);
       Some (Scenario.trade_with (-30) 20)]
      (map parse_signal [Scenario.scenario_a; Scenario.scenario_a; Scenario.scenario_a])
      Scenario.no_settings 1000
    = Py.Ok r
    /\ winning_trades r = 1%nat /\ losing_trades r = 2%nat
    /\ total_trades r = 3%nat.
Proof. eexists. split; [vm_compute; reflexivity|]. cbn. repeat split. Qed.

End BacktestFacts.

(** ** Where rounding decides *)

Module RoundingFacts.

Import PrimFloat.
Local Set Warnings "-inexact-float".

(** C7, as stated, fails on floats: for the range 0.1-0.5 the second
    point the code adds is 0.30000000000000004, which is neither
    (A + B)/2 computed on the same floats nor the float 0.3, so in a
    text that also names 0.3 it stays a zone of its own. *)
Lemma C7_midpoint_is_rounded_counterexample :
  ltb 0.1 0.5 = true
  /\ F64.range_points 0.1 0.5 = [0.1; 0.30000000000000004; 0.5]%float
  /\ ((0.1 + 0.5) / 2 = 0.3)%float
  /\ nth 1 (F64.range_points 0.1 0.5) 0%float <> ((0.1 + 0.5) / 2)%float
  /\ eqb (nth 1 (F64.range_points 0.1 0.5) 0%float) 0.3 = false.
Proof.
  split; [vm_compute; reflexivity|]. split; [vm_compute; reflexivity|].
  split; [vm_compute; reflexivity|]. split; [|vm_compute; reflexivity].
  intro H. apply (f_equal (fun x => eqb x 0.3)) in H.
  vm_compute in H. discriminate.
Qed.


End RoundingFacts.

(** ** Live execution *)

Module ExecutionFacts.

Import TelegramSignalParser BitunixTradeManager.

(** *** Sizing *)

(** C2, as stated, fails in the guard: the base-multiplier function has
    no balance to look at and returns the base size itself, 10 here,
    where min(defaultSize, balance*0.1) is 5 for a balance of 50.  It
    also fails where entry and stop coincide: the code returns the base
    size, not the capped quotient. *)
Lemma C2_guard_returns_base_size_counterexample :
  (_calculate_position_size 10 2 (Some 100) None == 10
   /\ ~ _calculate_position_size 10 2 (Some 100) None
        == Qmin 10 (50 * (1 # 10)))
  /\ (_calculate_position_size 10 2 (Some 100) (Some 100) == 10
      /\ ~ _calculate_position_size 10 2 (Some 100) (Some 100)
           == Qmin ((2 / 100) / (Qabs (100 - 100) / 100) * 10) (10 * 5)).
Proof.
  split; split; try (vm_compute; reflexivity);
    intro H; vm_compute in H; discriminate.
Qed.

(** C2, amended: the base-multiplier size is defaultSize whenever the
    stop or the entry price is missing or not positive (the same test
    as balance-at-risk), and also when both are positive and equal;
    when both are positive and differ it is
    (riskPct/100)/riskPerUnit * defaultSize with riskPerUnit =
    |entry-stop|/entry, capped at defaultSize*5. *)
Theorem C2_base_multiplier_size
  (base_size risk : Q) (entry_price stop_loss : option Q) :
  (BacktestEngine.missing_or_non_positive entry_price
   \/ BacktestEngine.missing_or_non_positive stop_loss ->
   _calculate_position_size base_size risk entry_price stop_loss = base_size)
  /\ (forall entry stop,
        entry_price = Some entry -> stop_loss = Some stop ->
        0 < entry -> 0 < stop ->
        let risk_per_unit := Qabs (entry - stop) / entry in
        (~ entry == stop ->
         _calculate_position_size base_size risk entry_price stop_loss
         == Qmin ((risk / 100) / risk_per_unit * base_size) (base_size * 5))
        /\ (entry == stop ->
            _calculate_position_size base_size risk entry_price stop_loss
            = base_size)).
Proof.
  split.
  - intro H. unfold _calculate_position_size.
    now rewrite BacktestFacts.usable_prices_none.
  - intros entry stop -> -> He Hs rpu.
    unfold _calculate_position_size.
    rewrite BacktestFacts.usable_prices_some by assumption.
    fold rpu. split; intro H.
    + assert (Hr : 0 < rpu) by (now apply BacktestFacts.risk_per_unit_pos).
      apply ltb_lt in Hr. rewrite Hr. apply py_min_Qmin.
    + assert (Hr : Py.ltb 0 rpu = false).
      { apply ltb_ge. apply Qnot_lt_le. intro Hr.
        now apply BacktestFacts.risk_per_unit_pos in Hr. }
      now rewrite Hr.
Qed.

Lemma C2_base_multiplier_size_witness :
  _calculate_position_size 10 2 (Some 100) None = 10
  /\ _calculate_position_size 10 2 (Some 100) (Some 95)
     == Qmin ((2 / 100) / (Qabs (100 - 95) / 100) * 10) (10 * 5).
Proof.
  split.
  - apply (proj1 (C2_base_multiplier_size 10 2 (Some 100) None)).
    right. exact I.
  - apply (proj2 (C2_base_multiplier_size 10 2 (Some 100) (Some 95))
             100 95 eq_refl eq_refl).
    + reflexivity.
    + reflexivity.
    + intro H. vm_compute in H. discriminate.
Defined.

(** *** Placing the ladders *)

Section GatewayFacts.

Variable api : Type.
Variable response : Type.
Variable set_leverage : api -> string -> Z -> string -> api * Py.result response.
Variable place_order : api -> order_request -> api * Py.result response.

Lemma send_all_app (a : api) (l1 l2 : list order_request) :
  send_all api response place_order a (l1 ++ l2)
  = send_all api response place_order
      (send_all api response place_order a l1) l2.
Proof. unfold send_all. apply fold_left_app. Qed.

(** The loop sends every request, and keeps the accepted responses. *)
Lemma place_loop_all (a : api) (requests : list order_request)
  (orders : list response) :
  place_loop api response place_order a requests orders
  = (send_all api response place_order a requests,
     orders ++ accepted api response place_order a requests).
Proof.
  revert a orders. induction requests as [|rq tl IH]; intros a orders; simpl.
  - now rewrite app_nil_r.
  - unfold send_all. simpl.
    destruct (place_order a rq) as [a' [order | e]]; simpl; rewrite IH.
    + now rewrite <- app_assoc.
    + reflexivity.
Qed.

Lemma ladder_nil (symbol side_ : string) (distribution : list Q) (total : Q)
  (reduce : bool) :
  ladder symbol side_ [] distribution total reduce = [].
Proof. reflexivity. Qed.

Lemma place_entry_all (a : api) (f : fields) (st : settings) :
  _place_entry_orders api response place_order a (symbol_of f)
    (position_type f) (entry_zones f) (sized f st) st
  = (send_all api response place_order a (entry_requests f st),
     accepted api response place_order a (entry_requests f st)).
Proof.
  unfold _place_entry_orders, entry_requests.
  destruct (entry_zones f) as [|e tl]; [reflexivity|].
  now rewrite place_loop_all.
Qed.

Lemma place_target_all (a : api) (f : fields) (st : settings) :
  _place_target_orders api response place_order a (symbol_of f)
    (position_type f) (targets f) (sized f st) st
  = (send_all api response place_order a (target_requests f st),
     accepted api response place_order a (target_requests f st)).
Proof.
  unfold _place_target_orders, target_requests.
  destruct (targets f) as [|e tl]; [reflexivity|].
  now rewrite place_loop_all.
Qed.

Lemma place_stop_all (a : api) (f : fields) (st : settings) :
  _place_stop_loss_order api response place_order a (symbol_of f)
    (position_type f) (stop_loss f) (sized f st)
  = (send_all api response place_order a (stop_requests f st),
     hd_error (accepted api response place_order a (stop_requests f st))).
Proof.
  unfold _place_stop_loss_order, stop_requests.
  destruct (stop_loss f) as [stop|]; [|reflexivity].
  destruct (Py.falsy (Some stop)); [reflexivity|].
  unfold send_all. simpl.
  now destruct (place_order a _) as [a' [order | e]].
Qed.

End GatewayFacts.

(** C5: once [set_leverage] has returned, [execute_signal] reports
    success whatever the exchange answers to the orders, and every
    request of the entry ladder, then of the target ladder, then the
    stop request has been sent: an order that raises is dropped from
    the result and the next one is placed all the same. *)
Theorem C5_order_failures_do_not_abort
  (api response : Type)
  (set_leverage : api -> string -> Z -> string -> api * Py.result response)
  (place_order : api -> order_request -> api * Py.result response)
  (a a1 : api) (ok : response) (raw : pyobj) (f : fields)
  (errors : list string) (parsed : bool) (st : settings) :
  set_leverage a (symbol_of f) (leverage f) (margin_mode f) = (a1, Py.Ok ok) ->
  let send := send_all api response place_order in
  let got := accepted api response place_order in
  let a2 := send a1 (entry_requests f st) in
  let a3 := send a2 (target_requests f st) in
  let result :=
    execute_signal api response set_leverage place_order a
      (Parsed raw f errors parsed) st in
  success response (snd result) = true
  /\ fst result
     = send a1 (entry_requests f st ++ target_requests f st
                ++ stop_requests f st)
  /\ snd result
     = Executed response (symbol_of f) (position_type f) (sized f st)
         (leverage f)
         (got a1 (entry_requests f st))
         (got a2 (target_requests f st))
         (hd_error (got a3 (stop_requests f st))).
Proof.
  intros Hlev send got a2 a3 result.
  assert (E : result
              = (send a3 (stop_requests f st),
                 Executed response (symbol_of f) (position_type f)
                   (sized f st) (leverage f)
                   (got a1 (entry_requests f st))
                   (got a2 (target_requests f st))
                   (hd_error (got a3 (stop_requests f st))))).
  { unfold result, execute_signal, execute_body. rewrite Hlev.
    rewrite place_entry_all, place_target_all, place_stop_all.
    reflexivity. }
  rewrite E. cbn [fst snd success]. split; [reflexivity|].
  split; [|reflexivity].
  unfold a3, a2, send. now rewrite !send_all_app.
Qed.

(** Scenario A against an exchange that refuses every order: the result
    still reports success, with no order in it, and all seven requests
    were sent. *)
Lemma C5_order_failures_do_not_abort_witness :
  exists f errors,
    parse_signal Scenario.scenario_a = Parsed Scenario.scenario_a f errors true
    /\ let result :=
         execute_signal (list order_request) nat Scenario.accepting_leverage
           Scenario.refusing_place [] (Parsed Scenario.scenario_a f errors true)
           Scenario.no_settings in
       success nat (snd result) = true
       /\ fst result
          = entry_requests f Scenario.no_settings
            ++ target_requests f Scenario.no_settings
            ++ stop_requests f Scenario.no_settings
       /\ length (fst result) = 7%nat.
Proof.
  eexists. eexists. split; [vm_compute; reflexivity|].
  cbv zeta.
  match goal with
  | |- context [execute_signal _ _ _ _ _ (Parsed ?raw ?f ?errors ?parsed) ?st] =>
      destruct (C5_order_failures_do_not_abort (list order_request) nat
                  Scenario.accepting_leverage Scenario.refusing_place
                  [] [] 0%nat raw f errors parsed st eq_refl)
        as [Hs [Hsent _]]
  end.
  split; [exact Hs|]. split.
  - rewrite Hsent. vm_compute. reflexivity.
  - rewrite Hsent. vm_compute. reflexivity.
Defined.

(** When [set_leverage] raises, or the signal is the short dictionary of
    a failed parse, nothing is placed and the result reports failure. *)
Lemma top_level_failure_reported
  (api response : Type)
  (set_leverage : api -> string -> Z -> string -> api * Py.result response)
  (place_order : api -> order_request -> api * Py.result response)
  (a : api) (st : settings) :
  (forall raw errors parsed,
     execute_signal api response set_leverage place_order a
       (Failed raw errors parsed) st
     = (a, NotExecuted response "'coin'"))
  /\ (forall raw f errors parsed a1 e,
        set_leverage a (symbol_of f) (leverage f) (margin_mode f)
        = (a1, Py.Raise e) ->
        execute_signal api response set_leverage place_order a
          (Parsed raw f errors parsed) st
        = (a1, NotExecuted response e)).
Proof.
  split; [reflexivity|].
  intros raw f errors parsed a1 e H.
  unfold execute_signal, execute_body. now rewrite H.
Qed.

(** Scenario A against an exchange that accepts every second order:
    seven requests sent, the three accepted ones reported. *)
Example partial_ladder_placed :
  exists f errors symbol side_ size_ lev entries targets_ stop,
    parse_signal Scenario.scenario_a = Parsed Scenario.scenario_a f errors true
    /\ execute_signal (list order_request) nat Scenario.accepting_leverage
         Scenario.flaky_place [] (Parsed Scenario.scenario_a f errors true)
         Scenario.no_settings
       = (entry_requests f Scenario.no_settings
          ++ target_requests f Scenario.no_settings
          ++ stop_requests f Scenario.no_settings,
          Executed nat symbol side_ size_ lev
            entries targets_ stop)
    /\ entries = [1%nat] /\ targets_ = [3%nat; 5%nat] /\ stop = None.
Proof.
  do 9 eexists. split; [vm_compute; reflexivity|].
  split; [vm_compute; reflexivity|]. repeat split.
Qed.

End ExecutionFacts.

(** ** The matcher *)

Module MatcherFacts.

Import Re.

Lemma for_all_ascii (P : ascii -> bool) :
  forallb P all_ascii = true -> forall c, P c = true.
Proof.
  intros H c. rewrite forallb_forall in H. apply H.
  rewrite <- (ascii_nat_embedding c). apply in_map, in_seq.
  pose proof (nat_ascii_bounded c). lia.
Qed.

Lemma read_app (st : mstate) (w tl : list ascii) :
  rest st = w ++ tl ->
  rest (read st w) = tl
  /\ pos (read st w) = (pos st + length w)%nat
  /\ grp (read st w) = grp st.
Proof.
  revert st. induction w as [|c w IH]; intros st H; simpl.
  - repeat split; [exact H | lia].
  - destruct (IH (MState (S (pos st)) (Some c) (List.tl (rest st)) (grp st)))
      as [H1 [H2 H3]].
    { simpl. now rewrite H. }
    simpl in *. repeat split; [exact H1 | lia | exact H3].
Qed.

(** The greedy loop stops after a run of characters of the class whose
    length is within the bounds. *)
Lemma rep_sound (ic : bool) (cs : charset) (l : list ascii) :
  forall lo hi p pv g k res,
    rep ic cs lo hi p pv g l k = Some res ->
    exists w tl,
      l = w ++ tl
      /\ Forall (fun c => in_charset ic cs c = true) w
      /\ (lo <= length w)%nat
      /\ match hi with Some h => (length w <= h)%nat | None => True end
      /\ k (read (MState p pv l g) w) = Some res.
Proof.
  induction l as [|c tl IH]; intros lo hi p pv g k res H.
  - simpl in H. destruct lo; [|discriminate].
    exists [], [].
    refine (conj eq_refl (conj (Forall_nil _) (conj (le_n _) (conj _ H)))).
    destruct hi; [simpl; lia | exact I].
  - simpl in H.
    assert (Hstop : match lo with
                    | O => k (MState p pv (c :: tl) g)
                    | S _ => None
                    end = Some res ->
                    exists w tl0,
                      c :: tl = w ++ tl0
                      /\ Forall (fun c => in_charset ic cs c = true) w
                      /\ (lo <= length w)%nat
                      /\ match hi with
                         | Some h => (length w <= h)%nat
                         | None => True
                         end
                      /\ k (read (MState p pv (c :: tl) g) w) = Some res).
    { intro Hs. destruct lo; [|discriminate].
      exists [], (c :: tl).
      refine (conj eq_refl (conj (Forall_nil _) (conj (le_n _) (conj _ Hs)))).
      destruct hi; [simpl; lia | exact I]. }
    destruct (in_charset ic cs c) eqn:Ec; [|now apply Hstop].
    destruct (match hi with Some O => false | _ => true end) eqn:Em;
      [|now apply Hstop].
    simpl in H.
    destruct (rep ic cs (Nat.pred lo) (option_map Nat.pred hi) (S p) (Some c)
                g tl k) as [st|] eqn:Er; [|now apply Hstop].
    injection H as <-.
    apply IH in Er. destruct Er as [w [tl0 [E [Hall [Hlo [Hhi Hk]]]]]].
    exists (c :: w), tl0. subst tl.
    split; [reflexivity|]. split; [now constructor|].
    split; [simpl; lia|]. split; [|exact Hk].
    destruct hi as [[|h]|]; simpl in *; try discriminate; try exact I. lia.
Qed.

(** Soundness of the matcher: when [run] succeeds, the pattern matches
    up to some state and the continuation succeeds from there. *)
Lemma run_sound (ic : bool) (r : regex) :
  forall st k res,
    run ic r st k = Some res ->
    exists st', accepts ic r st st' /\ k st' = Some res.
Proof.
  induction r as [|cs|cs lo hi|r1 IH1 r2 IH2|r1 IH1 r2 IH2|r1 IH1|r1 IH1|];
    intros st k res H; simpl in H.
  - exists st. split; [constructor | exact H].
  - destruct (rest st) as [|c tl] eqn:E; [discriminate|].
    destruct (in_charset ic cs c) eqn:Ec; [|discriminate].
    exists (read st [c]). split; [now apply acc_one with tl|].
    simpl. rewrite E. exact H.
  - apply rep_sound in H. destruct H as [w [tl [E [Hall [Hlo [Hhi Hk]]]]]].
    exists (read st w). split.
    + now apply acc_rep with tl.
    + destruct st; exact Hk.
  - apply IH1 in H. destruct H as [mid [H1 H]].
    apply IH2 in H. destruct H as [st' [H2 H]].
    exists st'. split; [now apply acc_seq with mid | exact H].
  - destruct (run ic r1 st k) as [x|] eqn:E1.
    + injection H as <-. apply IH1 in E1. destruct E1 as [st' [H1 Hk]].
      exists st'. split; [now apply acc_alt_l | exact Hk].
    + apply IH2 in H. destruct H as [st' [H2 Hk]].
      exists st'. split; [now apply acc_alt_r | exact Hk].
  - destruct (run ic r1 st k) as [x|] eqn:E1.
    + injection H as <-. apply IH1 in E1. destruct E1 as [st' [H1 Hk]].
      exists st'. split; [now apply acc_opt_some | exact Hk].
    + exists st. split; [apply acc_opt_none | exact H].
  - apply IH1 in H. destruct H as [st' [H1 Hk]].
    eexists. split; [apply acc_grp; exact H1 | exact Hk].
  - destruct (at_boundary st) eqn:E; [|discriminate].
    exists st. split; [now apply acc_wordb | exact H].
Qed.

(** A match reads a piece of the text and moves the position by its
    length. *)
Lemma accepts_span (ic : bool) (r : regex) (st st' : mstate) :
  accepts ic r st st' ->
  exists w, rest st = w ++ rest st'
            /\ pos st' = (pos st + length w)%nat.
Proof.
  induction 1 as [st|cs st c tl E Hc|cs lo hi st w tl E Hall Hlo Hhi
                 |r1 r2 st mid st' _ IH1 _ IH2|r1 r2 st st' _ IH
                 |r1 r2 st st' _ IH|r st st' _ IH|r st|r st st' _ IH|st Hb].
  - exists []. split; [reflexivity | simpl; lia].
  - exists [c]. simpl. rewrite E. split; [reflexivity | simpl; lia].
  - exists w. destruct (read_app st w tl E) as [H1 [H2 _]].
    rewrite H1. split; [exact E | exact H2].
  - destruct IH1 as [w1 [E1 P1]], IH2 as [w2 [E2 P2]].
    exists (w1 ++ w2). rewrite E1, E2, <- app_assoc, length_app.
    split; [reflexivity | simpl; lia].
  - exact IH.
  - exact IH.
  - exact IH.
  - exists []. split; [reflexivity | simpl; lia].
  - exact IH.
  - exists []. split; [reflexivity | simpl; lia].
Qed.

(** A pattern without a group leaves group 1 as it was. *)
Lemma accepts_keeps_group (ic : bool) (r : regex) (st st' : mstate) :
  has_group r = false -> accepts ic r st st' -> grp st' = grp st.
Proof.
  intros Hg H.
  induction H as [st|cs st c tl E Hc|cs lo hi st w tl E Hall Hlo Hhi
                 |r1 r2 st mid st' _ IH1 _ IH2|r1 r2 st st' _ IH
                 |r1 r2 st st' _ IH|r st st' _ IH|r st|r st st' _ IH|st Hb];
    simpl in Hg; try reflexivity; try discriminate.
  - now destruct (read_app st w tl E) as [_ [_ H3]].
  - apply orb_false_iff in Hg. destruct Hg as [G1 G2].
    now rewrite IH2, IH1.
  - apply orb_false_iff in Hg. now apply IH.
  - apply orb_false_iff in Hg. now apply IH.
  - now apply IH.
Qed.

(** The group holds exactly the piece its pattern read. *)
Lemma accepts_group (ic : bool) (r : regex) (st st' : mstate) :
  accepts ic (Grp r) st st' ->
  exists mid w,
    accepts ic r st mid /\ rest st = w ++ rest mid
    /\ grp st' = Some (Str.of_chars w).
Proof.
  intro H. inversion H as [| | | | | | | |r0 st0 mid Hr|]; subst.
  destruct (accepts_span _ _ _ _ Hr) as [w [E P]].
  exists mid, w. split; [exact Hr|]. split; [exact E|]. simpl.
  rewrite P, E. replace (pos st + length w - pos st)%nat with (length w) by lia.
  now rewrite firstn_app, Nat.sub_diag, firstn_all, firstn_O, app_nil_r.
Qed.

(** A literal reads its own characters, up to case when the case is
    ignored. *)
Lemma accepts_lit (ic : bool) (s : string) (st st' : mstate) :
  accepts ic (lit s) st st' ->
  exists w, rest st = w ++ rest st'
            /\ Forall2 (fun c x => in_charset ic (CChar x) c = true)
                 w (Str.chars s).
Proof.
  unfold lit. generalize (Str.chars s) as l. intro l. revert st.
  induction l as [|x l IH]; intros st H; simpl in H.
  - inversion H; subst. exists []. split; [reflexivity | constructor].
  - inversion H as [| | |r1 r2 st0 mid st0' H1 H2| | | | | |]; subst.
    inversion H1 as [|cs st0 c tl E Hc| | | | | | | |]; subst.
    apply IH in H2. destruct H2 as [w [E2 F]].
    exists (c :: w). simpl in E2. rewrite E in E2. simpl in E2.
    split; [rewrite E; simpl; now rewrite E2 | now constructor].
Qed.

(** Ignoring case, a character matches an upper-case letter only if it
    is that letter in either case. *)
Lemma ignorecase_upper (x c : ascii) :
  Str.is_upper x = true -> in_charset true (CChar x) c = true ->
  Str.upper_char c = x.
Proof.
  intros Hx Hc.
  assert (H : forall x c,
             implb (Str.is_upper x && in_charset true (CChar x) c)
                   (Ascii.eqb (Str.upper_char c) x) = true).
  { intro x0. apply for_all_ascii. revert x0. apply for_all_ascii.
    vm_compute. reflexivity. }
  specialize (H x c). rewrite Hx, Hc in H. simpl in H.
  now apply Ascii.eqb_eq.
Qed.

Lemma ignorecase_word (w l : list ascii) :
  forallb Str.is_upper l = true ->
  Forall2 (fun c x => in_charset true (CChar x) c = true) w l ->
  map Str.upper_char w = l.
Proof.
  intros Hu F. induction F as [|c x w l Hc _ IH]; [reflexivity|].
  simpl in Hu. apply andb_true_iff in Hu. destruct Hu as [Hx Hl].
  simpl. now rewrite (ignorecase_upper x c), IH.
Qed.

(** What a search returns was accepted from some position on, and
    group 1 is what the final state holds. *)
Lemma search_from_sound (ic : bool) (r : regex) (l : list ascii) :
  forall p pv m,
    search_from ic r p pv l = Some m ->
    exists st st', accepts ic r st st' /\ group1 m = grp st'
                   /\ grp st = None.
Proof.
  induction l as [|c tl IH]; intros p pv m H; simpl in H.
  - unfold match_at in H.
    destruct (run ic r (MState p pv [] None) Some) as [st'|] eqn:E;
      [|discriminate].
    injection H as <-. apply run_sound in E. destruct E as [x [Ha Hx]].
    injection Hx as ->. eexists. eexists. split; [exact Ha|]. split; reflexivity.
  - unfold match_at in H.
    destruct (run ic r (MState p pv (c :: tl) None) Some) as [st'|] eqn:E.
    + injection H as <-. apply run_sound in E. destruct E as [x [Ha Hx]].
      injection Hx as ->. eexists. eexists.
      split; [exact Ha|]. split; reflexivity.
    + now apply IH in H.
Qed.

Lemma captures_seq_r (ic : bool) (a b : regex) (P : list ascii -> Prop) :
  captures ic b P -> captures ic (Seq a b) P.
Proof.
  intros Hb st st' H.
  inversion H as [| | |r1 r2 st0 mid st0' H1 H2| | | | | |]; subst.
  now apply Hb with mid.
Qed.

Lemma captures_seq_l (ic : bool) (a b : regex) (P : list ascii -> Prop) :
  captures ic a P -> has_group b = false -> captures ic (Seq a b) P.
Proof.
  intros Ha Hb st st' H.
  inversion H as [| | |r1 r2 st0 mid st0' H1 H2| | | | | |]; subst.
  destruct (Ha _ _ H1) as [w [E Pw]]. exists w. split; [|exact Pw].
  now rewrite (accepts_keeps_group ic b mid st' Hb H2).
Qed.

Lemma captures_alt (ic : bool) (a b : regex) (P : list ascii -> Prop) :
  captures ic a P -> captures ic b P -> captures ic (Alt a b) P.
Proof.
  intros Ha Hb st st' H.
  inversion H as [| | | |r1 r2 st0 st0' H1|r1 r2 st0 st0' H1| | | |]; subst;
    [now apply Ha with st | now apply Hb with st].
Qed.

Lemma captures_weaken (ic : bool) (r : regex) (P Q : list ascii -> Prop) :
  captures ic r P -> (forall w, P w -> Q w) -> captures ic r Q.
Proof.
  intros Hr HPQ st st' H. destruct (Hr _ _ H) as [w [E Pw]].
  exists w. split; [exact E | now apply HPQ].
Qed.

(** A group around literals in capitals holds one of them, in any
    case. *)
Lemma captures_literal (s : string) :
  forallb Str.is_upper (Str.chars s) = true ->
  captures true (Grp (lit s))
    (fun w => map Str.upper_char w = Str.chars s).
Proof.
  intros Hu st st' H.
  destruct (accepts_group _ _ _ _ H) as [mid [w [Hr [E G]]]].
  exists w. split; [exact G|].
  destruct (accepts_lit _ _ _ _ Hr) as [w' [E' F]].
  rewrite E in E'. apply app_inv_tail in E'. subst w'.
  now apply ignorecase_word.
Qed.

Lemma captures_literals (s1 s2 : string) :
  forallb Str.is_upper (Str.chars s1) = true ->
  forallb Str.is_upper (Str.chars s2) = true ->
  captures true (Grp (Alt (lit s1) (lit s2)))
    (fun w => map Str.upper_char w = Str.chars s1
              \/ map Str.upper_char w = Str.chars s2).
Proof.
  intros H1 H2 st st' H.
  destruct (accepts_group _ _ _ _ H) as [mid [w [Hr [E G]]]].
  exists w. split; [exact G|].
  inversion Hr as [| | | |r1 r2 st0 st0' Ha|r1 r2 st0 st0' Ha| | | |]; subst;
    destruct (accepts_lit _ _ _ _ Ha) as [w' [E' F]];
    rewrite E in E'; apply app_inv_tail in E'; subst w';
    [left | right]; now apply ignorecase_word.
Qed.

(** What a successful search hands to [group(1)]. *)
Lemma search_captures (r : regex) (P : list ascii -> Prop) (text : string)
  (m : rmatch) :
  captures true r P -> search true r text = Some m ->
  exists w, group m = Str.of_chars w /\ P w.
Proof.
  intros Hc Hs. unfold search in Hs.
  apply search_from_sound in Hs. destruct Hs as [st [st' [Ha [G _]]]].
  destruct (Hc _ _ Ha) as [w [E Pw]]. exists w. split; [|exact Pw].
  unfold group. now rewrite G, E.
Qed.

End MatcherFacts.

(** ** What a parse can hold *)

Module ParserInvariants.

Import Re TelegramSignalParser MatcherFacts.

(** *** The side *)

Lemma position_patterns_capture :
  Forall (fun p => captures true p side_word) position_patterns.
Proof.
  assert (HL : forallb Str.is_upper (Str.chars "LONG") = true) by reflexivity.
  assert (HS : forallb Str.is_upper (Str.chars "SHORT") = true) by reflexivity.
  assert (Hside : captures true side_group side_word).
  { exact (captures_literals "LONG" "SHORT" HL HS). }
  assert (Hlast : forall r, captures true r side_word ->
                            captures true (Seq r Eps) side_word).
  { intros r Hr. now apply captures_seq_l. }
  unfold position_patterns, cat. cbn [fold_right].
  repeat constructor.
  - apply captures_seq_r, captures_seq_r, Hlast, Hside.
  - apply captures_seq_l; [exact Hside | reflexivity].
  - apply captures_seq_r, Hlast, Hside.
  - apply captures_seq_r, captures_seq_r, Hlast.
    eapply captures_weaken; [exact (captures_literal "LONG" HL)|].
    intros w Hw. now left.
  - apply captures_seq_r, captures_seq_r, Hlast.
    eapply captures_weaken; [exact (captures_literal "SHORT" HS)|].
    intros w Hw. now right.
Qed.

Lemma upper_of_chars (w : list ascii) :
  Str.upper (Str.of_chars w) = Str.of_chars (map Str.upper_char w).
Proof. unfold Str.upper. now rewrite ParserFacts.chars_of_chars. Qed.

Lemma position_loop_side (ps : list regex) (text s : string) :
  Forall (fun p => captures true p side_word) ps ->
  position_loop ps text = Some s ->
  s = "LONG"%string \/ s = "SHORT"%string.
Proof.
  induction 1 as [|p ps Hp _ IH]; simpl; [discriminate|].
  destruct (search true p text) as [m|] eqn:E; [|exact IH].
  intro H. injection H as <-.
  destruct (search_captures p side_word text m Hp E) as [w [G [Hw | Hw]]];
    rewrite G, upper_of_chars, Hw; [left | right]; reflexivity.
Qed.

(** A side that was found is not the empty string. *)
Lemma side_missing_iff_none (text : string) :
  no_str (_extract_position_type text) = true
  <-> _extract_position_type text = None.
Proof.
  destruct (_extract_position_type text) as [s|] eqn:E; [|simpl; tauto].
  apply position_loop_side in E; [|apply position_patterns_capture].
  destruct E as [-> | ->]; simpl; split; discriminate.
Qed.

(** X1: The side of a parse is LONG, SHORT or missing, whatever the text
    and in whatever case the word was written. *)
Theorem position_type_is_long_or_short (text : string) :
  _extract_position_type text = None
  \/ _extract_position_type text = Some "LONG"%string
  \/ _extract_position_type text = Some "SHORT"%string.
Proof.
  destruct (_extract_position_type text) as [s|] eqn:E; [|now left].
  right. apply position_loop_side in E; [|apply position_patterns_capture].
  destruct E as [-> | ->]; [now left | now right].
Qed.

(** *** The coin *)

Lemma string_length_chars (s : string) :
  String.length s = length (Str.chars s).
Proof. induction s as [|c s IH]; simpl; [reflexivity | now rewrite IH]. Qed.

Lemma upper_alpha_is_upper (c : ascii) :
  Str.is_alpha (Str.upper_char c) = true ->
  Str.is_upper (Str.upper_char c) = true.
Proof.
  assert (H : forall c,
             implb (Str.is_alpha (Str.upper_char c))
                   (Str.is_upper (Str.upper_char c)) = true).
  { apply for_all_ascii. vm_compute. reflexivity. }
  intro Ha. specialize (H c). now rewrite Ha in H.
Qed.

Lemma coin_loop_format (ps : list regex) (text c : string) :
  coin_loop ps text = Some c ->
  (3 <= String.length c <= 6)%nat
  /\ forallb Str.is_upper (Str.chars c) = true.
Proof.
  induction ps as [|p ps IH]; cbn [coin_loop]; [discriminate|].
  destruct (search true p text) as [m|]; [|exact IH].
  destruct ((3 <=? String.length (Str.upper (group m)))%nat
            && (String.length (Str.upper (group m)) <=? 6)%nat
            && Str.isalpha (Str.upper (group m))) eqn:E; [|exact IH].
  intro H. injection H as <-.
  apply andb_true_iff in E. destruct E as [E Ha].
  apply andb_true_iff in E. destruct E as [E3 E6].
  apply Nat.leb_le in E3, E6. split; [lia|].
  unfold Str.isalpha in Ha. unfold Str.upper in *.
  rewrite ParserFacts.chars_of_chars in *.
  destruct (map Str.upper_char (Str.chars (group m))) as [|x l] eqn:El;
    [discriminate|].
  rewrite <- El in *. clear El.
  rewrite forallb_forall in *. intros y Hy. specialize (Ha y Hy).
  apply in_map_iff in Hy. destruct Hy as [z [<- _]].
  now apply upper_alpha_is_upper.
Qed.

(** A coin that was found is not the empty string. *)
Lemma coin_missing_iff_none (text : string) :
  no_str (_extract_coin text) = true <-> _extract_coin text = None.
Proof.
  destruct (_extract_coin text) as [c|] eqn:E; [|simpl; tauto].
  apply coin_loop_format in E. destruct E as [E _].
  destruct c; simpl in *; [lia | split; discriminate].
Qed.

(** X2: The coin found in a text of ASCII characters, when there is
    one, is 3 to 6 capital letters A to Z. *)
Theorem coin_is_three_to_six_capitals (text : string) :
  Str.ascii_only text = true ->
  match _extract_coin text with
  | Some c =>
      (3 <= String.length c <= 6)%nat
      /\ forallb Str.is_upper (Str.chars c) = true
  | None => True
  end.
Proof.
  intros _. destruct (_extract_coin text) as [c|] eqn:E; [|exact I].
  now apply coin_loop_format with coin_patterns text.
Qed.

Lemma coin_is_three_to_six_capitals_witness :
  match _extract_coin "#btc/usdt LONG" with
  | Some c =>
      (3 <= String.length c <= 6)%nat
      /\ forallb Str.is_upper (Str.chars c) = true
  | None => True
  end.
Proof.
  apply (coin_is_three_to_six_capitals "#btc/usdt LONG"). reflexivity.
Defined.

(** *** Prices *)

Lemma digits_val_nonneg (l : list ascii) : (0 <= Str.digits_val l)%Z.
Proof.
  unfold Str.digits_val.
  assert (H : forall acc, (0 <= acc)%Z ->
                (0 <= fold_left
                        (fun a c => (10 * a + Str.digit_val c)%Z) l acc)%Z).
  { induction l as [|c l IH]; intros acc Ha; cbn [fold_left]; [exact Ha|].
    apply IH. unfold Str.digit_val. lia. }
  apply H. lia.
Qed.

Lemma float_nonneg (s : string) (v : Q) : Str.float s = Some v -> 0 <= v.
Proof.
  unfold Str.float.
  destruct (Str.split "." s) as [|i [|f [|? ?]]]; try discriminate.
  - destruct (Str.chars i) as [|c l] eqn:E; [discriminate|].
    destruct (forallb Str.is_digit (c :: l)); [|discriminate].
    intro H. injection H as <-.
    pose proof (digits_val_nonneg (c :: l)).
    unfold Qle. simpl. lia.
  - destruct (forallb Str.is_digit (Str.chars i)
              && forallb Str.is_digit (Str.chars f)
              && negb (length (Str.chars i) + length (Str.chars f) =? 0)%nat);
      [|discriminate].
    intro H.
    assert (E : v == Qmake (Str.digits_val (Str.chars i ++ Str.chars f))
                       (Z.to_pos (10 ^ Z.of_nat (length (Str.chars f))))).
    { injection H as H. rewrite <- H. exact (Qred_correct _). }
    rewrite E.
    pose proof (digits_val_nonneg (Str.chars i ++ Str.chars f)).
    unfold Qle. simpl. lia.
Qed.

Lemma entry_points_nonneg (m : string) :
  Forall (fun v => 0 <= v) (entry_points m).
Proof.
  unfold entry_points, price_of.
  destruct (Str.contains "-" m).
  - destruct (Str.split "-" m) as [|a [|b [|? ?]]]; try constructor.
    destruct (Str.float (Str.remove_char "," (Str.strip a))) as [x|] eqn:Ea;
      [|constructor].
    destruct (Str.float (Str.remove_char "," (Str.strip b))) as [y|] eqn:Eb;
      [|constructor].
    apply float_nonneg in Ea, Eb.
    repeat constructor; try assumption.
    assert (E : x + (y - x) / 2 == (x + y) / 2) by field.
    rewrite E. apply Qle_shift_div_l; [reflexivity | lra].
  - destruct (Str.float (Str.remove_char "," (Str.strip m))) as [x|] eqn:Ea;
      [|constructor].
    apply float_nonneg in Ea. now repeat constructor.
Qed.

Lemma Forall_flat_map {A B : Type} (P : B -> Prop) (f : A -> list B)
  (l : list A) :
  (forall a, Forall P (f a)) -> Forall P (flat_map f l).
Proof.
  intro H. induction l as [|a l IH]; simpl; [constructor|].
  apply Forall_app. split; [apply H | exact IH].
Qed.

(** [set], [sorted] and the cut to five only drop or move values. *)
Lemma py_set_In (x : Q) (l : list Q) : In x (py_set l) -> In x l.
Proof.
  induction l as [|y l IH]; simpl; [easy|].
  destruct (mem y l); [right; now apply IH|].
  intros [H | H]; [now left | right; now apply IH].
Qed.

Lemma insert_In (x y : Q) (l : list Q) :
  In y (insert x l) -> y = x \/ In y l.
Proof.
  induction l as [|z l IH]; simpl.
  - intros [H | []]. now left.
  - destruct (Py.ltb x z); simpl.
    + intros [H | [H | H]]; [now left | right; now left | right; now right].
    + intros [H | H]; [right; now left|].
      destruct (IH H); [now left | right; now right].
Qed.

Lemma py_sorted_In (x : Q) (l : list Q) : In x (py_sorted l) -> In x l.
Proof.
  induction l as [|y l IH]; simpl; [easy|].
  intro H. apply insert_In in H. destruct H as [H | H];
    [now left | right; now apply IH].
Qed.

Lemma capped_In (x : Q) (l : list Q) :
  In x (firstn 5 (py_sorted (py_set l))) -> In x l.
Proof.
  intro H. now apply py_set_In, py_sorted_In, ParserFacts.firstn_In with 5%nat.
Qed.

Lemma capped_Forall (P : Q -> Prop) (l : list Q) :
  Forall P l -> Forall P (firstn 5 (py_sorted (py_set l))).
Proof.
  rewrite !Forall_forall. intros H x Hx. now apply H, capped_In.
Qed.

Lemma fallback_plausible (text : string) :
  Forall (fun v => (1 # 1000000) < v /\ v < 1000000) (fallback_entries text).
Proof.
  unfold fallback_entries. apply Forall_flat_map. intro num.
  destruct (Str.float num) as [v|]; [|constructor].
  destruct (plausible v) eqn:E; [|constructor].
  unfold plausible in E. apply andb_true_iff in E. destruct E as [E1 E2].
  apply ltb_lt in E1, E2. now repeat constructor.
Qed.

Lemma target_pool_positive (text : string) :
  Forall (fun v => 0 < v) (target_pool text).
Proof.
  unfold target_pool. apply Forall_flat_map. intro p.
  destruct (search true p text) as [m|]; [|constructor].
  unfold target_numbers. apply Forall_flat_map. intro num.
  destruct (Str.float num) as [v|]; [|constructor].
  destruct (Py.ltb 0 v) eqn:E; [|constructor].
  apply ltb_lt in E. now repeat constructor.
Qed.

Lemma stop_loop_nonneg (ps : list regex) (text : string) (v : Q) :
  stop_loop ps text = Some v -> 0 <= v.
Proof.
  induction ps as [|p ps IH]; simpl; [discriminate|].
  destruct (search true p text) as [m|]; [|exact IH].
  destruct (Str.float (Str.remove_char "," (group m))) as [x|] eqn:E;
    [|exact IH].
  intro H. injection H as <-. now apply float_nonneg in E.
Qed.

(** X3: In a text of ASCII characters whose numbers have at most 300
    digits no price is negative: the entry zones and the stop loss are
    at least 0, the targets are above 0, and entry zones found by the
    fallback scan lie strictly between 0.000001 and 1000000. *)
Theorem prices_are_never_negative (text : string) :
  Str.ascii_only text = true ->
  Str.short_numbers text = true ->
  Forall (fun v => 0 <= v) (_extract_entry_zones text)
  /\ Forall (fun v => 0 < v) (_extract_targets text)
  /\ match _extract_stop_loss text with
     | Some v => 0 <= v
     | None => True
     end
  /\ (entry_pool text = [] ->
      Forall (fun v => (1 # 1000000) < v /\ v < 1000000)
        (_extract_entry_zones text)).
Proof.
  intros _ _.
  assert (Hfb : forall P : Q -> Prop,
             Forall P (fallback_entries text) ->
             Forall P (firstn 5 (fallback_entries text))).
  { intros P H. rewrite Forall_forall in *. intros x Hx.
    apply H. now apply ParserFacts.firstn_In with 5%nat. }
  split; [|split; [|split]].
  - unfold _extract_entry_zones.
    destruct (py_sorted (py_set (entry_pool text))) as [|x l] eqn:E.
    + simpl app. apply Hfb.
      eapply Forall_impl; [|apply fallback_plausible].
      intros v [H _]. lra.
    + rewrite <- E. apply capped_Forall. unfold entry_pool.
      apply Forall_flat_map. intro p. apply Forall_flat_map.
      apply entry_points_nonneg.
  - apply capped_Forall, target_pool_positive.
  - destruct (_extract_stop_loss text) as [v|] eqn:E; [|exact I].
    now apply stop_loop_nonneg in E.
  - intro E. unfold _extract_entry_zones. rewrite E. simpl.
    apply Hfb, fallback_plausible.
Qed.

Lemma prices_are_never_negative_witness :
  Forall (fun v => 0 <= v)
    (_extract_entry_zones "ENTRY: 45000-46000 TP 47000 SL 44000")
  /\ Forall (fun v => 0 < v)
       (_extract_targets "ENTRY: 45000-46000 TP 47000 SL 44000").
Proof.
  destruct (prices_are_never_negative "ENTRY: 45000-46000 TP 47000 SL 44000"
              eq_refl eq_refl) as [H1 [H2 _]].
  split; [exact H1 | exact H2].
Defined.

(** *** Which values survive the cut to five *)





(** Six values found, the highest dropped. *)
Example highest_of_six_dropped :
  entry_pool "ENTRY: 3-1 BUY 9 ENTER 7 PRICE 8" = [3; 3 + (1 - 3) / 2; 1; 9; 7; 8]
  /\ Forall2 Qeq (_extract_entry_zones "ENTRY: 3-1 BUY 9 ENTER 7 PRICE 8")
       [1; 2; 3; 7; 8].
Proof.
  split; [vm_compute; reflexivity|].
  vm_compute. repeat constructor.
Qed.

(** *** When a parse counts as successful *)

Lemma no_str_none (o : option string) :
  (no_str o = true <-> o = None) ->
  no_str o = match o with None => true | Some _ => false end.
Proof.
  destruct o as [x|]; intro H; [|reflexivity].
  destruct (no_str (Some x)) eqn:E; [|reflexivity].
  discriminate (proj1 H eq_refl).
Qed.

(** X5: A parse of a text is successful exactly when it found a coin, a
    side and at least one entry zone; each of the three that is missing
    puts its own message on the error list, and nothing else does. *)
Theorem parse_succeeds_iff_coin_side_entry (s : string) :
  exists f errors ok,
    parse_signal (PyStr s) = Parsed (PyStr s) f errors ok
    /\ (ok = true <-> errors = [])
    /\ (ok = true <->
        coin f <> None /\ position_type f <> None /\ entry_zones f <> [])
    /\ errors
       = (match coin f with
          | None => ["No coin symbol found"%string]
          | Some _ => []
          end)
         ++ (match position_type f with
             | None => ["No position type (LONG/SHORT) found"%string]
             | Some _ => []
             end)
         ++ (match entry_zones f with
             | [] => ["No entry zones found"%string]
             | _ => []
             end).
Proof.
  destruct (ParserFacts.parse_str s) as [cleaned [errors [Hc Hp]]].
  assert (He : errors = _validate_signal (_extract_coin cleaned)
                          (_extract_position_type cleaned)
                          (_extract_entry_zones cleaned)).
  { unfold parse_signal, parse_body in Hp. rewrite Hc in Hp.
    cbn [Py.bind] in Hp. now injection Hp. }
  eexists. eexists. eexists. split; [exact Hp|]. cbn [coin position_type entry_zones].
  assert (Hcoin : no_str (_extract_coin cleaned) = true
                  <-> _extract_coin cleaned = None).
  { apply coin_missing_iff_none. }
  assert (Hside : no_str (_extract_position_type cleaned) = true
                  <-> _extract_position_type cleaned = None).
  { apply side_missing_iff_none. }
  assert (Hshape : errors
                   = (match _extract_coin cleaned with
                      | None => ["No coin symbol found"%string]
                      | Some _ => []
                      end)
                     ++ (match _extract_position_type cleaned with
                         | None => ["No position type (LONG/SHORT) found"%string]
                         | Some _ => []
                         end)
                     ++ (match _extract_entry_zones cleaned with
                         | [] => ["No entry zones found"%string]
                         | _ => []
                         end)).
  { rewrite He. unfold _validate_signal.
    rewrite (no_str_none _ Hcoin), (no_str_none _ Hside).
    destruct (_extract_coin cleaned), (_extract_position_type cleaned);
      reflexivity. }
  split; [destruct errors; split; intro; congruence|].
  split; [|exact Hshape].
  rewrite Hshape.
  destruct (_extract_coin cleaned), (_extract_position_type cleaned),
    (_extract_entry_zones cleaned); simpl; split;
    try discriminate; try (intros [H1 [H2 H3]]; congruence);
    intro; repeat split; discriminate.
Qed.

(** *** The cleaned text *)

Lemma sub_junk (l : list ascii) :
  forall p pv, sub_from false junk [" "%char] p pv l 0 = map scrub l.
Proof.
  induction l as [|c tl IH]; intros p pv; [reflexivity|].
  cbn [sub_from map]. unfold match_at, junk. cbn [run rest pos grp].
  unfold scrub at 1.
  destruct (in_charset false _ c).
  - cbn [m_end pos]. replace (S p - p)%nat with 1%nat by lia.
    cbn [Nat.eqb Nat.sub app]. now rewrite IH.
  - now rewrite IH.
Qed.

Lemma rep_blanks (l : list ascii) :
  forall lo p pv g,
    ((lo <= run_length l)%nat ->
     exists st, rep false CSpace lo None p pv g l Some = Some st
                /\ pos st = (p + run_length l)%nat)
    /\ ((run_length l < lo)%nat ->
        rep false CSpace lo None p pv g l Some = None).
Proof.
  induction l as [|c tl IH]; intros lo p pv g.
  - simpl. split; intro H.
    + destruct lo; [|lia]. eexists. split; [reflexivity | simpl; lia].
    + destruct lo; [lia | reflexivity].
  - cbn [rep in_charset run_length option_map].
    destruct (Str.is_space c) eqn:Ec; cbn [andb].
    + destruct (IH (Nat.pred lo) (S p) (Some c) g) as [H1 H2].
      split; intro H.
      * destruct H1 as [st [E P]]; [lia|]. rewrite E.
        exists st. split; [reflexivity | lia].
      * rewrite H2 by lia. destruct lo; [lia | reflexivity].
    + split; intro H.
      * destruct lo; [|lia]. eexists. split; [reflexivity | simpl; lia].
      * destruct lo; [lia | reflexivity].
Qed.

Lemma match_at_blanks (l : list ascii) (p : nat) (pv : option ascii) :
  ((1 <= run_length l)%nat ->
   exists m, match_at false blanks p pv l = Some m
             /\ m_end m = (p + run_length l)%nat)
  /\ (run_length l = 0%nat -> match_at false blanks p pv l = None).
Proof.
  unfold match_at, blanks, plus. cbn [run rest pos prev grp].
  destruct (rep_blanks l 1 p pv None) as [H1 H2]. split; intro H.
  - destruct (H1 H) as [st [E P]]. rewrite E. eexists.
    split; [reflexivity | exact P].
  - now rewrite H2 by lia.
Qed.

Lemma sub_blanks (l : list ascii) :
  forall p pv,
    sub_from false blanks [" "%char] p pv l (run_length l) = squeeze true l
    /\ sub_from false blanks [" "%char] p pv l 0 = squeeze false l.
Proof.
  induction l as [|c tl IH]; intros p pv; [split; reflexivity|].
  cbn [run_length squeeze].
  destruct (Str.is_space c) eqn:Ec.
  - destruct (IH (S p) (Some c)) as [IH1 _]. split.
    + cbn [sub_from]. exact IH1.
    + cbn [sub_from].
      destruct (proj1 (match_at_blanks (c :: tl) p pv)) as [m [E P]].
      { cbn [run_length]. rewrite Ec. lia. }
      rewrite E, P. cbn [run_length]. rewrite Ec.
      replace (p + S (run_length tl) - p)%nat with (S (run_length tl)) by lia.
      cbn [Nat.eqb app].
      replace (S (run_length tl) - 1)%nat with (run_length tl) by lia.
      now rewrite IH1.
  - destruct (IH (S p) (Some c)) as [_ IH0].
    assert (E : sub_from false blanks [" "%char] p pv (c :: tl) 0
                = c :: squeeze false tl).
    { cbn [sub_from].
      rewrite (proj2 (match_at_blanks (c :: tl) p pv))
        by (cbn [run_length]; now rewrite Ec).
      now rewrite IH0. }
    split; exact E.
Qed.

(** [_clean_text], character by character. *)
Lemma clean_text_chars (s : string) :
  _clean_text (PyStr s) = Py.Ok (Str.of_chars (clean_list (Str.chars s))).
Proof.
  unfold _clean_text, Str.upper, Str.strip, sub, clean_list.
  rewrite !ParserFacts.chars_of_chars.
  rewrite sub_junk. now rewrite (proj2 (sub_blanks _ 0%nat None)).
Qed.

(** Facts about single characters, checked on all 256 of them. *)
Lemma char_facts (c : ascii) :
  (Str.is_space (scrub c) = false -> kept (Str.upper_char (scrub c)) = true)
  /\ (kept c = true -> scrub c = c)
  /\ (kept c = true -> Str.upper_char c = c)
  /\ (kept c = true -> Str.is_space c = true -> c = " "%char)
  /\ Str.is_space (Str.upper_char c) = Str.is_space c.
Proof.
  assert (H : forall c,
             implb (negb (Str.is_space (scrub c)))
                   (kept (Str.upper_char (scrub c)))
             && implb (kept c) (Ascii.eqb (scrub c) c)
             && implb (kept c) (Ascii.eqb (Str.upper_char c) c)
             && implb (kept c && Str.is_space c) (Ascii.eqb c " ")
             && Bool.eqb (Str.is_space (Str.upper_char c)) (Str.is_space c)
             = true).
  { apply for_all_ascii. vm_compute. reflexivity. }
  specialize (H c). repeat (apply andb_true_iff in H; destruct H as [H ?]).
  repeat split.
  - intro E. rewrite E in H. exact H.
  - intro E. rewrite E in H3. now apply Ascii.eqb_eq.
  - intro E. rewrite E in H2. now apply Ascii.eqb_eq.
  - intros E1 E2. rewrite E1, E2 in H1. now apply Ascii.eqb_eq.
  - now apply Bool.eqb_prop.
Qed.

Lemma squeeze_In (b : bool) (l : list ascii) (y : ascii) :
  In y (squeeze b l) ->
  y = " "%char \/ (In y l /\ Str.is_space y = false).
Proof.
  revert b. induction l as [|c tl IH]; intros b; simpl; [easy|].
  destruct (Str.is_space c) eqn:Ec.
  - intro H. apply in_app_or in H. destruct H as [H | H].
    + destruct b; [easy|]. destruct H as [<- | []]. now left.
    + destruct (IH true H) as [E | [E1 E2]]; [now left | right; tauto].
  - intros [<- | H]; [right; tauto|].
    destruct (IH false H) as [E | [E1 E2]]; [now left | right; tauto].
Qed.

Lemma lstrip_split (l : list ascii) :
  exists pre, l = pre ++ Str.lstrip l
              /\ forallb Str.is_space pre = true.
Proof.
  induction l as [|c tl [pre [E F]]]; [now exists []|]. simpl.
  destruct (Str.is_space c) eqn:Ec.
  - exists (c :: pre). simpl. rewrite Ec, F. split; [now f_equal | reflexivity].
  - now exists [].
Qed.

Lemma lstrip_head (l : list ascii) :
  blank_at (hd_error (Str.lstrip l)) = false.
Proof.
  induction l as [|c tl IH]; [reflexivity|]. simpl.
  destruct (Str.is_space c) eqn:Ec; [exact IH | exact Ec].
Qed.

Lemma lstrip_fixed (l : list ascii) :
  blank_at (hd_error l) = false -> Str.lstrip l = l.
Proof. destruct l as [|c tl]; [reflexivity|]. simpl. now intros ->. Qed.

(** Stripping cuts a piece out of the middle. *)
Lemma strip_split (l : list ascii) :
  exists pre post, l = pre ++ Str.strip_chars l ++ post.
Proof.
  unfold Str.strip_chars.
  destruct (lstrip_split l) as [pre [E _]].
  destruct (lstrip_split (rev (Str.lstrip l))) as [post [E' _]].
  exists pre, (rev post). rewrite <- rev_app_distr, <- E', rev_involutive.
  exact E.
Qed.

Lemma strip_ends (l : list ascii) :
  blank_at (hd_error (Str.strip_chars l)) = false
  /\ blank_at (hd_error (rev (Str.strip_chars l))) = false.
Proof.
  unfold Str.strip_chars. rewrite rev_involutive. split; [|apply lstrip_head].
  destruct (lstrip_split (rev (Str.lstrip l))) as [post [E _]].
  set (y := Str.lstrip (rev (Str.lstrip l))) in *.
  assert (Em : Str.lstrip l = rev y ++ rev post).
  { rewrite <- rev_app_distr, <- E. now rewrite rev_involutive. }
  pose proof (lstrip_head l) as Hh. rewrite Em in Hh.
  destruct (rev y) as [|c tl]; [reflexivity | exact Hh].
Qed.

Lemma sparse_app (a b : list ascii) :
  sparse (a ++ b) = true -> sparse a = true /\ sparse b = true.
Proof.
  induction a as [|x a IH]; [now split|].
  cbn [app sparse]. intro H. apply andb_true_iff in H. destruct H as [H1 H2].
  destruct (IH H2) as [Ha Hb]. split; [|exact Hb].
  rewrite Ha, andb_true_r.
  destruct a as [|y a]; [reflexivity | exact H1].
Qed.

Lemma sparse_squeeze (l : list ascii) :
  forall b,
    sparse (squeeze b l) = true
    /\ blank_at (hd_error (squeeze true l)) = false.
Proof.
  induction l as [|c tl IH]; intro b; [now split|].
  cbn [squeeze]. destruct (IH true) as [Hs Hh].
  destruct (Str.is_space c) eqn:Ec.
  - split; [|exact Hh].
    destruct b; [exact Hs|]. cbn [app sparse]. rewrite Hs, andb_true_r.
    destruct (squeeze true tl) as [|y r]; [reflexivity|].
    simpl in Hh. now rewrite Hh, andb_false_r.
  - destruct (IH false) as [Hs0 _]. cbn [hd_error blank_at sparse].
    rewrite Ec, Hs0. simpl. split; [|reflexivity].
    now destruct (squeeze false tl).
Qed.

Lemma sparse_map_upper (l : list ascii) :
  sparse (map Str.upper_char l) = sparse l.
Proof.
  induction l as [|x tl IH]; [reflexivity|].
  cbn [map sparse]. rewrite IH.
  destruct tl as [|y tl]; [reflexivity|]. cbn [map].
  now rewrite !(proj2 (proj2 (proj2 (proj2 (char_facts _))))).
Qed.

Lemma blank_at_map_upper (l : list ascii) :
  blank_at (hd_error (map Str.upper_char l)) = blank_at (hd_error l).
Proof.
  destruct l as [|x tl]; [reflexivity|]. simpl.
  apply (proj2 (proj2 (proj2 (proj2 (char_facts _))))).
Qed.

Lemma clean_list_normal (l : list ascii) : normal (clean_list l) = true.
Proof.
  unfold normal, clean_list.
  set (q := squeeze false (map scrub l)).
  destruct (strip_split q) as [pre [post E]].
  destruct (strip_ends q) as [Hh Hl].
  assert (Hk : forallb kept (map Str.upper_char (Str.strip_chars q)) = true).
  { apply forallb_forall. intros x Hx. apply in_map_iff in Hx.
    destruct Hx as [y [<- Hy]].
    assert (Hq : In y q).
    { rewrite E. apply in_or_app. right. apply in_or_app. now left. }
    apply squeeze_In in Hq. destruct Hq as [-> | [Hin Hsp]]; [reflexivity|].
    apply in_map_iff in Hin. destruct Hin as [z [<- _]].
    now apply (proj1 (char_facts z)). }
  assert (Hs : sparse (map Str.upper_char (Str.strip_chars q)) = true).
  { rewrite sparse_map_upper.
    pose proof (proj1 (sparse_squeeze (map scrub l) false)) as Hq.
    fold q in Hq. rewrite E in Hq.
    apply sparse_app in Hq. destruct Hq as [_ Hq].
    now apply sparse_app in Hq. }
  rewrite Hk, Hs, <- map_rev, !blank_at_map_upper, Hh, Hl. reflexivity.
Qed.

Lemma normal_squeeze (l : list ascii) :
  forallb kept l = true -> sparse l = true ->
  squeeze false l = l
  /\ (blank_at (hd_error l) = false -> squeeze true l = l).
Proof.
  induction l as [|c tl IH]; [now split|].
  cbn [forallb sparse squeeze hd_error blank_at]. intros Hk Hs.
  apply andb_true_iff in Hk. destruct Hk as [Hc Hk].
  apply andb_true_iff in Hs. destruct Hs as [Hp Hs].
  destruct (IH Hk Hs) as [IH0 IH1].
  destruct (Str.is_space c) eqn:Ec.
  - split; [|discriminate].
    rewrite (proj1 (proj2 (proj2 (proj2 (char_facts c)))) Hc Ec) in *.
    cbn [app]. f_equal. apply IH1.
    destruct tl as [|y tl]; [reflexivity|]. simpl.
    simpl in Hp. now destruct (Str.is_space y).
  - split; [|intros _]; now rewrite IH0.
Qed.

Lemma map_fixed {A : Type} (f : A -> A) (l : list A) :
  (forall x, In x l -> f x = x) -> map f l = l.
Proof.
  induction l as [|x tl IH]; intro H; [reflexivity|]. simpl.
  rewrite H by now left. f_equal. apply IH. intros y Hy. apply H. now right.
Qed.

Lemma clean_list_fixed (l : list ascii) :
  normal l = true -> clean_list l = l.
Proof.
  unfold normal, clean_list. intro H.
  apply andb_true_iff in H. destruct H as [H Hl].
  apply andb_true_iff in H. destruct H as [H Hh].
  apply andb_true_iff in H. destruct H as [Hk Hs].
  apply negb_true_iff in Hh, Hl.
  assert (Hin : forall x, In x l -> kept x = true).
  { now apply forallb_forall. }
  rewrite (map_fixed scrub l)
    by (intros x Hx; apply (proj1 (proj2 (char_facts x))); auto).
  rewrite (proj1 (normal_squeeze l Hk Hs)).
  unfold Str.strip_chars.
  rewrite (lstrip_fixed l Hh), (lstrip_fixed (rev l) Hl), rev_involutive.
  apply map_fixed. intros x Hx.
  apply (proj1 (proj2 (proj2 (char_facts x)))). auto.
Qed.

(** X6: The cleaning of a text of ASCII characters holds only
    capital letters, digits, the underscore, the symbols # $ / . : -
    and single blanks, and neither starts nor ends with a blank; in
    particular it holds no comma and no lower-case letter. *)
Theorem cleaned_text_is_normal (s : string) :
  Str.ascii_only s = true ->
  exists t,
    _clean_text (PyStr s) = Py.Ok t
    /\ normal (Str.chars t) = true
    /\ ~ In ","%char (Str.chars t)
    /\ forallb (fun c => negb (Str.is_lower c)) (Str.chars t) = true.
Proof.
  intros _. exists (Str.of_chars (clean_list (Str.chars s))).
  split; [apply clean_text_chars|]. rewrite ParserFacts.chars_of_chars.
  pose proof (clean_list_normal (Str.chars s)) as Hn.
  split; [exact Hn|].
  unfold normal in Hn.
  apply andb_true_iff in Hn. destruct Hn as [Hn _].
  apply andb_true_iff in Hn. destruct Hn as [Hn _].
  apply andb_true_iff in Hn. destruct Hn as [Hk _].
  rewrite forallb_forall in Hk. split.
  - intro H. apply Hk in H. discriminate.
  - apply forallb_forall. intros c Hc. apply Hk in Hc.
    assert (H : forall c, implb (kept c) (negb (Str.is_lower c)) = true).
    { apply for_all_ascii. vm_compute. reflexivity. }
    specialize (H c). now rewrite Hc in H.
Qed.

Lemma cleaned_text_is_normal_witness :
  exists t,
    _clean_text (PyStr "  Buy #btc, now!!  (5x) ") = Py.Ok t
    /\ normal (Str.chars t) = true.
Proof.
  destruct (cleaned_text_is_normal "  Buy #btc, now!!  (5x) " eq_refl)
    as [t [H1 [H2 _]]].
  exists t. split; [exact H1 | exact H2].
Defined.

(** X7: Cleaning the cleaning of a text of ASCII characters changes
    nothing. *)
Theorem cleaning_is_idempotent (s : string) :
  Str.ascii_only s = true ->
  exists t,
    _clean_text (PyStr s) = Py.Ok t /\ _clean_text (PyStr t) = Py.Ok t.
Proof.
  intros _. exists (Str.of_chars (clean_list (Str.chars s))).
  split; [apply clean_text_chars|].
  rewrite clean_text_chars, ParserFacts.chars_of_chars.
  now rewrite clean_list_fixed by apply clean_list_normal.
Qed.

Lemma cleaning_is_idempotent_witness :
  exists t,
    _clean_text (PyStr "  Buy #btc, now!!  (5x) ") = Py.Ok t
    /\ _clean_text (PyStr t) = Py.Ok t.
Proof.
  apply (cleaning_is_idempotent "  Buy #btc, now!!  (5x) "). reflexivity.
Defined.

(** *** Parsing statistics *)

Lemma dict_get_set (d : list (string * Z)) (key k : string) (v default : Z) :
  dict_get (dict_set d key v) k default
  = if String.eqb key k then v else dict_get d k default.
Proof.
  induction d as [|[k0 v0] tl IH]; simpl.
  - reflexivity.
  - destruct (String.eqb k0 key) eqn:E0; simpl.
    + apply String.eqb_eq in E0. subst k0.
      now destruct (String.eqb key k).
    + destruct (String.eqb k0 k) eqn:E1; [|exact IH].
      apply String.eqb_eq in E1. subst k0.
      rewrite String.eqb_sym in E0. now rewrite E0.
Qed.

Lemma dict_set_keys (d : list (string * Z)) (key : string) (v : Z) :
  NoDup (map fst d) ->
  NoDup (map fst (dict_set d key v))
  /\ forall k, In k (map fst (dict_set d key v)) -> k = key \/ In k (map fst d).
Proof.
  induction d as [|[k0 v0] tl IH]; simpl; intro H.
  - split; [repeat constructor; easy | intros k [E | []]; now left].
  - inversion H as [|? ? Hn Hd]; subst.
    destruct (String.eqb k0 key) eqn:E0; simpl.
    + split; [exact H | intros k Hk; now right].
    + destruct (IH Hd) as [IH1 IH2]. split.
      * constructor; [|exact IH1]. intro Hin.
        destruct (IH2 _ Hin) as [E | Hin']; [|now apply Hn].
        apply String.eqb_neq in E0. congruence.
      * intros k [E | Hk]; [right; now left|].
        destruct (IH2 k Hk); [now left | right; now right].
Qed.

Lemma count_errors_get (errors : list string) :
  forall d e,
    dict_get (count_errors d errors) e 0
    = (dict_get d e 0 + Z.of_nat (count_occ string_dec errors e))%Z.
Proof.
  unfold count_errors.
  induction errors as [|x tl IH]; intros d e; cbn [fold_left count_occ].
  - lia.
  - rewrite IH, dict_get_set.
    destruct (string_dec x e) as [-> | Hne].
    + rewrite String.eqb_refl. lia.
    + apply String.eqb_neq in Hne. rewrite Hne. lia.
Qed.

Lemma count_errors_keys (errors : list string) :
  forall d, NoDup (map fst d) -> NoDup (map fst (count_errors d errors)).
Proof.
  unfold count_errors.
  induction errors as [|x tl IH]; intros d H; cbn [fold_left]; [exact H|].
  apply IH. now apply dict_set_keys.
Qed.

(** The errors of the results that did not parse, in order. *)
Lemma histogram_get (results : list signal) :
  forall d e,
    dict_get
      (fold_left
         (fun d result =>
            if parsed_successfully result then d
            else count_errors d (parse_errors result))
         results d) e 0
    = (dict_get d e 0
       + Z.of_nat
           (count_occ string_dec
              (flat_map parse_errors
                 (filter (fun r => negb (parsed_successfully r)) results))
              e))%Z.
Proof.
  induction results as [|r tl IH]; intros d e; cbn [fold_left filter flat_map].
  - simpl. lia.
  - rewrite IH. destruct (parsed_successfully r); cbn [negb flat_map].
    + reflexivity.
    + rewrite count_errors_get, count_occ_app. lia.
Qed.

Lemma histogram_keys (results : list signal) :
  forall d,
    NoDup (map fst d) ->
    NoDup (map fst
             (fold_left
                (fun d result =>
                   if parsed_successfully result then d
                   else count_errors d (parse_errors result))
                results d)).
Proof.
  induction results as [|r tl IH]; intros d H; cbn [fold_left]; [exact H|].
  apply IH. destruct (parsed_successfully r); [exact H|].
  now apply count_errors_keys.
Qed.

(** X8: The counts of [get_parsing_stats] add up: successes and failures
    make the total, the rate lies between 0 and 100, is
    successes/total*100, and is 0 for an empty list instead of a
    division by zero. *)
Theorem stats_counts_add_up (results : list signal) :
  let st := get_parsing_stats results in
  total_signals st = Z.of_nat (length results)
  /\ (successful_parses st + failed_parses st = total_signals st)%Z
  /\ (0 <= successful_parses st <= total_signals st)%Z
  /\ (0 <= failed_parses st)%Z
  /\ 0 <= success_rate st <= 100
  /\ success_rate st * inject_Z (total_signals st)
     == inject_Z (successful_parses st) * 100
  /\ (results = [] -> success_rate st = 0).
Proof.
  cbv zeta. unfold get_parsing_stats.
  cbn [total_signals successful_parses failed_parses success_rate].
  set (n := Z.of_nat (length results)).
  set (k := Z.of_nat (length (filter parsed_successfully results))).
  assert (Hk : (0 <= k <= n)%Z).
  { unfold k, n. pose proof (filter_length_le parsed_successfully results).
    lia. }
  split; [reflexivity|]. split; [lia|]. split; [exact Hk|]. split; [lia|].
  destruct (0 <? n)%Z eqn:En.
  - apply Z.ltb_lt in En.
    assert (Hn : 0 < inject_Z n).
    { change (inject_Z 0 < inject_Z n). now rewrite <- Zlt_Qlt. }
    assert (Hkq : 0 <= inject_Z k).
    { change (inject_Z 0 <= inject_Z k). rewrite <- Zle_Qle. lia. }
    assert (Hkn : inject_Z k <= inject_Z n)
      by (rewrite <- Zle_Qle; lia).
    assert (Hq0 : 0 <= inject_Z k / inject_Z n).
    { apply Qle_shift_div_l; [exact Hn | lra]. }
    assert (Hq1 : inject_Z k / inject_Z n <= 1).
    { apply Qle_shift_div_r; [exact Hn | lra]. }
    split; [split; lra|]. split.
    + field. lra.
    + intros ->. discriminate.
  - split; [split; lra|]. split.
    + apply Z.ltb_ge in En. assert (E0 : k = 0%Z) by lia.
      rewrite E0. assert (En0 : n = 0%Z) by lia. rewrite En0. reflexivity.
    + reflexivity.
Qed.

(** X9: The histogram of [get_parsing_stats] counts, for every error text,
    how often it occurs among the errors of the results that did not
    parse; no text is listed twice. *)
Theorem stats_histogram_counts_errors (results : list signal) (e : string) :
  let st := get_parsing_stats results in
  dict_get (common_errors st) e 0
  = Z.of_nat
      (count_occ string_dec
         (flat_map parse_errors
            (filter (fun r => negb (parsed_successfully r)) results))
         e)
  /\ NoDup (map fst (common_errors st)).
Proof.
  cbv zeta. unfold get_parsing_stats. cbn [common_errors]. split.
  - now rewrite histogram_get.
  - apply histogram_keys. constructor.
Qed.

(** X10: Every text of a batch that did not parse shows in the statistics
    of the batch with at least one of its errors, and the total is the
    number of texts. *)
Theorem batch_failures_show_in_stats (signals : list pyobj) (text : pyobj) :
  In text signals ->
  parsed_successfully (parse_signal text) = false ->
  let st := get_parsing_stats (batch_parse_signals signals) in
  total_signals st = Z.of_nat (length signals)
  /\ exists e, In e (parse_errors (parse_signal text))
               /\ (1 <= dict_get (common_errors st) e 0)%Z.
Proof.
  intros Hin Hf st.
  assert (Eb : batch_parse_signals signals = map parse_signal signals).
  { unfold batch_parse_signals. now rewrite ParserFacts.batch_loop_map. }
  split.
  { unfold st, get_parsing_stats. cbn [total_signals].
    now rewrite Eb, length_map. }
  assert (He : exists e, In e (parse_errors (parse_signal text))).
  { unfold parse_signal in *. destruct (parse_body text) as [r|msg] eqn:Eb'.
    - unfold parse_body in Eb'. destruct (_clean_text text) as [c|]; [|discriminate].
      cbn [Py.bind] in Eb'. injection Eb' as <-. cbn in *.
      destruct (_validate_signal _ _ _) as [|e l]; [discriminate|].
      exists e. now left.
    - eexists. now left. }
  destruct He as [e He]. exists e. split; [exact He|].
  unfold st, get_parsing_stats. cbn [common_errors]. rewrite histogram_get.
  assert (Hocc : In e (flat_map parse_errors
                         (filter (fun r => negb (parsed_successfully r))
                            (batch_parse_signals signals)))).
  { apply in_flat_map. exists (parse_signal text). split; [|exact He].
    apply filter_In. split; [rewrite Eb; now apply in_map|].
    now rewrite Hf. }
  apply (count_occ_In string_dec) in Hocc. cbn [dict_get]. lia.
Qed.

Lemma batch_failures_show_in_stats_witness :
  let st := get_parsing_stats
              (batch_parse_signals [Scenario.scenario_a; PyStr "hello"]) in
  total_signals st = 2%Z
  /\ exists e, In e (parse_errors (parse_signal (PyStr "hello")))
               /\ (1 <= dict_get (common_errors st) e 0)%Z.
Proof.
  apply (batch_failures_show_in_stats [Scenario.scenario_a; PyStr "hello"]
           (PyStr "hello")).
  - right. left. reflexivity.
  - vm_compute. reflexivity.
Defined.

End ParserInvariants.

(** ** The books of a back-test *)

Module BacktestAccounting.

Import TelegramSignalParser BacktestEngine.

Lemma sum_from (l : list Q) (a : Q) :
  fold_left Qplus l a == a + Py.sum l.
Proof.
  unfold Py.sum. revert a. induction l as [|x l IH]; intro a; simpl.
  - ring.
  - rewrite (IH (a + x)), (IH (0 + x)). ring.
Qed.

Section Loop.

Variable np : numpy.
Variable world : Type.
Variable _simulate_trade :
  world -> signal -> settings -> Q -> world * option trade.

(** What the loop adds: some trades, at most one per signal with coin
    and entry zones, their equity points, and their profits on the
    balance. *)
Lemma signal_loop_books (signals : list signal) (st : settings) :
  forall w balance history curve,
    exists added,
      signal_loop world _simulate_trade w signals st balance history curve
      = (balance_after balance added, history ++ added,
         curve ++ equity_after balance added)
      /\ (length added <= length (filter has_coin_and_entries signals))%nat.
Proof.
  induction signals as [|s tl IH]; intros w balance history curve.
  - exists []. simpl. rewrite !app_nil_r. split; [reflexivity | lia].
  - cbn [signal_loop filter].
    destruct (has_coin_and_entries s).
    + destruct (_simulate_trade w s st balance) as [w' [t|]].
      * destruct (IH w' (balance + pnl t) (history ++ [t])
                    (curve ++ [EquityPoint (exit_time t) (balance + pnl t)
                                 (pnl t)]))
          as [added [E L]].
        exists (t :: added). rewrite E. simpl.
        rewrite <- !app_assoc. split; [reflexivity | lia].
      * destruct (IH w' balance history curve) as [added [E L]].
        exists added. rewrite E. split; [reflexivity | simpl; lia].
    + apply IH.
Qed.

(** X12: The books of a run follow the recorded trades: the final
    balance is the initial one with the profit of each recorded trade
    added in turn, the total profit is the final balance less the
    initial one and the percentage that profit over the initial balance
    times 100, the equity curve holds the balance after each trade, and
    no more trades are recorded than there are signals with a coin and
    an entry zone. *)
Theorem run_backtest_books_balance (w : world) (signals : list signal)
  (st : settings) (initial : Q) :
  ~ initial == 0 ->
  exists r,
    run_backtest np world _simulate_trade w signals st initial = Py.Ok r
    /\ initial_balance r = initial
    /\ final_balance r = balance_after initial (trade_history r)
    /\ total_pnl r = final_balance r - initial
    /\ total_pnl_percentage r = total_pnl r / initial * 100
    /\ equity_curve r = equity_after initial (trade_history r)
    /\ map trade_pnl (equity_curve r) = map pnl (trade_history r)
    /\ (total_trades r
        <= length (filter has_coin_and_entries signals))%nat.
Proof.
  intro H0. unfold run_backtest.
  destruct (signal_loop_books signals st w initial [] []) as [added [E L]].
  rewrite E. simpl app.
  unfold make_report, Py.div. apply eqb_neq in H0. rewrite H0. cbn [Py.bind].
  eexists. split; [reflexivity|].
  cbn [initial_balance final_balance trade_history total_pnl equity_curve
       total_trades total_pnl_percentage].
  split; [reflexivity|]. split; [reflexivity|]. split; [reflexivity|].
  split; [reflexivity|]. split; [reflexivity|]. split; [|exact L].
  clear. generalize initial. induction added as [|t tl IH]; intro b;
    [reflexivity|].
  cbn [equity_after map trade_pnl]. now rewrite IH.
Qed.

End Loop.

Lemma run_backtest_books_balance_witness :
  exists r,
    run_backtest Scenario.numpy6 (list (option trade)) Scenario.scripted
      [Some (Scenario.trade_with 50 10); None; Some (Scenario.trade_with (-30) 20)]
      (map parse_signal [Scenario.scenario_a; PyNone; Scenario.scenario_a;
                         Scenario.scenario_a])
      Scenario.no_settings 1000
    = Py.Ok r
    /\ final_balance r = balance_after 1000 (trade_history r)
    /\ total_pnl r = final_balance r - 1000
    /\ (total_trades r <= 3)%nat.
Proof.
  destruct (run_backtest_books_balance Scenario.numpy6 (list (option trade))
              Scenario.scripted
              [Some (Scenario.trade_with 50 10); None;
               Some (Scenario.trade_with (-30) 20)]
              (map parse_signal [Scenario.scenario_a; PyNone;
                                 Scenario.scenario_a; Scenario.scenario_a])
              Scenario.no_settings 1000)
    as [r [Hr [_ [Hb [Hp [_ [_ [_ Hn]]]]]]]].
  - intro H. vm_compute in H. discriminate.
  - exists r. split; [exact Hr|]. split; [exact Hb|].
    split; [exact Hp | exact Hn].
Defined.

(** *** Win rate, profit factor and the other figures *)

Lemma sum_nonneg (l : list Q) : Forall (fun x => 0 <= x) l -> 0 <= Py.sum l.
Proof.
  intro H. unfold Py.sum.
  assert (G : forall a, 0 <= a -> 0 <= fold_left Qplus l a).
  { induction H as [|x l Hx _ IH]; intros a Ha; simpl; [exact Ha|].
    apply IH. lra. }
  apply G. lra.
Qed.

Lemma positive_are_positive (l : list Q) :
  Forall (fun x => 0 < x) (positive l).
Proof.
  apply Forall_forall. intros x Hx. apply filter_In in Hx.
  now apply ltb_lt.
Qed.

Lemma non_positive_are_not (l : list Q) :
  Forall (fun x => x <= 0) (non_positive l).
Proof.
  apply Forall_forall. intros x Hx. apply filter_In in Hx.
  now apply leb_le.
Qed.

Lemma py_min_lower (a b : Q) : Py.min a b <= a /\ Py.min a b <= b.
Proof.
  unfold Py.min. destruct (Py.ltb b a) eqn:E.
  - apply ltb_lt in E. split; lra.
  - apply ltb_ge in E. split; lra.
Qed.

Lemma min_list_lower (x : Q) (l : list Q) :
  Py.min_list x l <= x /\ Forall (fun y => Py.min_list x l <= y) l.
Proof.
  revert x. induction l as [|y tl IH]; intro x; simpl.
  - split; [lra | constructor].
  - destruct (IH (Py.min x y)) as [H1 H2].
    destruct (py_min_lower x y) as [Hx Hy].
    split; [lra|]. constructor; [lra | exact H2].
Qed.

Lemma no_losses (l : list trade) :
  Forall (fun t => 0 < pnl t) l -> non_positive (map pnl l) = [].
Proof.
  induction 1 as [|t l Ht _ IH]; [reflexivity|]. simpl.
  assert (E : Py.leb (pnl t) 0 = false) by (now apply leb_gt).
  now rewrite E.
Qed.

Lemma no_wins (l : list trade) :
  Forall (fun t => pnl t <= 0) l -> positive (map pnl l) = [].
Proof.
  induction 1 as [|t l Ht _ IH]; [reflexivity|]. simpl.
  assert (E : Py.ltb 0 (pnl t) = false) by (now apply ltb_ge).
  now rewrite E.
Qed.

Section Figures.

Variable np : numpy.

(** X14: The figures of [_calculate_metrics] have the signs their names
    promise: profit factor, gross profit and gross loss are never
    negative, every trade's profit lies between the largest loss and
    the largest win, and the profit factor is 0 when no trade lost or
    none won. *)
Theorem metrics_have_their_signs (history : list trade) (initial final : Q)
  (curve : list equity_point) :
  let m := _calculate_metrics np history initial final curve in
  0 <= profit_factor m
  /\ (Forall (fun t => 0 < pnl t) history -> profit_factor m = 0)
  /\ (Forall (fun t => pnl t <= 0) history -> profit_factor m == 0)
  /\ match gross m with
     | Some (gross_profit, gross_loss) =>
         0 <= gross_profit /\ 0 <= gross_loss
     | None => True
     end
  /\ match largest m with
     | Some (largest_win, largest_loss) =>
         largest_loss <= 0 /\ 0 <= largest_win
         /\ Forall (fun t => largest_loss <= pnl t /\ pnl t <= largest_win)
              history
     | None => True
     end.
Proof.
  cbv zeta. unfold _calculate_metrics.
  destruct history as [|t0 tl] eqn:Eh.
  { simpl. repeat split; try lra; try constructor; intros; reflexivity. }
  rewrite <- Eh. clear Eh. unfold metrics_body.
  destruct (drawdown_loop _ initial 0) as [d|e]; cbn [Py.bind].
  2:{ simpl. repeat split; try lra; intros; reflexivity. }
  destruct (returns_loop _ _) as [rs|e]; cbn [Py.bind].
  2:{ simpl. repeat split; try lra; intros; reflexivity. }
  cbn [profit_factor gross largest].
  set (pnls := map pnl history).
  set (wins := positive pnls). set (losses := non_positive pnls).
  set (gp := match wins with [] => 0 | _ => Py.sum wins end).
  set (gl := match losses with [] => 0 | _ => Qabs (Py.sum losses) end).
  assert (Hgp : 0 <= gp).
  { unfold gp. destruct wins eqn:E; [lra|]. rewrite <- E. apply sum_nonneg.
    eapply Forall_impl; [|apply positive_are_positive].
    intros x Hx. cbv beta in Hx. lra. }
  assert (Hgl : 0 <= gl).
  { unfold gl. destruct losses; [lra | apply Qabs_nonneg]. }
  assert (Hpf : 0 <= (if Py.ltb 0 gl then gp / gl else 0)).
  { destruct (Py.ltb 0 gl) eqn:E; [|lra]. apply ltb_lt in E.
    apply Qle_shift_div_l; [exact E | lra]. }
  split; [exact Hpf|]. split; [|split; [|split; [split; assumption|]]].
  - intro Hall.
    unfold gl, losses, pnls. now rewrite no_losses.
  - intro Hall.
    unfold gp, wins, pnls. rewrite no_wins by exact Hall.
    destruct (Py.ltb 0 gl); [|reflexivity]. unfold Qdiv. ring.
  - assert (Hw : Forall (fun x => 0 < x) wins) by apply positive_are_positive.
    assert (Hl : Forall (fun x => x <= 0) losses)
      by apply non_positive_are_not.
    set (lw := match wins with [] => 0 | x :: l => Py.max_list x l end).
    set (ll := match losses with [] => 0 | x :: l => Py.min_list x l end).
    assert (Hlw : 0 <= lw /\ Forall (fun x => x <= lw) wins).
    { unfold lw. destruct wins as [|x l]; [split; [lra | constructor]|].
      inversion Hw as [|? ? Hx Hrest]; subst.
      pose proof (BacktestFacts.max_list_lower x l).
      split; [lra|]. constructor; [assumption|].
      apply BacktestFacts.max_list_upper. }
    assert (Hll : ll <= 0 /\ Forall (fun x => ll <= x) losses).
    { unfold ll. destruct losses as [|x l]; [split; [lra | constructor]|].
      inversion Hl as [|? ? Hx Hrest]; subst.
      destruct (min_list_lower x l) as [H1 H2].
      split; [lra|]. constructor; assumption. }
    destruct Hlw as [Hlw0 Hlw], Hll as [Hll0 Hll].
    split; [exact Hll0|]. split; [exact Hlw0|].
    apply Forall_forall. intros t Ht.
    assert (Hp : In (pnl t) pnls) by (now apply in_map).
    rewrite Forall_forall in Hlw, Hll.
    destruct (Py.ltb 0 (pnl t)) eqn:E.
    + assert (Hin : In (pnl t) wins) by (apply filter_In; now split).
      apply ltb_lt in E. specialize (Hlw _ Hin). split; lra.
    + assert (Hin : In (pnl t) losses).
      { apply filter_In. split; [exact Hp|]. apply leb_le. now apply ltb_ge. }
      apply ltb_ge in E. specialize (Hll _ Hin). split; lra.
Qed.

Variable world : Type.
Variable _simulate_trade :
  world -> signal -> settings -> Q -> world * option trade.

(** X13: The win rate of a report lies between 0 and 100, is
    wins/trades*100, and is 0 when there was no trade. *)
Theorem win_rate_is_a_percentage (w : world) (signals : list signal)
  (st : settings) (initial : Q) :
  ~ initial == 0 ->
  exists r,
    run_backtest np world _simulate_trade w signals st initial = Py.Ok r
    /\ 0 <= win_rate r <= 100
    /\ win_rate r * Py.len (trade_history r)
       == inject_Z (Z.of_nat (winning_trades r)) * 100
    /\ (trade_history r = [] -> win_rate r = 0).
Proof.
  intro H0. unfold run_backtest.
  destruct (signal_loop world _simulate_trade w signals st initial [] [])
    as [[balance history] curve].
  unfold make_report, Py.div. apply eqb_neq in H0. rewrite H0. cbn [Py.bind].
  eexists. split; [reflexivity|].
  cbn [win_rate trade_history winning_trades].
  destruct history as [|t tl] eqn:Eh.
  { simpl. repeat split; try lra; try reflexivity. }
  rewrite <- Eh.
  set (k := count (fun t => Py.ltb 0 (pnl t)) history).
  assert (Hk : (k <= length history)%nat) by apply filter_length_le.
  assert (Hn : (0 < length history)%nat) by (rewrite Eh; simpl; lia).
  unfold Py.len.
  assert (Hnq : 0 < inject_Z (Z.of_nat (length history))).
  { change (inject_Z 0 < inject_Z (Z.of_nat (length history))).
    rewrite <- Zlt_Qlt. lia. }
  assert (Hkq : 0 <= inject_Z (Z.of_nat k)).
  { change (inject_Z 0 <= inject_Z (Z.of_nat k)). rewrite <- Zle_Qle. lia. }
  assert (Hkn : inject_Z (Z.of_nat k)
                <= inject_Z (Z.of_nat (length history))).
  { rewrite <- Zle_Qle. lia. }
  assert (Hq0 : 0 <= inject_Z (Z.of_nat k)
                     / inject_Z (Z.of_nat (length history))).
  { apply Qle_shift_div_l; [exact Hnq | lra]. }
  assert (Hq1 : inject_Z (Z.of_nat k)
                / inject_Z (Z.of_nat (length history)) <= 1).
  { apply Qle_shift_div_r; [exact Hnq | lra]. }
  split; [split; lra|]. split; [field; lra|].
  rewrite Eh. discriminate.
Qed.

End Figures.

Lemma win_rate_is_a_percentage_witness :
  exists r,
    run_backtest Scenario.numpy6 (list (option trade)) Scenario.scripted
      [Some (Scenario.trade_with 50 10); Some (Scenario.trade_with (-30) 20)]
      (map parse_signal [Scenario.scenario_a; Scenario.scenario_a])
      Scenario.no_settings 1000
    = Py.Ok r
    /\ 0 <= win_rate r <= 100.
Proof.
  destruct (win_rate_is_a_percentage Scenario.numpy6 (list (option trade))
              Scenario.scripted
              [Some (Scenario.trade_with 50 10);
               Some (Scenario.trade_with (-30) 20)]
              (map parse_signal [Scenario.scenario_a; Scenario.scenario_a])
              Scenario.no_settings 1000)
    as [r [Hr [Hw _]]].
  - intro H. vm_compute in H. discriminate.
  - exists r. split; [exact Hr | exact Hw].
Defined.

(** *** Drawdown *)

(** With a positive peak and no negative value no drawdown exceeds
    100. *)
Lemma drawdown_loop_at_most_100 (values : list Q) :
  forall peak md r,
    0 < peak -> md <= 100 -> Forall (fun v => 0 <= v) values ->
    drawdown_loop values peak md = Py.Ok r -> r <= 100.
Proof.
  induction values as [|v tl IH]; intros peak md r Hp Hm Hv; simpl.
  - intro H. injection H as <-. exact Hm.
  - inversion Hv as [|? ? Hv0 Hv']; subst.
    set (peak' := if Py.ltb peak v then v else peak).
    assert (Hp' : 0 < peak').
    { unfold peak'. destruct (Py.ltb peak v) eqn:E; [|exact Hp].
      apply ltb_lt in E. lra. }
    unfold Py.div.
    assert (E0 : Py.eqb peak' 0 = false) by (apply eqb_neq; lra).
    rewrite E0. cbn [Py.bind].
    apply IH; [exact Hp' | | exact Hv'].
    unfold Py.max. destruct (Py.ltb md _); [|exact Hm].
    assert (H1 : (peak' - v) / peak' <= 1).
    { apply Qle_shift_div_r; [exact Hp' | lra]. }
    lra.
Qed.

(** With a positive peak and values that never fall, every drawdown
    is 0. *)
Lemma drawdown_loop_rising (values : list Q) :
  forall peak md r,
    0 < peak -> md == 0 -> Sorted Qle (peak :: values) ->
    drawdown_loop values peak md = Py.Ok r -> r == 0.
Proof.
  induction values as [|v tl IH]; intros peak md r Hp Hm Hs; simpl.
  - intro H. injection H as <-. exact Hm.
  - inversion Hs as [|? ? Hs' Hhd]; subst.
    inversion Hhd as [|? ? Hpv]; subst.
    set (peak' := if Py.ltb peak v then v else peak).
    assert (Hpe : peak' == v).
    { unfold peak'. destruct (Py.ltb peak v) eqn:E; [reflexivity|].
      apply ltb_ge in E. lra. }
    assert (Hp' : 0 < peak') by (rewrite Hpe; lra).
    unfold Py.div.
    assert (E0 : Py.eqb peak' 0 = false) by (apply eqb_neq; lra).
    rewrite E0. cbn [Py.bind].
    apply IH; [exact Hp' | |].
    + assert (Hd : (peak' - v) / peak' * 100 == 0).
      { rewrite Hpe. field. lra. }
      unfold Py.max. destruct (Py.ltb md _); [exact Hd | exact Hm].
    + inversion Hs' as [|? ? Hs'' Hhd']; subst.
      constructor; [exact Hs''|].
      destruct tl as [|u tl]; constructor.
      inversion Hhd' as [|? ? Hvu]; subst. lra.
Qed.

Lemma rising_equity (trades : list trade) :
  forall balance,
    Forall (fun t => 0 <= pnl t) trades ->
    Sorted Qle (balance :: map e_balance (equity_after balance trades)).
Proof.
  induction trades as [|t tl IH]; intros balance H; simpl.
  - repeat constructor.
  - inversion H as [|? ? Ht H']; subst.
    constructor; [now apply IH|]. constructor. lra.
Qed.

Section Drawdown.

Variable np : numpy.

(** X15: The max drawdown of the metrics is at most 100 when the initial
    balance is positive and the balance never goes below 0, and it is 0
    when, besides, no trade lost money. *)
Theorem drawdown_bounds (history : list trade) (initial final : Q) :
  0 < initial ->
  let curve := equity_after initial history in
  let m := _calculate_metrics np history initial final curve in
  (Forall (fun e => 0 <= e_balance e) curve -> m_max_drawdown m <= 100)
  /\ (Forall (fun t => 0 <= pnl t) history -> m_max_drawdown m == 0).
Proof.
  intros H0 curve m.
  destruct (BacktestFacts.metrics_cases np history initial final curve)
    as [[E _] | [_ [d [rs [Hd [_ [E _]]]]]]]; fold m in E; rewrite E.
  - simpl. split; intros _; [lra | reflexivity].
  - split; intro H.
    + apply drawdown_loop_at_most_100 in Hd; try assumption; [lra|].
      constructor; [lra|]. apply Forall_forall. intros v Hv.
      apply in_map_iff in Hv. destruct Hv as [e [<- He]].
      rewrite Forall_forall in H. now apply H.
    + apply drawdown_loop_rising in Hd; try assumption; [reflexivity|].
      constructor; [now apply rising_equity|]. constructor. lra.
Qed.

End Drawdown.

Lemma drawdown_bounds_witness :
  let history := [Scenario.trade_with 50 10; Scenario.trade_with 20 20] in
  let curve := equity_after 1000 history in
  let m := _calculate_metrics Scenario.numpy6 history 1000 1070 curve in
  m_max_drawdown m <= 100 /\ m_max_drawdown m == 0.
Proof.
  intros history curve m.
  destruct (drawdown_bounds Scenario.numpy6 history 1000 1070) as [H1 H2].
  - reflexivity.
  - split.
    + apply H1. repeat constructor; vm_compute; discriminate.
    + apply H2. repeat constructor; vm_compute; discriminate.
Defined.

(** *** Sizing *)

(** X16: The balance-at-risk size never exceeds a fifth of a balance that is
    not negative, and is not negative when default size and risk
    percentage are not. *)
Theorem backtest_size_within_a_fifth_of_balance
  (balance default_size risk : Q) (entry_price stop_loss : option Q) :
  0 <= balance ->
  _calculate_position_size balance default_size risk entry_price stop_loss
  <= balance * (2 # 10)
  /\ (0 <= default_size -> 0 <= risk ->
      0 <= _calculate_position_size balance default_size risk entry_price
             stop_loss).
Proof.
  intro Hb. unfold _calculate_position_size.
  assert (Hfb : Py.min default_size (balance * (1 # 10)) <= balance * (2 # 10)
                /\ (0 <= default_size ->
                    0 <= Py.min default_size (balance * (1 # 10)))).
  { destruct (py_min_lower default_size (balance * (1 # 10))) as [_ H].
    split; [lra|]. intro Hd. unfold Py.min.
    destruct (Py.ltb _ _); lra. }
  destruct (usable_prices entry_price stop_loss) as [[entry stop]|] eqn:Eu;
    [|split; [apply Hfb | intros Hd _; now apply Hfb]].
  destruct (Py.ltb 0 (Qabs (entry - stop) / entry)) eqn:Er;
    [|split; [apply Hfb | intros Hd _; now apply Hfb]].
  apply ltb_lt in Er.
  set (rpu := Qabs (entry - stop) / entry) in *.
  destruct (py_min_lower (balance * (risk / 100) / rpu) (balance * (2 # 10)))
    as [_ H].
  split; [exact H|]. intros _ Hr. unfold Py.min.
  destruct (Py.ltb _ _); [lra|].
  apply Qle_shift_div_l; [exact Er|].
  assert (0 <= balance * (risk / 100)).
  { apply Qmult_le_0_compat; [exact Hb|]. apply Qle_shift_div_l; lra. }
  lra.
Qed.

Lemma backtest_size_within_a_fifth_of_balance_witness :
  _calculate_position_size 1000 10 2 (Some 100) (Some 99) <= 1000 * (2 # 10).
Proof.
  apply (backtest_size_within_a_fifth_of_balance 1000 10 2 (Some 100)
           (Some 99)).
  vm_compute. discriminate.
Defined.

(** *** The entry search *)

Lemma zone_loop_found (row : candle) (zones : list Q) (zone : Q) :
  zone_loop row zones = Some zone ->
  In zone zones /\ low row <= zone /\ zone <= high row.
Proof.
  induction zones as [|z tl IH]; simpl; [discriminate|].
  destruct (Py.leb (low row) z && Py.leb z (high row)) eqn:E.
  - intro H. injection H as <-. apply andb_true_iff in E.
    destruct E as [E1 E2]. apply leb_le in E1, E2. tauto.
  - intro H. destruct (IH H) as [H1 H2]. tauto.
Qed.

Lemma zone_loop_none (row : candle) (zones : list Q) :
  zone_loop row zones = None <-> ~ touches row zones.
Proof.
  induction zones as [|z tl IH]; simpl.
  - split; [intros _ [zone [[] _]] | reflexivity].
  - destruct (Py.leb (low row) z && Py.leb z (high row)) eqn:E.
    + apply andb_true_iff in E. destruct E as [E1 E2].
      apply leb_le in E1, E2. split; [discriminate|].
      intro H. exfalso. apply H. exists z. split; [now left | tauto].
    + rewrite IH. split; intros H [zone [Hin Hr]]; apply H.
      * destruct Hin as [<- | Hin]; [|now exists zone].
        exfalso. destruct Hr as [H1 H2]. apply leb_le in H1, H2.
        now rewrite H1, H2 in E.
      * exists zone. split; [now right | exact Hr].
Qed.

(** X17: The entry is on the first candle whose range holds one of the
    entry zones, at a zone of the list that range holds; without such a
    candle there is no entry. *)
Theorem entry_is_first_touch (data : list candle) (zones : list Q)
  (position_type : option string) :
  (forall earlier row later,
     data = earlier ++ row :: later ->
     Forall (fun r => ~ touches r zones) earlier ->
     touches row zones ->
     exists zone,
       _find_entry_point data zones position_type
       = Some (zone, timestamp row)
       /\ In zone zones /\ low row <= zone /\ zone <= high row)
  /\ (Forall (fun r => ~ touches r zones) data ->
      _find_entry_point data zones position_type = None)
  /\ (forall zone time,
        _find_entry_point data zones position_type = Some (zone, time) ->
        In zone zones
        /\ exists row, In row data /\ timestamp row = time
                       /\ low row <= zone /\ zone <= high row).
Proof.
  assert (Hskip : forall earlier rest,
             Forall (fun r => ~ touches r zones) earlier ->
             _find_entry_point (earlier ++ rest) zones position_type
             = _find_entry_point rest zones position_type).
  { intros earlier rest H. induction H as [|r l Hr _ IH]; [reflexivity|].
    simpl. apply zone_loop_none in Hr. now rewrite Hr. }
  split; [|split].
  - intros earlier row later -> Hq Ht. rewrite Hskip by exact Hq. simpl.
    destruct (zone_loop row zones) as [zone|] eqn:E.
    + exists zone. split; [reflexivity|]. now apply zone_loop_found.
    + apply zone_loop_none in E. contradiction.
  - intro H. rewrite <- (app_nil_r data). now rewrite Hskip.
  - induction data as [|row tl IH]; simpl; [discriminate|].
    intros zone time.
    destruct (zone_loop row zones) as [z|] eqn:E.
    + intro H. injection H as <- <-.
      apply zone_loop_found in E. destruct E as [H1 H2].
      split; [exact H1|]. exists row. split; [now left | tauto].
    + intro H. destruct (IH _ _ H) as [H1 [r [Hr H2]]].
      split; [exact H1|]. exists r. split; [now right | exact H2].
Qed.

Lemma entry_is_first_touch_witness :
  exists zone,
    _find_entry_point
      [Candle 1 100 101 99 100 0; Candle 2 100 106 99 100 0] [105; 100]
      (Some "LONG"%string)
    = Some (zone, 1%Z)
    /\ In zone [105; 100].
Proof.
  destruct (proj1 (entry_is_first_touch
                     [Candle 1 100 101 99 100 0; Candle 2 100 106 99 100 0]
                     [105; 100] (Some "LONG"%string))
              [] (Candle 1 100 101 99 100 0) [Candle 2 100 106 99 100 0]
              eq_refl (Forall_nil _))
    as [zone [H1 [H2 _]]].
  - exists 100. split; [right; left; reflexivity|].
    split; vm_compute; discriminate.
  - exists zone. split; [exact H1 | exact H2].
Defined.

End BacktestAccounting.

(** ** One simulated trade *)

Module SimulationFacts.

Import TelegramSignalParser BacktestEngine.

Lemma last_In {A : Type} (x : A) (l : list A) (d : A) :
  In (last (x :: l) d) (x :: l).
Proof.
  revert x. induction l as [|y tl IH]; intro x; [now left|].
  right. apply (IH y).
Qed.

Lemma target_loop_In (row : candle) (targets : list Q)
  (position_type : option string) (target : Q) :
  target_loop row targets position_type = Some target -> In target targets.
Proof.
  induction targets as [|x tl IH]; simpl; [discriminate|].
  destruct (is_side "LONG" position_type && Py.leb x (high row));
    [intro H; injection H as <-; now left|].
  destruct (is_side "SHORT" position_type && Py.leb (low row) x);
    [intro H; injection H as <-; now left|].
  intro H. right. now apply IH.
Qed.

Lemma exit_loop_found (rows : list candle) (targets : list Q)
  (stop_loss : option Q) (position_type : option string)
  (p : Q) (time : Z) (reason : exit_reason) :
  exit_loop rows targets stop_loss position_type = Some (p, time, reason) ->
  (exists row, In row rows /\ timestamp row = time)
  /\ reason <> timeout
  /\ exit_source rows targets stop_loss p reason.
Proof.
  induction rows as [|row tl IH]; simpl; [discriminate|].
  destruct (stop_check row stop_loss position_type) as [stop|] eqn:Es.
  - intro H. injection H as <- <- <-.
    apply BacktestFacts.stop_check_sound in Es. destruct Es as [Es _].
    split; [exists row; split; [now left | reflexivity]|].
    split; [discriminate | exact Es].
  - destruct (target_loop row targets position_type) as [target|] eqn:Et.
    + intro H. injection H as <- <- <-.
      split; [exists row; split; [now left | reflexivity]|].
      split; [discriminate|]. now apply target_loop_In in Et.
    + intro H. destruct (IH H) as [[r [Hr Ht]] [Hn Hsrc]].
      split; [exists r; split; [now right | exact Ht]|].
      split; [exact Hn|].
      destruct reason; [exact Hsrc | exact Hsrc | now contradiction Hn].
Qed.

(** X18: An exit the search returns lies on a candle of the history
    strictly after the entry time; its price is the stop, which is then
    set and not 0, when the reason is stop_loss, one of the targets
    when the reason is target, and the close of a candle after the
    entry when the reason is timeout.  Without a candle after the entry
    there is no exit. *)
Theorem exit_is_later_and_from_the_signal (data : list candle)
  (entry_time : Z) (targets : list Q) (stop_loss : option Q)
  (position_type : option string) :
  (forall p time reason,
     _find_exit_point data entry_time targets stop_loss position_type
     = Some (p, time, reason) ->
     (entry_time < time)%Z
     /\ (exists row, In row data /\ timestamp row = time
                     /\ (reason = timeout -> close row = p))
     /\ match reason with
        | stop_loss_hit => stop_loss = Some p /\ ~ p == 0
        | target_hit => In p targets
        | timeout => True
        end)
  /\ (Forall (fun row => (timestamp row <= entry_time)%Z) data ->
      _find_exit_point data entry_time targets stop_loss position_type
      = None).
Proof.
  split.
  - intros p time reason. unfold _find_exit_point.
    destruct (after entry_time data) as [|first_row more] eqn:Ea;
      [discriminate|].
    destruct (exit_loop (first_row :: more) targets stop_loss position_type)
      as [[[p' time'] reason']|] eqn:El.
    + intro H. injection H as -> -> ->.
      assert (Hstop : reason = stop_loss_hit -> ~ p == 0).
      { intros ->. clear -El. revert El.
        induction (first_row :: more) as [|row tl IH]; simpl; [discriminate|].
        destruct (stop_check row stop_loss position_type) as [stop|] eqn:Es.
        - intro H. injection H as <- _.
          apply BacktestFacts.stop_check_sound in Es.
          destruct Es as [E [stop' [E' [H0 _]]]].
          rewrite E in E'. now injection E' as <-.
        - destruct (target_loop row targets position_type);
            [discriminate | exact IH]. }
      apply exit_loop_found in El. destruct El as [[r [Hr Ht]] [Hn Hsrc]].
      rewrite <- Ea in Hr. apply BacktestFacts.after_In in Hr.
      split; [rewrite <- Ht; apply Hr|].
      split; [exists r; split; [apply Hr|]; split; [exact Ht|];
              intro; contradiction|].
      destruct reason; cbn [exit_source] in Hsrc;
        [split; [exact Hsrc | now apply Hstop] | exact Hsrc | exact I].
    + intro H. injection H as <- <- <-.
      pose proof (last_In first_row more first_row) as Hl.
      rewrite <- Ea in Hl at 2. apply BacktestFacts.after_In in Hl.
      split; [apply Hl|]. split; [|exact I].
      eexists. split; [apply Hl|]. split; reflexivity.
  - intro H. unfold _find_exit_point.
    assert (Ha : after entry_time data = []).
    { unfold after. induction H as [|row tl Hr _ IH]; [reflexivity|].
      simpl. apply Z.ltb_ge in Hr. now rewrite Hr. }
    now rewrite Ha.
Qed.

Lemma exit_is_later_and_from_the_signal_witness :
  let data := [Candle 0 45050 45100 44900 45000 10;
               Candle 3600 45000 45050 43900 44100 10;
               Candle 7200 44100 47100 44050 47000 10] in
  (0 < 3600)%Z
  /\ (exists row, In row data /\ timestamp row = 3600%Z
                  /\ (stop_loss_hit = timeout -> close row = 44000))
  /\ Some 44000 = Some 44000 /\ ~ 44000 == 0.
Proof.
  exact (proj1 (exit_is_later_and_from_the_signal
                  [Candle 0 45050 45100 44900 45000 10;
                   Candle 3600 45000 45050 43900 44100 10;
                   Candle 7200 44100 47100 44050 47000 10]
                  0 [47000] (Some 44000) (Some "LONG"%string))
           44000 3600%Z stop_loss_hit eq_refl).
Defined.

Section Simulation.

Variable world : Type.
Variable _get_historical_data : world -> string -> world * option (list candle).
Variable frame_is_falsy : list candle -> Py.result bool.

(** What stands behind a returned trade. *)
Lemma simulate_inv (w w' : world) (s : signal) (st : settings) (balance : Q)
  (t : trade) :
  _simulate_trade world _get_historical_data frame_is_falsy w s st balance
  = (w', Some t) ->
  exists raw f errors parsed first_zone more data,
    s = Parsed raw f errors parsed
    /\ entry_zones f = first_zone :: more
    /\ _get_historical_data w (pair_symbol f) = (w', Some data)
    /\ _find_entry_point data (entry_zones f) (position_type f)
       = Some (entry_price t, entry_time t)
    /\ _find_exit_point data (entry_time t) (targets f) (stop_loss f)
         (position_type f)
       = Some (exit_price t, exit_time t, t_exit_reason t)
    /\ ~ entry_price t == 0 /\ ~ exit_price t == 0
    /\ ~ position_size t == 0
    /\ position_size t
       = _calculate_position_size balance (get (default_position_size st) 10)
           (get (risk_percentage st) 2) (Some first_zone) (stop_loss f)
    /\ t_leverage t = leverage f
    /\ t_position_type t = position_type f
    /\ pnl t
       = move (position_type f) (entry_price t) (exit_price t)
         / entry_price t * position_size t * inject_Z (leverage f)
    /\ pnl_percentage t = pnl t / position_size t * 100
    /\ duration_hours t = inject_Z (exit_time t - entry_time t) / 3600.
Proof.
  unfold _simulate_trade.
  destruct (simulate_body world _get_historical_data frame_is_falsy w s st
              balance) as [w1 [result|e]] eqn:E; [|discriminate].
  intro H. injection H as -> ->.
  unfold simulate_body in E.
  destruct s as [raw f errors parsed | raw errors parsed]; [|discriminate].
  destruct (entry_zones f) as [|first_zone more] eqn:Ez; [discriminate|].
  destruct (_get_historical_data w (pair_symbol f)) as [w2 [data|]] eqn:Eh;
    [|discriminate].
  injection E as -> E.
  destruct (frame_is_falsy data) as [[|]|]; cbn [Py.bind] in E;
    try discriminate.
  destruct (_find_entry_point data (first_zone :: more) (position_type f))
    as [[ep et]|] eqn:Een; [|discriminate].
  destruct (Py.eqb ep 0) eqn:E0; [discriminate|].
  destruct (_find_exit_point data et (targets f) (stop_loss f)
              (position_type f)) as [[[xp xt] xr]|] eqn:Eex; [|discriminate].
  destruct (Py.eqb xp 0) eqn:X0; [discriminate|].
  unfold Py.div in E. rewrite E0 in E. cbn [Py.bind] in E.
  destruct (Py.eqb (_calculate_position_size balance
                      (get (default_position_size st) 10)
                      (get (risk_percentage st) 2) (Some first_zone)
                      (stop_loss f)) 0) eqn:S0; [discriminate|].
  cbn [Py.bind] in E. injection E as <-.
  cbn [entry_price entry_time exit_price exit_time t_exit_reason position_size
       t_leverage t_position_type pnl pnl_percentage duration_hours].
  exists raw, f, errors, parsed, first_zone, more, data.
  apply eqb_neq in E0, X0, S0. unfold move. rewrite Ez.
  repeat (split; [first [reflexivity | assumption]|]). reflexivity.
Qed.

(** X20: Without a candle that touches an entry zone, or with the first
    such candle the last of the history, the simulation gives no trade,
    whatever the frame library answers. *)
Theorem unfilled_or_late_entry_gives_no_trade (w w' : world) (raw : pyobj)
  (f : fields) (errors : list string) (parsed : bool) (st : settings)
  (balance : Q) (data earlier : list candle) (row : candle) :
  _get_historical_data w (pair_symbol f) = (w', Some data) ->
  data = earlier ++ [row] ->
  Forall (fun r => ~ touches r (entry_zones f)
                   /\ (timestamp r <= timestamp row)%Z) earlier ->
  snd (_simulate_trade world _get_historical_data frame_is_falsy w
         (Parsed raw f errors parsed) st balance)
  = None.
Proof.
  intros Hh Hd He.
  destruct (_simulate_trade world _get_historical_data frame_is_falsy w
              (Parsed raw f errors parsed) st balance)
    as [w1 [t|]] eqn:E; [|reflexivity].
  exfalso. apply simulate_inv in E.
    destruct E as [raw' [f' [errors' [parsed' [first_zone [more [data' E]]]]]]].
    destruct E as [Hs [Hz [Hh' [Hen [Hex _]]]]].
    injection Hs as <- <- <- <-.
    rewrite Hh in Hh'. injection Hh' as <- <-.
    assert (Hq : Forall (fun r => ~ touches r (entry_zones f)) earlier).
    { eapply Forall_impl; [|exact He]. cbv beta. tauto. }
    assert (Hskip : _find_entry_point (earlier ++ [row]) (entry_zones f)
                      (position_type f)
                    = _find_entry_point [row] (entry_zones f)
                        (position_type f)).
    { clear -Hq. induction Hq as [|r l Hr _ IH]; [reflexivity|].
      simpl. apply BacktestAccounting.zone_loop_none in Hr.
      now rewrite Hr. }
    rewrite Hd, Hskip in Hen. simpl in Hen.
    destruct (zone_loop row (entry_zones f)); [|discriminate].
    injection Hen as Hp Ht.
    unfold _find_exit_point in Hex.
    assert (Ha : after (entry_time t) data = []).
    { rewrite Hd, <- Ht. unfold after.
      rewrite filter_app. simpl. rewrite Z.ltb_irrefl, app_nil_r.
      clear -He. induction He as [|r l [_ Hr] _ IH]; [reflexivity|].
      simpl. apply Z.ltb_ge in Hr. now rewrite Hr. }
    rewrite Ha in Hex. discriminate.
Qed.

(** X21: With a frame library whose frames have no truth value, as the one
    the engine imports, every simulation ends in the exception handler:
    no signal gives a trade, and a run reports no trade and an unchanged
    balance. *)
Theorem frames_without_truth_value_give_no_trade (np : numpy)
  (w : world) (signals : list signal) (st : settings) (initial : Q) :
  (forall data, exists e, frame_is_falsy data = Py.Raise e) ->
  ~ initial == 0 ->
  (forall w0 s balance,
     snd (_simulate_trade world _get_historical_data frame_is_falsy w0 s st
            balance)
     = None)
  /\ run_backtest np world
       (_simulate_trade world _get_historical_data frame_is_falsy) w signals st initial
     = Py.Ok (Report initial initial (initial - initial)
                ((initial - initial) / initial * 100) 0 0 0 0 0 0 [] []
                no_metrics).
Proof.
  intros Hf H0.
  assert (Hnone : forall w0 s balance,
             snd (_simulate_trade world _get_historical_data frame_is_falsy
                    w0 s st balance)
             = None).
  { intros w0 s balance.
    destruct (_simulate_trade world _get_historical_data frame_is_falsy w0
                s st balance) as [w1 [t|]] eqn:E; [|reflexivity].
    exfalso. unfold _simulate_trade, simulate_body in E.
    destruct s as [raw f errors parsed | raw errors parsed]; [|discriminate].
    destruct (entry_zones f); [discriminate|].
    destruct (_get_historical_data w0 (pair_symbol f)) as [w2 [data|]];
      [|discriminate].
    destruct (Hf data) as [e He]. rewrite He in E. discriminate. }
  split; [exact Hnone|].
  assert (Hloop : forall l w0,
             signal_loop world
               (_simulate_trade world _get_historical_data frame_is_falsy) w0 l st initial [] []
             = (initial, [], [])).
  { induction l as [|s tl IH]; intro w0; [reflexivity|].
    cbn [signal_loop]. destruct (has_coin_and_entries s); [|apply IH].
    pose proof (Hnone w0 s initial) as Hn.
    destruct (_simulate_trade world _get_historical_data frame_is_falsy w0
                s st initial) as [w1 r]. simpl in Hn. subst r.
    apply IH. }
  unfold run_backtest. rewrite Hloop.
  unfold make_report, Py.div. apply eqb_neq in H0. rewrite H0. reflexivity.
Qed.

End Simulation.

Lemma unfilled_or_late_entry_gives_no_trade_witness :
  snd (_simulate_trade nat
         (Scenario.fixed_history
            [Candle 0 44000 44100 43900 44000 10;
             Candle 3600 45050 45100 44900 45000 10])
         Scenario.ambiguous 0%nat
         (Parsed Scenario.scenario_a Scenario.fields_a [] true)
         Scenario.no_settings 1000)
  = None.
Proof.
  apply (unfilled_or_late_entry_gives_no_trade nat
           (Scenario.fixed_history
              [Candle 0 44000 44100 43900 44000 10;
               Candle 3600 45050 45100 44900 45000 10])
           Scenario.ambiguous 0%nat 1%nat Scenario.scenario_a
           Scenario.fields_a [] true Scenario.no_settings 1000
           [Candle 0 44000 44100 43900 44000 10;
            Candle 3600 45050 45100 44900 45000 10]
           [Candle 0 44000 44100 43900 44000 10]
           (Candle 3600 45050 45100 44900 45000 10)).
  - reflexivity.
  - reflexivity.
  - constructor; [|constructor]. split; [|vm_compute; discriminate].
    intros [zone [Hin [Hl Hh]]]. vm_compute in Hin.
    destruct Hin as [<- | [<- | [<- | []]]];
      vm_compute in Hh; now apply Hh.
Defined.

Lemma frames_without_truth_value_give_no_trade_witness :
  run_backtest Scenario.numpy6 nat
    (_simulate_trade nat (Scenario.fixed_history Scenario.rising)
       Scenario.ambiguous)
    0%nat (map parse_signal [Scenario.scenario_a; Scenario.scenario_a])
    Scenario.no_settings 1000
  = Py.Ok (Report 1000 1000 (1000 - 1000) ((1000 - 1000) / 1000 * 100)
             0 0 0 0 0 0 [] [] no_metrics).
Proof.
  apply (frames_without_truth_value_give_no_trade nat
           (Scenario.fixed_history Scenario.rising) Scenario.ambiguous
           Scenario.numpy6 0%nat
           (map parse_signal [Scenario.scenario_a; Scenario.scenario_a])
           Scenario.no_settings 1000).
  - intro data. eexists. reflexivity.
  - intro H. vm_compute in H. discriminate.
Defined.

End SimulationFacts.

(** ** The orders of a live execution *)

Module OrderFacts.

Import TelegramSignalParser BitunixTradeManager.

Lemma sum_cons (x : Q) (l : list Q) : Py.sum (x :: l) == x + Py.sum l.
Proof.
  unfold Py.sum. simpl. rewrite BacktestAccounting.sum_from.
  unfold Py.sum. ring.
Qed.

Lemma ladder_sizes (symbol side_ : string) (prices distribution : list Q)
  (total : Q) (reduce : bool) :
  Py.sum (map size (ladder symbol side_ prices distribution total reduce))
  == total * (Py.sum (firstn (length prices) distribution) / 100).
Proof.
  unfold ladder. revert distribution.
  induction prices as [|p tl IH]; intro distribution.
  - simpl. unfold Py.sum. simpl. field.
  - destruct distribution as [|d ds].
    + simpl. unfold Py.sum. simpl. field.
    + cbn [combine map size length firstn]. rewrite !sum_cons, IH. field.
Qed.

Lemma ladder_prices (symbol side_ : string) (prices distribution : list Q)
  (total : Q) (reduce : bool) :
  map price (ladder symbol side_ prices distribution total reduce)
  = firstn (length distribution) prices.
Proof.
  unfold ladder. revert distribution.
  induction prices as [|p tl IH]; intro distribution.
  - now destruct distribution.
  - destruct distribution as [|d ds]; [reflexivity|].
    cbn [combine map price length firstn]. now rewrite IH.
Qed.

Lemma ladder_kind (symbol side_ : string) (prices distribution : list Q)
  (total : Q) (reduce : bool) :
  Forall (fun rq => o_symbol rq = symbol /\ side rq = side_
                    /\ order_type rq = "limit"%string
                    /\ reduce_only rq = reduce)
    (ladder symbol side_ prices distribution total reduce).
Proof.
  unfold ladder. apply Forall_forall. intros rq H.
  apply in_map_iff in H. destruct H as [[p d] [<- _]]. now repeat split.
Qed.

(** X22: A ladder has one limit order for each price that has a share of
    the distribution, in the order of the prices; a price beyond the
    distribution gets no order, and the sizes add up to the shares of
    the prices there are, not to the whole size. *)
Theorem ladder_follows_the_shorter_list (symbol side_ : string)
  (prices distribution : list Q) (total : Q) (reduce : bool) :
  let orders := ladder symbol side_ prices distribution total reduce in
  length orders = Nat.min (length prices) (length distribution)
  /\ map price orders = firstn (length distribution) prices
  /\ Py.sum (map size orders)
     == total * (Py.sum (firstn (length prices) distribution) / 100)
  /\ Forall (fun rq => o_symbol rq = symbol /\ side rq = side_
                       /\ order_type rq = "limit"%string
                       /\ reduce_only rq = reduce) orders.
Proof.
  intro orders. split; [|split; [|split]].
  - unfold orders, ladder. now rewrite length_map, length_combine.
  - apply ladder_prices.
  - apply ladder_sizes.
  - apply ladder_kind.
Qed.

(** X23: With the distribution of the code, 40, 35 and 25, one entry zone
    is ordered at 40 % of the position size and two at 75 %; from three
    zones on the three lowest are ordered, at the whole size. *)
Theorem default_entry_ladder_fills_by_zone_count (f : fields) (st : settings) :
  entry_distribution st = None ->
  let orders := entry_requests f st in
  let ordered := Py.sum (map size orders) in
  (length (entry_zones f) = 1%nat -> ordered == sized f st * (40 # 100))
  /\ (length (entry_zones f) = 2%nat -> ordered == sized f st * (75 # 100))
  /\ ((3 <= length (entry_zones f))%nat ->
      ordered == sized f st
      /\ map price orders = firstn 3 (entry_zones f)).
Proof.
  intros Hd orders ordered. unfold ordered, orders, entry_requests.
  rewrite Hd. cbn [get]. split; [|split].
  - intro H. rewrite ladder_sizes, H. unfold Py.sum. simpl. field.
  - intro H. rewrite ladder_sizes, H. unfold Py.sum. simpl. field.
  - intro H. split.
    + rewrite ladder_sizes.
      replace (firstn (length (entry_zones f)) [40; 35; 25])
        with [40; 35; 25].
      * unfold Py.sum. simpl. field.
      * destruct (entry_zones f) as [|z1 [|z2 [|z3 tl]]]; simpl in H;
          try lia. simpl. now destruct tl.
    + apply ladder_prices.
Qed.

Lemma default_entry_ladder_fills_by_zone_count_witness :
  Py.sum (map size (entry_requests Scenario.fields_a Scenario.no_settings))
  == sized Scenario.fields_a Scenario.no_settings.
Proof.
  apply (default_entry_ladder_fills_by_zone_count Scenario.fields_a
           Scenario.no_settings eq_refl).
  vm_compute. lia.
Defined.

(** X24: The size of a live position is never negative and never more than
    five times the base size, for a base size and a risk percentage
    that are not negative. *)
Theorem live_size_within_five_times_base (base_size risk : Q)
  (entry_price stop_loss : option Q) :
  0 <= base_size -> 0 <= risk ->
  0 <= _calculate_position_size base_size risk entry_price stop_loss
  /\ _calculate_position_size base_size risk entry_price stop_loss
     <= base_size * 5.
Proof.
  intros Hb Hr. unfold _calculate_position_size.
  destruct (BacktestEngine.usable_prices entry_price stop_loss)
    as [[entry stop]|]; [|lra].
  destruct (Py.ltb 0 (Qabs (entry - stop) / entry)) eqn:E; [|lra].
  apply ltb_lt in E. set (rpu := Qabs (entry - stop) / entry) in *.
  destruct (BacktestAccounting.py_min_lower (risk / 100 / rpu * base_size)
              (base_size * 5)) as [_ H].
  split; [|exact H].
  assert (0 <= risk / 100 / rpu * base_size).
  { apply Qmult_le_0_compat; [|exact Hb].
    apply Qle_shift_div_l; [exact E|].
    setoid_replace (0 * rpu) with 0 by ring.
    apply Qle_shift_div_l; lra. }
  unfold Py.min. destruct (Py.ltb _ _); lra.
Qed.

Lemma live_size_within_five_times_base_witness :
  _calculate_position_size 10 2 (Some 100) (Some 99) <= 10 * 5.
Proof.
  apply (live_size_within_five_times_base 10 2 (Some 100) (Some 99));
    vm_compute; discriminate.
Defined.

(** X25: Entries are opened on one side; targets and stop close on the
    other, as reduce-only orders; the stop order has the whole position
    size whatever the entry ladder ordered. *)
Theorem exits_oppose_entries (f : fields) (st : settings) :
  entry_side (position_type f) <> exit_side (position_type f)
  /\ Forall (fun rq => side rq = entry_side (position_type f)
                       /\ reduce_only rq = false)
       (entry_requests f st)
  /\ Forall (fun rq => side rq = exit_side (position_type f)
                       /\ reduce_only rq = true)
       (target_requests f st ++ stop_requests f st)
  /\ Forall (fun rq => size rq = sized f st) (stop_requests f st)
  /\ (entry_side (position_type f) = "buy"%string
      <-> position_type f = Some "LONG"%string).
Proof.
  split; [|split; [|split; [|split]]].
  - unfold entry_side, exit_side.
    destruct (is_side "LONG" (position_type f)); discriminate.
  - unfold entry_requests. eapply Forall_impl; [|apply ladder_kind].
    cbv beta. tauto.
  - apply Forall_app. split.
    + unfold target_requests. eapply Forall_impl; [|apply ladder_kind].
      cbv beta. tauto.
    + unfold stop_requests. destruct (stop_loss f) as [stop|]; [|constructor].
      destruct (Py.falsy (Some stop)); repeat constructor.
  - unfold stop_requests. destruct (stop_loss f) as [stop|]; [|constructor].
    destruct (Py.falsy (Some stop)); repeat constructor.
  - unfold entry_side.
    pose proof (BacktestFacts.is_side_long (position_type f)) as HL.
    unfold BacktestEngine.long in HL.
    destruct (is_side "LONG" (position_type f)); split; intro H.
    + now apply HL.
    + reflexivity.
    + discriminate.
    + apply HL in H. discriminate.
Qed.

(** X26: The body of the stop order has no price: the order type is not
    limit, so the stop price of the signal never reaches the exchange.
    A limit order of a ladder carries its price, unless that price is
    0.  No order of the trade manager carries a leverage. *)
Theorem stop_order_is_sent_without_its_price (f : fields) (st : settings) :
  Forall (fun rq =>
            lookup "price" (request_data rq) = None
            /\ lookup "type" (request_data rq) = Some (JString "stop_market")
            /\ lookup "size" (request_data rq) = Some (JText (sized f st)))
    (stop_requests f st)
  /\ Forall (fun rq =>
               lookup "type" (request_data rq) = Some (JString "limit")
               /\ lookup "price" (request_data rq)
                  = if Py.eqb (price rq) 0 then None
                    else Some (JText (price rq)))
       (entry_requests f st ++ target_requests f st)
  /\ (forall rq, lookup "leverage" (request_data rq) = None).
Proof.
  split; [|split].
  - unfold stop_requests. destruct (stop_loss f) as [stop|]; [|constructor].
    destruct (Py.falsy (Some stop)) eqn:E; [constructor|].
    constructor; [|constructor].
    unfold request_data, place_order_data, stop_request.
    cbn [o_symbol side order_type size price reduce_only app lookup
         String.eqb Ascii.eqb Bool.eqb andb negb].
    destruct (Py.falsy (Some stop)); now repeat split.
  - assert (H : forall symbol side_ prices distribution total reduce,
               Forall (fun rq =>
                         lookup "type" (request_data rq)
                         = Some (JString "limit")
                         /\ lookup "price" (request_data rq)
                            = if Py.eqb (price rq) 0 then None
                              else Some (JText (price rq)))
                 (ladder symbol side_ prices distribution total reduce)).
    { intros. eapply Forall_impl; [|apply ladder_kind]. cbv beta.
      intros rq [_ [_ [Ht _]]].
      unfold request_data, place_order_data. rewrite Ht.
      cbn [app lookup String.eqb Ascii.eqb Bool.eqb andb Py.falsy].
      split; [reflexivity|].
      destruct (Py.eqb (price rq) 0); reflexivity. }
    apply Forall_app. split; apply H.
  - intro rq. unfold request_data, place_order_data.
    cbn [app lookup String.eqb Ascii.eqb Bool.eqb].
    destruct (negb (Py.falsy (Some (price rq)))
              && String.eqb (order_type rq) "limit"); reflexivity.
Qed.

(** X27: When no stop order comes back from [execute_signal], because the
    signal has no stop or the exchange refused the order, the route
    fails on the missing dictionary after every order has been sent: it
    answers with an exception and stores no trade. *)
Theorem route_without_stop_order_stores_nothing
  (api response : Type)
  (set_leverage : api -> string -> Z -> string -> api * Py.result response)
  (place_order : api -> order_request -> api * Py.result response)
  (order_id : response -> option string)
  (a a1 : api) (ok : response) (raw : pyobj) (f : fields)
  (errors : list string) (parsed : bool) (st : settings) :
  set_leverage a (symbol_of f) (leverage f) (margin_mode f) = (a1, Py.Ok ok) ->
  let send := send_all api response place_order in
  let got := accepted api response place_order in
  let a3 := send a1 (entry_requests f st ++ target_requests f st) in
  let answer_ :=
    execute_route api response set_leverage place_order order_id a
      (Parsed raw f errors parsed) (Some st) false in
  (hd_error (got a3 (stop_requests f st)) = None ->
   answer_
   = (send a1 (entry_requests f st ++ target_requests f st
               ++ stop_requests f st),
      Crashed "'NoneType' object has no attribute 'get'"))
  /\ (Py.falsy (stop_loss f) = true ->
      answer_ = (a3, Crashed "'NoneType' object has no attribute 'get'")).
Proof.
  intros Hlev send got a3 answer_.
  assert (E : execute_signal api response set_leverage place_order a
                (Parsed raw f errors parsed) st
              = (send a3 (stop_requests f st),
                 Executed response (symbol_of f) (position_type f)
                   (sized f st) (leverage f)
                   (got a1 (entry_requests f st))
                   (got (send a1 (entry_requests f st))
                      (target_requests f st))
                   (hd_error (got a3 (stop_requests f st))))).
  { unfold execute_signal, execute_body. rewrite Hlev.
    rewrite ExecutionFacts.place_entry_all, ExecutionFacts.place_target_all,
      ExecutionFacts.place_stop_all.
    unfold a3, send. now rewrite ExecutionFacts.send_all_app. }
  assert (Hcrash : hd_error (got a3 (stop_requests f st)) = None ->
                   answer_
                   = (send a3 (stop_requests f st),
                      Crashed "'NoneType' object has no attribute 'get'")).
  { intro Hn. unfold answer_, execute_route. rewrite E, Hn. reflexivity. }
  split.
  - intro Hn. rewrite (Hcrash Hn). unfold a3, send.
    now rewrite <- ExecutionFacts.send_all_app, <- app_assoc.
  - intro Hf.
    assert (Hs : stop_requests f st = []).
    { unfold stop_requests. destruct (stop_loss f); [|reflexivity].
      now rewrite Hf. }
    rewrite Hs in Hcrash. now apply Hcrash.
Qed.

Lemma route_without_stop_order_stores_nothing_witness :
  execute_route (list order_request) nat Scenario.accepting_leverage
    Scenario.refusing_place (fun _ => None) []
    (Parsed Scenario.scenario_a Scenario.fields_a [] true)
    (Some Scenario.no_settings) false
  = (entry_requests Scenario.fields_a Scenario.no_settings
     ++ target_requests Scenario.fields_a Scenario.no_settings
     ++ stop_requests Scenario.fields_a Scenario.no_settings,
     Crashed "'NoneType' object has no attribute 'get'").
Proof.
  rewrite (proj1 (route_without_stop_order_stores_nothing
                    (list order_request) nat Scenario.accepting_leverage
                    Scenario.refusing_place (fun _ => None) [] [] 0%nat
                    Scenario.scenario_a Scenario.fields_a [] true
                    Scenario.no_settings eq_refl)).
  - vm_compute. reflexivity.
  - vm_compute. reflexivity.
Defined.

End OrderFacts.

(** ** From the parser to the back-test *)

Module PipelineFacts.

Import TelegramSignalParser BacktestEngine.

Lemma successful_parse_is_eligible (text : pyobj) :
  parsed_successfully (parse_signal text) = true ->
  has_coin_and_entries (parse_signal text) = true.
Proof.
  unfold parse_signal, parse_body.
  destruct (_clean_text text) as [c|e]; cbn [Py.bind]; [|discriminate].
  cbn [parsed_successfully has_coin_and_entries coin entry_zones].
  unfold _validate_signal.
  generalize (_extract_coin c) (_extract_position_type c)
    (_extract_entry_zones c).
  intros co side_ zones.
  destruct (no_str co), (no_str side_), zones; cbn [app negb andb];
    try discriminate; reflexivity.
Qed.

(** X11: A back-test is made of the texts whose parse was successful; the
    run skips none of these for a missing coin or entry zone, so every
    one of them reaches the simulation. *)
Theorem kept_signals_are_never_skipped (texts : list pyobj) :
  let kept := filter parsed_successfully (map parse_signal texts) in
  filter has_coin_and_entries kept = kept.
Proof.
  cbv zeta. induction texts as [|text tl IH]; [reflexivity|].
  cbn [map filter].
  destruct (parsed_successfully (parse_signal text)) eqn:E; [|exact IH].
  cbn [filter]. rewrite (successful_parse_is_eligible text E).
  now rewrite IH.
Qed.

End PipelineFacts.

(** ** The cross-margin flag *)

Module CrossFacts.

Import Re TelegramSignalParser.

Lemma in_charset_letter (c x : ascii) :
  in_charset true (CChar c) x = same_letter x c.
Proof.
  unfold same_letter. cbn [in_charset andb].
  destruct (Ascii.eqb x c) eqn:E; [|reflexivity].
  apply Ascii.eqb_eq in E. subst x. now rewrite Ascii.eqb_refl.
Qed.

Lemma same_letter_sym (c x : ascii) : same_letter c x = same_letter x c.
Proof. unfold same_letter. apply Ascii.eqb_sym. Qed.

(** A literal pattern reads its characters one by one. *)
Lemma run_lit (w : list ascii) :
  forall st k,
    run true (fold_right (fun c r => Seq (One (CChar c)) r) Eps w) st k
    = if starts_with w (rest st)
      then k (read st (firstn (length w) (rest st)))
      else None.
Proof.
  induction w as [|c w IH]; intros st k; [reflexivity|].
  cbn [fold_right run starts_with length].
  destruct (rest st) as [|x tl] eqn:Er; [reflexivity|].
  rewrite in_charset_letter, same_letter_sym.
  destruct (same_letter c x); [|reflexivity].
  rewrite IH. cbn [rest andb firstn read]. now rewrite Er.
Qed.

Lemma match_at_lit (s : string) (p : nat) (pv : option ascii)
  (l : list ascii) :
  match match_at true (lit s) p pv l with
  | Some _ => true
  | None => false
  end
  = starts_with (Str.chars s) l.
Proof.
  unfold match_at, lit. rewrite run_lit. cbn [rest].
  now destruct (starts_with (Str.chars s) l).
Qed.

Lemma search_lit (s : string) (l : list ascii) :
  forall p pv,
    match search_from true (lit s) p pv l with
    | Some _ => true
    | None => false
    end
    = occurs (Str.chars s) l.
Proof.
  induction l as [|x tl IH]; intros p pv; cbn [search_from occurs];
    rewrite <- (match_at_lit s p pv);
    destruct (match_at true (lit s) p pv) as [m|]; try reflexivity.
  cbn [orb]. apply IH.
Qed.

Lemma starts_with_app (u v l : list ascii) :
  starts_with (u ++ v) l = true -> starts_with u l = true.
Proof.
  revert l. induction u as [|c u IH]; intros l; [reflexivity|].
  destruct l as [|x tl]; cbn [app starts_with]; [discriminate|].
  rewrite !andb_true_iff. intros [H1 H2]. split; [exact H1 | now apply IH].
Qed.

Lemma starts_with_case (u u' l : list ascii) :
  map Str.lower_char u = map Str.lower_char u' ->
  starts_with u l = starts_with u' l.
Proof.
  revert u' l. induction u as [|c u IH]; intros [|c' u'] l H;
    cbn [map] in H; try discriminate H; [reflexivity|].
  injection H as Hc Hu.
  destruct l as [|x tl]; [reflexivity|]. cbn [starts_with].
  unfold same_letter. rewrite Hc. now rewrite (IH u' tl Hu).
Qed.

Lemma occurs_weaker (w1 w2 l : list ascii) :
  (forall l', starts_with w2 l' = true -> starts_with w1 l' = true) ->
  occurs w2 l = true -> occurs w1 l = true.
Proof.
  intro H. induction l as [|x tl IH]; cbn [occurs];
    rewrite !orb_true_iff; intros [H1 | H2]; try discriminate.
  - left. now apply H.
  - left. now apply H.
  - right. now apply IH.
Qed.

Lemma occurs_app (w a l : list ascii) :
  occurs w l = true -> occurs w (a ++ l) = true.
Proof.
  intro H. induction a as [|x a IH]; [exact H|].
  cbn [app occurs]. rewrite IH. apply orb_true_r.
Qed.

Lemma occurs_head (w l : list ascii) :
  starts_with w l = true -> occurs w l = true.
Proof. intro H. destruct l; cbn [occurs]; now rewrite H. Qed.

Lemma starts_with_self (w w' b : list ascii) :
  map Str.lower_char w' = map Str.lower_char w ->
  starts_with w (w' ++ b) = true.
Proof.
  revert w'. induction w as [|c w IH]; intros [|c' w'] H; cbn [map] in H;
    try discriminate H; [reflexivity|].
  injection H as Hc Hw. cbn [app starts_with].
  unfold same_letter. rewrite Hc, Ascii.eqb_refl. now apply IH.
Qed.

(** X28: For a text of ASCII characters the cross-margin flag is set
    exactly when the text holds the letters CROSS, in any case and
    anywhere, also inside a longer word; the two longer patterns of the
    list never change the answer. *)
Theorem cross_is_found_anywhere_in_any_case (text : string) :
  Str.ascii_only text = true ->
  _detect_cross_leverage text
  = occurs (Str.chars "CROSS") (Str.chars text)
  /\ (forall a w b,
        Str.chars text = a ++ w ++ b ->
        map Str.lower_char w = Str.chars "cross" ->
        _detect_cross_leverage text = true).
Proof.
  intros _.
  assert (E : _detect_cross_leverage text
              = occurs (Str.chars "CROSS") (Str.chars text)).
  { unfold _detect_cross_leverage, cross_patterns, search.
    cbn [existsb]. rewrite !search_lit, orb_false_r.
    destruct (occurs (Str.chars "CROSS") (Str.chars text)) eqn:E1;
      [reflexivity|].
    cbn [orb].
    assert (Hw : forall tail l',
               starts_with (Str.chars "Cross" ++ tail) l' = true ->
               starts_with (Str.chars "CROSS") l' = true).
    { intros tail l' H. apply starts_with_app in H.
      now rewrite (starts_with_case (Str.chars "CROSS") (Str.chars "Cross")
                     l' eq_refl). }
    destruct (occurs (Str.chars "Cross Leverage") (Str.chars text)) eqn:E2.
    { apply (occurs_weaker (Str.chars "CROSS")) in E2;
        [congruence | apply (Hw (Str.chars " Leverage"))]. }
    destruct (occurs (Str.chars "Cross Margin") (Str.chars text)) eqn:E3;
      [|reflexivity].
    apply (occurs_weaker (Str.chars "CROSS")) in E3;
      [congruence | apply (Hw (Str.chars " Margin"))]. }
  split; [exact E|].
  intros a w b Ht Hw. rewrite E, Ht. apply occurs_app, occurs_head.
  apply starts_with_self. now rewrite Hw.
Qed.

Lemma cross_is_found_anywhere_in_any_case_witness :
  _detect_cross_leverage "trade across 10x" = true.
Proof.
  apply (proj2 (cross_is_found_anywhere_in_any_case "trade across 10x"
                  eq_refl)
           (Str.chars "trade a") (Str.chars "cross") (Str.chars " 10x"));
    reflexivity.
Defined.

End CrossFacts.
